(** * KeOS grading harness ([keos-projects/.cargo/run.py])

    A shallow embedding of the integrity-verification engine and of the
    grading/execution engine of [run.py], followed by the properties
    established about them.

    Conventions of the embedding:
    - a Python [str] is a Rocq [string] holding its UTF-8 encoding, a
      Python [bytes] is a [string] of raw bytes;
    - a Python [dict] is an association list in insertion order, written
      through [dict_set];
    - [print], [sys.stdout.buffer.write], process launches and file copies
      are events appended to a log that is threaded through the code;
    - an exception, [sys.exit] and a normal return are the three outcomes
      of a call. *)

From Stdlib Require Import ZArith Ascii String List Bool Lia.
From Stdlib Require Import PrimFloat SpecFloat FloatOps.
From stdpp Require Import base gmap strings list pretty.

Open Scope Z_scope.
Set Warnings "-clear-no-such-hyp".

(* ===================================================================== *)
(** * Python built-ins used by the harness                                *)
(* ===================================================================== *)

Module Py.

(** [s.startswith(p)] *)
Definition startswith (s p : string) : bool := String.prefix p s.

(** [s.endswith(suf)]: some tail of [s] is [suf]. *)
Fixpoint endswith (s suf : string) : bool :=
  if String.eqb s suf then true
  else match s with
       | EmptyString => false
       | String _ s' => endswith s' suf
       end.

(** [needle in s] on strings: [needle] starts at some position of [s]. *)
Fixpoint contains (needle s : string) : bool :=
  if String.prefix needle s then true
  else match s with
       | EmptyString => false
       | String _ s' => contains needle s'
       end.

(** [s[:-1]] *)
Fixpoint drop_last (s : string) : string :=
  match s with
  | EmptyString => EmptyString
  | String _ EmptyString => EmptyString
  | String c s' => String c (drop_last s')
  end.

(** [s.replace(old, new)] for a non-empty [old]: occurrences are replaced
    left to right without overlap; [skip] counts the characters of the
    occurrence being replaced that are still to be passed over. *)
Fixpoint replace_go (old new s : string) (skip : nat) : string :=
  match s with
  | EmptyString => EmptyString
  | String c s' =>
    match skip with
    | S k => replace_go old new s' k
    | O =>
      if String.prefix old s
      then new +:+ replace_go old new s' (Nat.pred (String.length old))
      else String c (replace_go old new s' O)
    end
  end.

(** [s.replace('', new)] puts [new] before every character and at the end. *)
Fixpoint replace_empty (new s : string) : string :=
  match s with
  | EmptyString => new
  | String c s' => new +:+ String c (replace_empty new s')
  end.

Definition replace (s old new : string) : string :=
  match old with
  | EmptyString => replace_empty new s
  | _ => replace_go old new s O
  end.

(** [s.split(c)] for a one-character separator. *)
Fixpoint split (c : ascii) (s : string) : list string :=
  match s with
  | EmptyString => [EmptyString]
  | String a s' =>
    if Ascii.eqb a c then EmptyString :: split c s'
    else match split c s' with
         | [] => [String a EmptyString]
         | w :: ws => String a w :: ws
         end
  end.

(** [sep.join(l)] *)
Fixpoint join (sep : string) (l : list string) : string :=
  match l with
  | [] => EmptyString
  | [w] => w
  | w :: ws => w +:+ sep +:+ join sep ws
  end.

(** [str(n)] for an [int]. *)
Definition str_of_int (n : Z) : string := pretty n.

(** ** [int(s)], on ASCII input

    Surrounding white space is dropped, one sign is allowed, and the
    digits may be grouped by single underscores. Digits outside ASCII
    (which Python also accepts) are not part of this model. *)

Definition is_space (a : ascii) : bool :=
  let n := nat_of_ascii a in
  ((9 <=? n) && (n <=? 13) || (28 <=? n) && (n <=? 32))%nat.

Definition digit_value (a : ascii) : option Z :=
  let n := nat_of_ascii a in
  if ((48 <=? n) && (n <=? 57))%nat then Some (Z.of_nat n - 48) else None.

Fixpoint lstrip (s : string) : string :=
  match s with
  | String a s' => if is_space a then lstrip s' else s
  | EmptyString => EmptyString
  end.

Definition strip (s : string) : string :=
  String.rev (lstrip (String.rev (lstrip s))).

(** [digits acc prev_digit s]: the value of a digit string continuing
    [acc]; an underscore must stand between two digits. *)
Fixpoint digits (acc : Z) (prev_digit : bool) (s : string) : option Z :=
  match s with
  | EmptyString => if prev_digit then Some acc else None
  | String a s' =>
    match digit_value a with
    | Some d => digits (10 * acc + d) true s'
    | None =>
      if Ascii.eqb a "_"%char && prev_digit
      then match s' with
           | EmptyString => None
           | String b _ =>
             match digit_value b with
             | Some _ => digits acc false s'
             | None => None
             end
           end
      else None
    end
  end.

(** [int(s)]; [None] stands for [ValueError]. *)
Definition int (s : string) : option Z :=
  match strip s with
  | String "-"%char s' => Z.opp <$> digits 0 false s'
  | String "+"%char s' => digits 0 false s'
  | s' => digits 0 false s'
  end.

(** ** [pathlib.PurePosixPath]

    A path object is represented by its string form [str(Path(s))]. *)

(** The parts below the root: empty components and [.] are dropped. *)
Definition path_parts (s : string) : list string :=
  List.filter (fun x => negb (String.eqb x "") && negb (String.eqb x "."))
              (split "/"%char s).

(** The root: [/], or [//] for exactly two leading slashes. *)
Definition path_root (s : string) : string :=
  if startswith s "/" then
    if startswith s "//" && negb (startswith s "///") then "//" else "/"
  else "".

(** [str(Path(s))] *)
Definition Path (s : string) : string :=
  match path_root s, path_parts s with
  | EmptyString, [] => "."
  | r, ps => r +:+ join "/" ps
  end.

(** [Path(s).name] *)
Definition Path_name (s : string) : string := List.last (path_parts s) "".

(** [os.path.join(a, b)] *)
Definition os_path_join (a b : string) : string :=
  if startswith b "/" then b
  else if String.eqb a "" || endswith a "/" then a +:+ b
  else a +:+ "/" +:+ b.

(** [str(Path(a) / b)] *)
Definition Path_div (a b : string) : string := Path (os_path_join (Path a) b).

(** [p.relative_to(base)] as a string; [None] stands for [ValueError]. *)
Fixpoint strip_parts (base p : list string) : option (list string) :=
  match base, p with
  | [], _ => Some p
  | b :: base', x :: p' => if String.eqb b x then strip_parts base' p' else None
  | _ :: _, [] => None
  end.

Definition relative_to (p base : string) : option string :=
  if String.eqb (path_root p) (path_root base) then
    match strip_parts (path_parts base) (path_parts p) with
    | Some [] => Some "."
    | Some rest => Some (join "/" rest)
    | None => None
    end
  else None.

(** [fnmatch.fnmatch(name, pat)] for patterns made of literal characters,
    [?] and [*]; [fuel] bounds the number of steps. *)
Fixpoint fnmatch_go (fuel : nat) (name pat : string) : bool :=
  match fuel with
  | O => false
  | S fuel' =>
    match pat, name with
    | EmptyString, EmptyString => true
    | EmptyString, String _ _ => false
    | String "*"%char pat', EmptyString => fnmatch_go fuel' name pat'
    | String "*"%char pat', String _ name' =>
      fnmatch_go fuel' name pat' || fnmatch_go fuel' name' pat
    | String "?"%char pat', String _ name' => fnmatch_go fuel' name' pat'
    | String c pat', String d name' =>
      Ascii.eqb c d && fnmatch_go fuel' name' pat'
    | String _ _, EmptyString => false
    end
  end.

Definition fnmatch (name pat : string) : bool :=
  fnmatch_go (S (String.length name + String.length pat)) name pat.

End Py.

(* ===================================================================== *)
(** * IgnoreFilter: [is_ignored]                                          *)
(* ===================================================================== *)

Definition IGNORED_PATTERNS : list string :=
  [ "target/"; "build/"; "build_objects/"; "keos_kernel"; "ffs.bin"; "sfs.bin";
    ".o"; "kelibc.a"; ".cargo/template/"; "Cargo.lock" ].

Definition ROOTFS_EXCEPTIONS : list string :=
  [ "hello"; "os-release"; "simple_fs.tar" ].

(** The loop over [ROOTFS_EXCEPTIONS]; [true] when it reaches
    [return False], that is when [file_name] is one of the kept files. *)
Fixpoint rootfs_exception_loop (file_name : string) (exceptions : list string)
  : bool :=
  match exceptions with
  | [] => false
  | exception :: rest =>
    if String.eqb exception "hello" && Py.startswith file_name "hello" then true
    else if String.eqb exception file_name then true
    else rootfs_exception_loop file_name rest
  end.

(** The loop over [IGNORED_PATTERNS]; [true] when it reaches [return True]. *)
Fixpoint ignored_pattern_loop (path_str : string) (patterns : list string)
  : bool :=
  match patterns with
  | [] => false
  | pattern :: rest =>
    if Py.endswith pattern "/" then
      if Py.contains ("/" +:+ Py.drop_last pattern +:+ "/") path_str
         || Py.endswith path_str ("/" +:+ Py.drop_last pattern)
      then true
      else ignored_pattern_loop path_str rest
    else if Py.contains "*" pattern then
      if Py.fnmatch (Py.Path_name path_str) pattern then true
      else ignored_pattern_loop path_str rest
    else
      if Py.contains pattern path_str then true
      else ignored_pattern_loop path_str rest
  end.

Definition is_ignored (path_str : string) : bool :=
  if Py.contains "/rootfs/" path_str || Py.endswith path_str "/rootfs" then
    if Py.endswith path_str "/rootfs" then true
    else
      let file_name := Py.Path_name path_str in
      if rootfs_exception_loop file_name ROOTFS_EXCEPTIONS then false
      else true
  else ignored_pattern_loop path_str IGNORED_PATTERNS.


(* ===================================================================== *)
(** * Effects: outcomes and the event log                                 *)
(* ===================================================================== *)

(** A JSON number as Python reads it. *)
Inductive num :=
| PyInt (z : Z)
| PyFloat (f : float).

(** The exceptions the modelled code can meet. [TimeoutExpired] carries
    what had been captured when the deadline passed. *)
Inductive exn :=
| ZeroDivisionError
| OverflowError
| ValueError
| KeyError (k : string)
| IsADirectoryError
| UnicodeDecodeError
| OSError (msg : string)
| TimeoutExpired (captured : string).

Inductive outcome (A : Type) :=
| Returned (a : A)
| Raised (e : exn)
| Exited (code : Z).
Arguments Returned {A} a.
Arguments Raised {A} e.
Arguments Exited {A} code.

Inductive event :=
| Print (s : string)
| PrintEnd (s : string)
| PrintExn (e : exn)
| StdoutWrite (b : string)
| WriteBootConfig (kernel_arg : string)
| Launch (argv : list string) (timeout : option float)
| Copy2 (src dst : string)
| PrintRubric (rname : string) (this_score : float) (rmaxscore : num)
              (o : string)
| PrintTotal (score : float) (max_score : num).

(** A computation: its outcome and the events it produced, oldest first. *)
Definition M (A : Type) : Type := outcome A * list event.

#[global] Instance M_ret : MRet M := fun A a => (Returned a, []).

#[global] Instance M_bind : MBind M := fun A B f m =>
  match m with
  | (Returned a, l1) => let '(r, l2) := f a in (r, l1 ++ l2)
  | (Raised e, l1) => (Raised e, l1)
  | (Exited c, l1) => (Exited c, l1)
  end.

Definition emit (e : event) : M unit := (Returned tt, [e]).
Definition raise {A} (e : exn) : M A := (Raised e, []).
Definition sys_exit {A} (code : Z) : M A := (Exited code, []).

(** [try: m except Exception as e: handler e]; [sys.exit] passes through. *)
Definition try_except {A} (m : M A) (handler : exn -> M A) : M A :=
  match m with
  | (Raised e, l1) => let '(r, l2) := handler e in (r, l1 ++ l2)
  | other => other
  end.

Definition NL : string := String "010"%char "".

(** [range(a, b)] *)
Definition range (a b : Z) : list Z :=
  List.map (fun i => a + Z.of_nat i) (List.seq 0 (Z.to_nat (b - a))).

(** ** Dictionaries in insertion order *)

Section Dict.
Context {K V : Type} (eqb : K -> K -> bool).

Fixpoint dict_get (d : list (K * V)) (k : K) : option V :=
  match d with
  | [] => None
  | (k', v) :: d' => if eqb k' k then Some v else dict_get d' k
  end.

(** [d[k] = v]: an existing key keeps its place. *)
Fixpoint dict_set (d : list (K * V)) (k : K) (v : V) : list (K * V) :=
  match d with
  | [] => [(k, v)]
  | (k', v') :: d' =>
    if eqb k' k then (k', v) :: d' else (k', v') :: dict_set d' k v
  end.

End Dict.

(* ===================================================================== *)
(** * WhitelistResolver                                                   *)
(* ===================================================================== *)

(** What [keos-project<N>/grader/.grade-target] holds: nothing (the file
    is missing), text that is not JSON, or a configuration with or
    without a ["whitelist"] entry. *)
Inductive grade_target :=
| TargetMissing
| TargetUnparsable
| TargetConfig (whitelist : option (list string)).

Definition get_project_whitelist (targets : Z -> grade_target)
    (project_num : Z) : list string :=
  match targets project_num with
  | TargetMissing => []
  | TargetUnparsable => []
  | TargetConfig None => []
  | TargetConfig (Some l) => l
  end.

(** The body of the loop of [build_cumulative_whitelist], on the pair
    [(cumulative_whitelist, project_details)]. *)
Definition whitelist_step (targets : Z -> grade_target)
    (acc : gset string * list (Z * list string)) (project_num : Z)
  : gset string * list (Z * list string) :=
  let project_whitelist := get_project_whitelist targets project_num in
  match project_whitelist with
  | [] => acc
  | _ => (acc.1 ∪ list_to_set project_whitelist,
          dict_set Z.eqb acc.2 project_num project_whitelist)
  end.

(** The loop run over any sequence of project numbers. *)
Definition whitelist_loop (targets : Z -> grade_target) (nums : list Z)
  : gset string * list (Z * list string) :=
  List.fold_left (whitelist_step targets) nums (∅, []).

Definition build_cumulative_whitelist (targets : Z -> grade_target)
    (current_project_num : Z) : list string * list (Z * list string) :=
  let r := whitelist_loop targets (range 1 (current_project_num + 1)) in
  (elements r.1, r.2).

(* ===================================================================== *)
(** * IntegrityScanner                                                    *)
(* ===================================================================== *)

(** A directory entry: a file with the SHA-256 digest of its content
    ([None] when it cannot be opened), or a directory with its entries in
    the order [os.scandir] lists them. *)
#[warnings="-register-all"]
Inductive entry :=
| File (name : string) (digest : option string)
| Dir (name : string) (children : list entry).

(** The part of the environment the scanner reads. *)
Record fs := {
  repo_root : string;              (* get_repository_root() *)
  original_dir : string;           (* Path('../../.cargo/template').resolve() *)
  fs_lookup : string -> option entry;  (* what a path names, if anything *)
  copy2_error : string -> string -> option string
                                   (* the message shutil.copy2 fails with *)
}.

Record violation := {
  file_path : string;
  rel_path : string;
  original_file : string
}.

(** [get_file_hash(original_file)] *)
Definition get_file_hash (w : fs) (path : string) : M (option string) :=
  match fs_lookup w path with
  | None => mret None
  | Some (File _ digest) => mret digest
  | Some (Dir _ _) => raise IsADirectoryError
  end.

(** The loop over [range(1, current_project_num + 1)] that decides
    [is_whitelisted]. *)
Fixpoint whitelisted_loop (project_rel_path : string)
    (cumulative_whitelist : list string) (nums : list Z) : bool :=
  match nums with
  | [] => false
  | project_num :: rest =>
    let project_prefix := "keos-project" +:+ Py.str_of_int project_num +:+ "/" in
    if Py.startswith project_rel_path project_prefix then
      let file_in_project := Py.replace project_rel_path project_prefix "" in
      if bool_decide (file_in_project ∈ cumulative_whitelist) then true
      else whitelisted_loop project_rel_path cumulative_whitelist rest
    else whitelisted_loop project_rel_path cumulative_whitelist rest
  end.

Section Scan.
Variable w : fs.
Variable directory_name : string.
Variable cumulative_whitelist : list string.
Variable current_project_num : Z.

Definition check_dir : string := Py.Path_div (repo_root w) directory_name.

(** Whether [os.walk] descends into the directory [d] of [root]. *)
Definition keep_dir (root d : string) : bool :=
  if String.eqb directory_name "keos-projects" && (0 <? current_project_num)
  then
    if is_ignored (Py.Path_div root d) then false
    else if Py.startswith d "keos-project" then
      match Py.int (Py.replace d "keos-project" "") with
      | Some project_num => project_num <=? current_project_num
      | None => false
      end
    else true
  else negb (is_ignored (Py.Path_div root d)).

(** The body of [for file in files]: the violation the file adds, if any. *)
Definition scan_file (root file : string) (digest : option string)
  : M (option violation) :=
  let file_path := Py.Path_div root file in
  if negb (is_ignored file_path) then
    match Py.relative_to file_path check_dir with
    | None => raise ValueError
    | Some rel_path =>
      let is_whitelisted :=
        if String.eqb directory_name "keos-projects"
        then whitelisted_loop rel_path cumulative_whitelist
               (range 1 (current_project_num + 1))
        else false in
      if is_whitelisted then mret None
      else
        let original_file :=
          Py.Path_div (Py.Path_div (original_dir w) directory_name) rel_path in
        match fs_lookup w original_file with
        | None => mret None
        | Some _ =>
          let current_hash := digest in
          original_hash ← get_file_hash w original_file;
          if bool_decide (current_hash ≠ original_hash)
          then mret (Some {| file_path := file_path;
                             rel_path := rel_path;
                             original_file := original_file |})
          else mret None
        end
    end
  else mret None.

(** [for file in files] over the files of one directory. *)
Fixpoint scan_files (root : string) (entries : list entry)
  : M (list violation) :=
  match entries with
  | [] => mret []
  | File file digest :: rest =>
    v ← scan_file root file digest;
    vs ← scan_files root rest;
    mret (option_list v ++ vs)
  | Dir _ _ :: rest => scan_files root rest
  end.

(** [os.walk] from the directory [e], named [root]: the files of [root]
    first, then the directories that were kept, each in turn. *)
Fixpoint walk (root : string) (e : entry) {struct e} : M (list violation) :=
  match e with
  | File _ _ => mret []
  | Dir _ children =>
    here ← scan_files root children;
    below ← (fix walk_dirs (l : list entry) : M (list violation) :=
               match l with
               | [] => mret []
               | sub :: rest =>
                 match sub with
                 | File _ _ => walk_dirs rest
                 | Dir d _ =>
                   if keep_dir root d then
                     vs ← walk (Py.os_path_join root d) sub;
                     ws ← walk_dirs rest;
                     mret (vs ++ ws)
                   else walk_dirs rest
                 end
               end) children;
    mret (here ++ below)
  end.

(** The violations of the scan, before they are reported. *)
Definition scan : M (list violation) :=
  match fs_lookup w check_dir with
  | None => mret []
  | Some e => walk check_dir e
  end.

(** [for violation in violations] of the reporting part. *)
Fixpoint handle_violations (mode : string) (violations : list violation)
  : M unit :=
  match violations with
  | [] => mret tt
  | violation :: rest =>
    (if String.eqb mode "warn" then
       emit (Print ("  " +:+ rel_path violation +:+ " (MODIFIED)"))
     else if String.eqb mode "override" then
       match copy2_error w (original_file violation) (file_path violation) with
       | None =>
         emit (Copy2 (original_file violation) (file_path violation));;
         emit (Print ("  RESTORED: " +:+ rel_path violation +:+ " (restored)"))
       | Some e =>
         emit (Print ("  ERROR: " +:+ rel_path violation
                      +:+ " (restore failed: " +:+ e +:+ ")"));;
         emit (Print "ERROR: File restoration failed. Aborting.");;
         sys_exit 1
       end
     else mret tt);;
    handle_violations mode rest
  end.

(** The block that reports the violations found. *)
Definition report_violations (mode : string) (violations : list violation)
  : M unit :=
  match violations with
  | [] => mret tt
  | _ =>
    emit (Print (NL +:+ directory_name +:+ "/ - "
                 +:+ Py.str_of_int (Z.of_nat (List.length violations))
                 +:+ " violation(s):"));;
    handle_violations mode violations
  end.

Definition check_directory_integrity (mode : string) : M (list string) :=
  match fs_lookup w check_dir with
  | None => mret []
  | Some e =>
    violations ← walk check_dir e;
    report_violations mode violations;;
    mret (List.map rel_path violations)
  end.

End Scan.

(* ===================================================================== *)
(** * ProcessSupervisor                                                   *)
(* ===================================================================== *)

(** [float(z)] for an [int]: the nearest double, [OverflowError] when
    that is out of range. *)
Definition float_of_int (z : Z) : outcome float :=
  let f := SF2Prim (binary_normalize prec emax z 0 false) in
  if PrimFloat.is_infinity f then Raised OverflowError else Returned f.

(** [float(x)] for a JSON number. *)
Definition float_of_num (x : num) : outcome float :=
  match x with
  | PyInt z => float_of_int z
  | PyFloat f => Returned f
  end.

Definition lift {A} (o : outcome A) : M A := (o, []).

(** ** UTF-8 *)

Definition byte_in (lo hi : nat) (a : ascii) : bool :=
  let n := nat_of_ascii a in ((lo <=? n) && (n <=? hi))%nat.

(** Well-formed UTF-8 byte sequences (Unicode, table 3-7). *)
Fixpoint utf8_valid_go (fuel : nat) (s : string) : bool :=
  match fuel with
  | O => false
  | S fuel' =>
    match s with
    | EmptyString => true
    | String a r1 =>
      if byte_in 0 127 a then utf8_valid_go fuel' r1
      else
        match r1 with
        | EmptyString => false
        | String b r2 =>
          if byte_in 194 223 a then byte_in 128 191 b && utf8_valid_go fuel' r2
          else
            match r2 with
            | EmptyString => false
            | String c r3 =>
              if byte_in 224 239 a then
                (if byte_in 224 224 a then byte_in 160 191 b
                 else if byte_in 237 237 a then byte_in 128 159 b
                 else byte_in 128 191 b)
                && byte_in 128 191 c && utf8_valid_go fuel' r3
              else
                match r3 with
                | EmptyString => false
                | String d r4 =>
                  byte_in 240 244 a
                  && (if byte_in 240 240 a then byte_in 144 191 b
                      else if byte_in 244 244 a then byte_in 128 143 b
                      else byte_in 128 191 b)
                  && byte_in 128 191 c && byte_in 128 191 d
                  && utf8_valid_go fuel' r4
                end
            end
        end
    end
  end.

Definition utf8_valid (s : string) : bool :=
  utf8_valid_go (S (String.length s)) s.

(** [b.decode('utf-8')] *)
Definition decode_utf8 (b : string) : M string :=
  if utf8_valid b then mret b else raise UnicodeDecodeError.

(** What [text=True] does to captured bytes: decoding, then universal
    newlines. *)
Definition decode_text (b : string) : M string :=
  s ← decode_utf8 b;
  mret (Py.replace (Py.replace s (String "013"%char NL) NL)
                   (String "013"%char "") NL).

(** A launched process, as far as the harness can observe it. *)
Record process := {
  launch_error : option exn;   (* raised by Popen / subprocess.run at launch *)
  live_reads : list string;    (* what readline() returns, one entry for each
                                  turn of the loop in which poll() is None *)
  duration : float;            (* seconds until it ends by itself *)
  stdout_bytes : string;       (* what it writes to its standard output *)
  stderr_bytes : string;
  returncode : Z
}.

(** The processes of the environment: what a command does when it is
    started under the boot configuration written last. *)
Definition world : Type := string -> list string -> process.

Record completed := {
  cp_stdout : string;
  cp_stderr : string;
  cp_returncode : Z
}.

(** [subprocess.run(argv, stdin=DEVNULL, capture_output=True, text=True,
    timeout=timeout)] *)
Definition subprocess_run (w : world) (kernel_arg : string)
    (argv : list string) (timeout : float) : M completed :=
  emit (Launch argv (Some timeout));;
  let p := w kernel_arg argv in
  match launch_error p with
  | Some e => raise e
  | None =>
    if PrimFloat.ltb timeout (duration p)
    then raise (TimeoutExpired (stdout_bytes p))
    else
      out ← decode_text (stdout_bytes p);
      err ← decode_text (stderr_bytes p);
      mret {| cp_stdout := out; cp_stderr := err;
              cp_returncode := returncode p |}
  end.

Definition CLEAR_SCREEN : string := String "027"%char "c".

(** What successive [readline()] calls on a pipe return for the bytes
    [stream]: each line with its line end, and a last piece without one
    when the stream does not end with a line end. *)
Fixpoint read_lines (stream : string) : list string :=
  match stream with
  | EmptyString => []
  | String c rest =>
    if Ascii.eqb c "010"%char then String c "" :: read_lines rest
    else match read_lines rest with
         | line :: lines => String c line :: lines
         | [] => [String c ""]
         end
  end.

(** The [while p.poll() == None] loop of live mode, over the lines read. *)
Fixpoint live_loop (reads : list string) (output : string) : M string :=
  match reads with
  | [] => mret output
  | out :: rest =>
    if Py.contains CLEAR_SCREEN out then live_loop rest ""
    else
      emit (StdoutWrite out);;
      live_loop rest (output +:+ out)
  end.

Definition emulator_argv (run_command : list string) (cpu : Z) (mem : string)
  : list string :=
  run_command ++ ["-smp"; Py.str_of_int cpu; "-m"; mem].

(** [setup_kernel_arguments(kernel_arg)] writes [grub.cfg] with the
    kernel argument and has [grub-mkrescue] rebuild the boot image. Only
    the write is modelled, as an event: the directory, the file and the
    [grub-mkrescue] program are taken to be available, so the failures of
    [os.makedirs], [open] and [subprocess.run], which no handler catches,
    are outside the model. *)
Definition setup_kernel_arguments (kernel_arg : string) : M unit :=
  emit (WriteBootConfig kernel_arg).

Definition grade_single (w : world) (run_command : list string)
    (target : string) (cpu : Z) (mem : string) (timeout : num) (live : bool)
  : M string :=
  let kernel_arg := "--quite " +:+ target in
  setup_kernel_arguments kernel_arg;;
  try_except
    (if live then
       emit (Launch (emulator_argv run_command cpu mem) None);;
       let p := w kernel_arg (emulator_argv run_command cpu mem) in
       match launch_error p with
       | Some e => raise e
       | None =>
         output ← live_loop (live_reads p) "";
         emit (Print "---------");;
         decode_utf8 output
       end
     else
       t ← lift (float_of_num timeout);
       r ← subprocess_run w kernel_arg (emulator_argv run_command cpu mem) t;
       mret (cp_stdout r))
    (fun e => emit (PrintExn e);; mret "timeout").

(* ===================================================================== *)
(** * GradingEngine                                                       *)
(* ===================================================================== *)

(** The value of ["post-hook"]: a list of strings, or something else. *)
Inductive hook :=
| HookList (argv : list string)
| HookOther.

Record test_conf := {
  conf_timeout : option num;
  conf_mem : option string;
  conf_cpu : option Z;
  conf_post_hook : option hook
}.

Record rubric := {
  score : num;
  tests : list (string * test_conf)
}.

Definition SUCCESS_MARKER : string := "test result: ok. 1 passed; 0 failed".

Definition test_result : Type := bool * string.
Definition rubric_result : Type := list (string * test_result).
Definition grading_result : Type := list (string * rubric_result).

(** The secondary validation of one test: the new [(passed, output)]. *)
Definition run_post_hook (w : world) (name : string) (argv : list string)
    (timeout : num) (output : string) : M test_result :=
  try_except
    (t ← lift (float_of_num timeout);
     posthook_result ← subprocess_run w ("--quite " +:+ name) argv t;
     let passed := cp_returncode posthook_result =? 0 in
     if negb passed then
       mret (passed,
             output +:+ NL +:+ "POST-HOOK [`" +:+ Py.join " " argv
                    +:+ "`] Failed: " +:+ cp_stderr posthook_result)
     else mret (passed, output))
    (fun _ => mret (false, output)).

(** From the primary verdict [passed] to the final one: the secondary
    validation runs when [passed] holds and ["post-hook"] is a list. *)
Definition classify (w : world) (name : string) (conf : test_conf)
    (timeout : num) (passed : bool) (output : string) : M test_result :=
  match passed, conf_post_hook conf with
  | true, Some (HookList argv) => run_post_hook w name argv timeout output
  | _, _ => mret (passed, output)
  end.

(** [filt is not None and name not in filt and filt != []] *)
Definition filtered_out (filt : option (list string)) (name : string) : bool :=
  match filt with
  | None => false
  | Some f =>
    negb (bool_decide (name ∈ f)) && negb (bool_decide (f = []))
  end.

Definition is_Some_b {A} (o : option A) : bool :=
  match o with Some _ => true | None => false end.

(** The body of the loop over the tests of a rubric, for a test that is
    not filtered out: [None] when grading is abandoned ([return]),
    otherwise the test's [(passed, output)]. *)
Definition grade_test (w : world) (run_command : list string)
    (filt : option (list string)) (name : string) (conf : test_conf)
  : M (option test_result) :=
  let timeout := default (PyInt 30) (conf_timeout conf) in
  let mem := default "512M" (conf_mem conf) in
  let cpu := default 4 (conf_cpu conf) in
  (if negb (is_Some_b filt)
   then emit (PrintEnd ("Running test: " +:+ name +:+ " ... "))
   else mret tt);;
  output ← grade_single w run_command name cpu mem timeout (is_Some_b filt);
  let passed := Py.contains SUCCESS_MARKER output in
  if is_Some_b filt && Py.contains "panic" output then mret None
  else
    classify w name conf timeout passed output ≫= fun r : test_result =>
    (if negb (is_Some_b filt)
     then emit (Print (if r.1 then "ok" else "fail"))
     else mret tt);;
    mret (Some r).

(** [grading_result[rname][name] = v] *)
Definition result_set (g : grading_result) (rname name : string)
    (v : test_result) : grading_result :=
  dict_set String.eqb g rname
    (dict_set String.eqb (default [] (dict_get String.eqb g rname)) name v).

(** [for name, conf in rubric['tests'].items()] *)
Fixpoint grade_tests (w : world) (run_command : list string)
    (filt : option (list string)) (rname : string)
    (ts : list (string * test_conf)) (g : grading_result) (tpassed : Z)
  : M (option (grading_result * Z)) :=
  match ts with
  | [] => mret (Some (g, tpassed))
  | (name, conf) :: rest =>
    if filtered_out filt name
    then grade_tests w run_command filt rname rest g tpassed
    else
      r ← grade_test w run_command filt name conf;
      match r with
      | None => mret None
      | Some (passed, output) =>
        grade_tests w run_command filt rname rest
          (result_set g rname name (passed, output))
          (tpassed + Z.b2z passed)
      end
  end.

(** [for rname, rubric in rubrics.items()] *)
Fixpoint grade_rubrics (w : world) (run_command : list string)
    (filt : option (list string)) (rs : list (string * rubric))
    (g : grading_result) (tpassed : Z) : M (option grading_result) :=
  match rs with
  | [] => mret (Some g)
  | (rname, rubric) :: rest =>
    r ← grade_tests w run_command filt rname (tests rubric)
          (dict_set String.eqb g rname []) tpassed;
    match r with
    | None => mret None
    | Some (g', tpassed') => grade_rubrics w run_command filt rest g' tpassed'
    end
  end.

(** [grade(pj, run_command, rubrics, filt)]; [None] is the bare [return]. *)
Definition grade (w : world) (pj : Z) (run_command : list string)
    (rubrics : list (string * rubric)) (filt : option (list string))
  : M (option grading_result) :=
  (if negb (is_Some_b filt)
   then emit (Print ("Start Grading keos-project" +:+ Py.str_of_int pj +:+ ":"))
   else mret tt);;
  grade_rubrics w run_command filt rubrics [] 0.

(* ===================================================================== *)
(** * ScoreAggregator                                                     *)
(* ===================================================================== *)

(** [string.printable] *)
Definition is_printable (a : ascii) : bool :=
  let n := nat_of_ascii a in
  ((32 <=? n) && (n <=? 126) || (9 <=? n) && (n <=? 13))%nat.

Fixpoint strip_unprintable (s : string) : string :=
  match s with
  | EmptyString => EmptyString
  | String c s' =>
    if is_printable c then String c (strip_unprintable s')
    else strip_unprintable s'
  end.

(** [a + b] on numbers. *)
Definition num_add (a b : num) : outcome num :=
  match a, b with
  | PyInt x, PyInt y => Returned (PyInt (x + y))
  | PyInt x, PyFloat g =>
    match float_of_int x with
    | Returned f => Returned (PyFloat (PrimFloat.add f g))
    | Raised e => Raised e
    | Exited c => Exited c
    end
  | PyFloat f, PyInt y =>
    match float_of_int y with
    | Returned g => Returned (PyFloat (PrimFloat.add f g))
    | Raised e => Raised e
    | Exited c => Exited c
    end
  | PyFloat f, PyFloat g => Returned (PyFloat (PrimFloat.add f g))
  end.

(** [n / d] for an [int] and a [float]. *)
Definition int_truediv_float (n : Z) (d : float) : M float :=
  f ← lift (float_of_int n);
  if PrimFloat.eqb d 0%float then raise ZeroDivisionError
  else mret (PrimFloat.div f d).

(** [f * x] for a [float] and a number. *)
Definition float_mul_num (f : float) (x : num) : M float :=
  g ← lift (float_of_num x);
  mret (PrimFloat.mul f g).

(** What the loop of [summarize] carries from rubric to rubric. *)
Record tally := {
  failed : list (string * string);
  max_score : num;
  total_score : float;
  n_tests : Z;
  n_passed : Z
}.

(** What the loop over the tests of one rubric leaves behind. *)
Record rubric_tally := {
  rt_o : list string;
  rt_rscore : Z;
  rt_failed : list (string * string);
  rt_tests : Z;
  rt_passed : Z
}.

(** [for name, (result, output) in rubric.items()] *)
Fixpoint summarize_tests (r : rubric_result) (a : rubric_tally)
  : rubric_tally :=
  match r with
  | [] => a
  | (name, (result, output)) :: rest =>
    summarize_tests rest
      {| rt_o := rt_o a ++ ["- " +:+ (if result then "pass" else "fail")
                            +:+ ": " +:+ name];
         rt_rscore := rt_rscore a + Z.b2z result;
         rt_failed := if negb result
                      then dict_set String.eqb (rt_failed a) name output
                      else rt_failed a;
         rt_tests := rt_tests a + 1;
         rt_passed := rt_passed a + Z.b2z result |}
  end.

(** [for rname, rubric in grading_result.items()] *)
Fixpoint summarize_rubrics (rubrics : list (string * rubric))
    (g : grading_result) (t : tally) : M tally :=
  match g with
  | [] => mret t
  | (rname, rubric) :: rest =>
    match dict_get String.eqb rubrics rname with
    | None => raise (KeyError rname)
    | Some rb =>
      let rmaxscore := score rb in
      max_score' ← lift (num_add (max_score t) rmaxscore);
      let a := summarize_tests rubric
                 {| rt_o := []; rt_rscore := 0; rt_failed := failed t;
                    rt_tests := n_tests t; rt_passed := n_passed t |} in
      len ← lift (float_of_int (Z.of_nat (List.length rubric)));
      q ← int_truediv_float (rt_rscore a) len;
      this_score ← float_mul_num q rmaxscore;
      emit (PrintRubric rname this_score rmaxscore (Py.join NL (rt_o a)));;
      emit (Print "----------------");;
      summarize_rubrics rubrics rest
        {| failed := rt_failed a; max_score := max_score';
           total_score := PrimFloat.add (total_score t) this_score;
           n_tests := rt_tests a; n_passed := rt_passed a |}
    end
  end.

(** The banner, with the bytes the source file has before its text. *)
Definition PERFECT : string :=
  String "195" (String "176" (String "197" (String "184" (String "197"
    (String "189" (String "226" (String "128" (String "176"
      " ALL TEST PASSED -- PERFECT SCORE")))))))).

Fixpoint print_failed (fl : list (string * string)) : M unit :=
  match fl with
  | [] => mret tt
  | (test, output) :: rest =>
    emit (Print ("TEST `" +:+ test +:+ "`: " +:+ strip_unprintable output));;
    print_failed rest
  end.

Definition summarize (pj : Z) (rubrics : list (string * rubric))
    (g : grading_result) : M unit :=
  emit (Print "----------------");;
  emit (Print ("Test Summary of `keos-project" +:+ Py.str_of_int pj +:+ "`:"));;
  t ← summarize_rubrics rubrics g
        {| failed := []; max_score := PyInt 0; total_score := 0%float;
           n_tests := 0; n_passed := 0 |};
  emit (Print ("TEST SUMMARY: " +:+ Py.str_of_int (n_passed t) +:+ " of "
               +:+ Py.str_of_int (n_tests t) +:+ " passed"));;
  emit (PrintTotal (total_score t) (max_score t));;
  (if n_passed t =? n_tests t then emit (Print PERFECT) else mret tt);;
  (if (0 <? Z.of_nat (List.length (failed t)))
   then emit (Print "----------------");; print_failed (failed t)
   else mret tt).

(* ===================================================================== *)
(** * Vocabulary of the properties                                        *)
(* ===================================================================== *)

(** ** What the rules of [is_ignored] mean *)

(** The patterns of [IGNORED_PATTERNS] that name a directory, without the
    final slash, and the other ones. *)
Definition IGNORED_DIRS : list string :=
  List.map Py.drop_last
           (List.filter (fun p => Py.endswith p "/") IGNORED_PATTERNS).

Definition IGNORED_NAMES : list string :=
  List.filter (fun p => negb (Py.endswith p "/")) IGNORED_PATTERNS.

(** The components of [d] are consecutive components of [p], and not the
    first ones: a slash stands before them. *)
Definition occurs_as_segments (d p : string) : Prop :=
  exists pre post,
    pre <> [] /\ Py.split "/" p = pre ++ Py.split "/" d ++ post.

Definition substring_of (n p : string) : Prop :=
  exists a b, p = a +:+ n +:+ b.

Definition suffix_of (n p : string) : Prop :=
  exists a, p = a +:+ n.

(** The file names kept inside [rootfs]. *)
Definition kept_in_rootfs (name : string) : Prop :=
  (exists t, name = "hello" +:+ t) \/ name = "os-release"
  \/ name = "simple_fs.tar".

(** What it takes for one pattern of the list to match. *)
Definition pattern_matches (p pat : string) : Prop :=
  if Py.endswith pat "/" then occurs_as_segments (Py.drop_last pat) p
  else if Py.contains "*" pat then Py.fnmatch (Py.Path_name p) pat = true
  else substring_of pat p.

(** The filter read as a rule on directory components and on the final
    file name only: inside [rootfs], a directory name as a component, or
    a file name that ends with one of the other patterns. *)
Definition ignored_by_name_rules (p : string) : Prop :=
  occurs_as_segments "rootfs" p
  \/ (exists d, d ∈ IGNORED_DIRS /\ occurs_as_segments d p)
  \/ (exists n, n ∈ IGNORED_NAMES /\ suffix_of n (Py.Path_name p)).

(** ** Computations *)

(** [m] produces no event, and what it returns satisfies [P]. *)
Definition quiet {A} (m : M A) (P : A -> Prop) : Prop :=
  m.2 = [] /\ forall a, m.1 = Returned a -> P a.

(** [m] does not end the process. *)
Definition no_exit {A} (m : M A) : Prop := forall c, m.1 <> Exited c.

(** The process launches among the events of a log. *)
Definition is_launch (e : event) : bool :=
  match e with Launch _ _ => true | _ => false end.

Definition launches (log : list event) : list event :=
  List.filter is_launch log.

(** The writes to the console of the caller among the events of a log. *)
Definition is_write (e : event) : bool :=
  match e with StdoutWrite _ => true | _ => false end.

(** ** The scanner *)

(** What holds of every violation the scan records. *)
Definition recorded (w : fs) (directory_name : string) (v : violation)
  : Prop :=
  is_ignored (file_path v) = false
  /\ Py.relative_to (file_path v) (check_dir w directory_name)
     = Some (rel_path v)
  /\ original_file v
     = Py.Path_div (Py.Path_div (original_dir w) directory_name) (rel_path v)
  /\ fs_lookup w (original_file v) <> None.

(** ** Live capture *)

Definition has_clear (out : string) : bool := Py.contains CLEAR_SCREEN out.

(** What the buffer holds after the lines [reads], starting from [output]. *)
Definition live_buffer (reads : list string) (output : string) : string :=
  List.fold_left (fun acc out => if has_clear out then "" else acc +:+ out)
                 reads output.

(** ** Grading one test *)

(** The progress line printed before a test runs in batch mode, and the
    verdict printed after it. *)
Definition progress_line (filt : option (list string)) (name : string)
  : list event :=
  if is_Some_b filt then []
  else [PrintEnd ("Running test: " +:+ name +:+ " ... ")].

Definition verdict_line (filt : option (list string)) (passed : bool)
  : list event :=
  if is_Some_b filt then [] else [Print (if passed then "ok" else "fail")].

(* ===================================================================== *)
(** * Sample environments                                                 *)
(* ===================================================================== *)

(** Every process ends at once, silently, with status zero. *)
Definition quiet_world : world := fun _ _ =>
  {| launch_error := None; live_reads := []; duration := 1%float;
     stdout_bytes := ""; stderr_bytes := ""; returncode := 0 |}.

(** What the process of [live_world] writes: [line1], the clear-screen
    sequence, [line2]. *)
Definition live_stream : string :=
  "line1" +:+ NL +:+ CLEAR_SCREEN +:+ "line2" +:+ NL.

(** A process that writes [live_stream] and is read live, line by line:
    the clear-screen sequence, which ends no line, is read together with
    [line2]. *)
Definition live_world : world := fun _ _ =>
  {| launch_error := None;
     live_reads := read_lines live_stream;
     duration := 1%float; stdout_bytes := live_stream; stderr_bytes := "";
     returncode := 0 |}.

(** Test [t1] reports one test passed, every other test one test failed. *)
Definition two_tests_world : world := fun kernel_arg _ =>
  {| launch_error := None; live_reads := []; duration := 1%float;
     stdout_bytes :=
       if String.eqb kernel_arg "--quite t1"
       then "test result: ok. 1 passed; 0 failed"
       else "test result: ok. 0 passed; 1 failed";
     stderr_bytes := ""; returncode := 0 |}.

Definition no_conf : test_conf :=
  {| conf_timeout := None; conf_mem := None; conf_cpu := None;
     conf_post_hook := None |}.

Definition core_rubrics : list (string * rubric) :=
  [("core", {| score := PyInt 10;
               tests := [("t1", no_conf); ("t2", no_conf)] |})].

(** Every process needs sixty seconds and has written [partial] by the
    time it is stopped. *)
Definition slow_world : world := fun _ _ =>
  {| launch_error := None; live_reads := []; duration := 60%float;
     stdout_bytes := "partial"; stderr_bytes := ""; returncode := 0 |}.

(** The emulator reports success; the command [check] exits with 1. *)
Definition hook_world : world := fun _ argv =>
  {| launch_error := None; live_reads := []; duration := 1%float;
     stdout_bytes := SUCCESS_MARKER; stderr_bytes := "bad";
     returncode := if bool_decide (argv = ["check"]) then 1 else 0 |}.

Definition hook_conf : test_conf :=
  {| conf_timeout := Some (PyInt 5); conf_mem := None; conf_cpu := None;
     conf_post_hook := Some (HookList ["check"]) |}.

(** A rubric without tests. *)
Definition empty_rubrics : list (string * rubric) :=
  [("r", {| score := PyInt 10; tests := [] |})].

(** Stage 1 declares [bar.txt], stage 2 declares [foo.txt]. *)
Definition two_stage_targets : Z -> grade_target := fun project_num =>
  if project_num =? 1 then TargetConfig (Some ["bar.txt"])
  else if project_num =? 2 then TargetConfig (Some ["foo.txt"])
  else TargetMissing.

(** A working tree [/repo/keos] next to its reference tree: [main.rs] and
    the object file [notes.o] differ from their references, [new.rs] has
    no reference, [src/lib.rs] is unchanged. *)
Definition sample_fs : fs :=
  {| repo_root := "/repo";
     original_dir := "/repo/keos-projects/.cargo/template";
     fs_lookup := fun path =>
       if String.eqb path "/repo/keos" then
         Some (Dir "keos"
                 [ File "main.rs" (Some "aa"); File "notes.o" (Some "bb");
                   File "new.rs" (Some "cc");
                   Dir "target" [File "out.rs" (Some "dd")];
                   Dir "src" [File "lib.rs" (Some "ee")] ])
       else if String.eqb path "/repo/keos-projects/.cargo/template/keos/main.rs"
       then Some (File "main.rs" (Some "00"))
       else if String.eqb path "/repo/keos-projects/.cargo/template/keos/notes.o"
       then Some (File "notes.o" (Some "11"))
       else if String.eqb path "/repo/keos-projects/.cargo/template/keos/target/out.rs"
       then Some (File "out.rs" (Some "22"))
       else if String.eqb path "/repo/keos-projects/.cargo/template/keos/src/lib.rs"
       then Some (File "lib.rs" (Some "ee"))
       else None;
     copy2_error := fun _ _ => None |}.


(* ===================================================================== *)
(** * Further parts of the harness                                        *)
(* ===================================================================== *)

(** ** TemplateSynchronizer: [ensure_template_freshness] *)

(** What a step of the synchronisation fails with: a git command that
    ends with a non-zero status ([check=True]), or any other exception;
    [msg] is the text of the exception. *)
Inductive sync_failure :=
| CalledProcessError (msg : string)
| OtherException (msg : string).

(** The part of the environment the synchronisation meets. *)
Record sync_env := {
  git : list string -> option sync_failure;  (* a command run in the template *)
  chdir_error : string -> option string      (* os.chdir(path) *)
}.

Definition GIT_COMMANDS : list (list string) :=
  [ ["git"; "reset"; "--hard"; "HEAD"];
    ["git"; "clean"; "-fd"];
    ["git"; "fetch"; "origin"];
    ["git"; "reset"; "--hard"; "origin/main"] ].

(** The [subprocess.run] calls of the [try] block, in order, up to the
    first one that fails. *)
Fixpoint run_git (s : sync_env) (commands : list (list string))
  : M (option sync_failure) :=
  match commands with
  | [] => mret None
  | argv :: rest =>
    emit (Launch argv None);;
    match git s argv with
    | Some f => mret (Some f)
    | None => run_git s rest
    end
  end.

(** The two [except] clauses. *)
Definition sync_failed {A} (f : sync_failure) : M A :=
  match f with
  | CalledProcessError msg =>
    emit (Print ("ERROR: Failed to update template repository: " +:+ msg));;
    sys_exit 1
  | OtherException msg =>
    emit (Print ("ERROR: Unexpected error updating template: " +:+ msg));;
    sys_exit 1
  end.

Definition path_exists (w : fs) (path : string) : bool :=
  is_Some_b (fs_lookup w path).

(** [ensure_template_freshness()], started in the directory [cwd]; it
    returns the working directory it leaves. *)
Definition ensure_template_freshness (w : fs) (s : sync_env) (cwd : string)
  : M string :=
  let template_dir := original_dir w in
  if negb (path_exists w template_dir) then
    emit (Print "ERROR: Template directory does not exist");;
    sys_exit 1
  else if negb (path_exists w (Py.Path_div template_dir ".git")) then
    emit (Print "ERROR: Template directory is not a git repository");;
    sys_exit 1
  else
    let original_cwd := cwd in
    match chdir_error s template_dir with
    | Some msg => sync_failed (OtherException msg)
    | None =>
      r ← run_git s GIT_COMMANDS;
      match r with
      | Some f => sync_failed f
      | None =>
        match chdir_error s original_cwd with
        | Some msg => sync_failed (OtherException msg)
        | None => mret original_cwd
        end
      end
    end.

(** ** [check_three_directory_integrity] *)

Definition CHECKED_DIRECTORIES : list string := ["fs"; "keos"; "keos-projects"].

(** [for directory in CHECKED_DIRECTORIES] *)
Fixpoint check_directories (w : fs) (cumulative_whitelist : list string)
    (current_project_num : Z) (mode : string) (directories : list string)
    (all_violations : list (string * list string))
  : M (list (string * list string)) :=
  match directories with
  | [] => mret all_violations
  | directory :: rest =>
    violations ←
      (if String.eqb directory "keos-projects"
       then check_directory_integrity w directory cumulative_whitelist
              current_project_num mode
       else check_directory_integrity w directory [] 0 mode);
    check_directories w cumulative_whitelist current_project_num mode rest
      (match violations with
       | [] => all_violations
       | _ => dict_set String.eqb all_violations directory violations
       end)
  end.

Definition check_three_directory_integrity (w : fs) (s : sync_env)
    (cwd : string) (cumulative_whitelist : list string)
    (current_project_num : Z) (mode : string)
  : M (list (string * list string)) :=
  ensure_template_freshness w s cwd;;
  check_directories w cumulative_whitelist current_project_num mode
    CHECKED_DIRECTORIES [].

(** Every git command succeeds, every change of directory too. *)
Definition good_sync : sync_env :=
  {| git := fun _ => None; chdir_error := fun _ => None |}.

(** The remote cannot be reached: [git fetch] fails. *)
Definition offline_sync : sync_env :=
  {| git := fun argv =>
       if bool_decide (argv = ["git"; "fetch"; "origin"])
       then Some (CalledProcessError "fetch failed") else None;
     chdir_error := fun _ => None |}.

(** [sample_fs] with its template directory, a git repository, in place. *)
Definition synced_fs : fs :=
  {| repo_root := repo_root sample_fs;
     original_dir := original_dir sample_fs;
     fs_lookup := fun path =>
       if String.eqb path "/repo/keos-projects/.cargo/template"
       then Some (Dir "template" [])
       else if String.eqb path "/repo/keos-projects/.cargo/template/.git"
       then Some (Dir ".git" [])
       else fs_lookup sample_fs path;
     copy2_error := fun _ _ => None |}.

(** ** Vocabulary *)


(** The prefix under which the files of stage [project_num] are found. *)
Definition project_prefix (project_num : Z) : string :=
  "keos-project" +:+ Py.str_of_int project_num +:+ "/".

(** The stages of [nums] that declare a non-empty whitelist, each with
    its declaration. *)
Definition declared_details (targets : Z -> grade_target) (nums : list Z)
  : list (Z * list string) :=
  List.map (fun k => (k, get_project_whitelist targets k))
    (List.filter
       (fun k => negb (bool_decide (get_project_whitelist targets k = [])))
       nums).

(** ** The files a scan visits *)

(** A file as the scan meets it: the directory it is in, its name, and
    the digest of its content. *)
Definition visited_file : Type := string * string * option string.

Section Traversal.
Variable w : fs.
Variable directory_name : string.
Variable cumulative_whitelist : list string.
Variable current_project_num : Z.

(** The files of one directory, in the order of its entries. *)
Definition files_of (root : string) (entries : list entry)
  : list visited_file :=
  List.flat_map (fun e => match e with
                          | File file digest => [(root, file, digest)]
                          | Dir _ _ => []
                          end) entries.

(** The files [os.walk] yields from the directory [e] named [root], in
    order: those of [root], then those below each directory that is
    kept. *)
Fixpoint visited (root : string) (e : entry) {struct e} : list visited_file :=
  match e with
  | File _ _ => []
  | Dir _ children =>
    files_of root children
    ++ List.flat_map
         (fun sub => match sub with
                     | File _ _ => []
                     | Dir d _ =>
                       if keep_dir directory_name current_project_num root d
                       then visited (Py.os_path_join root d) sub
                       else []
                     end) children
  end.

(** The exception the scan meets at a visited file, if any: a path that
    is not below the scanned directory, or a reference that is a
    directory. *)
Definition fault (f : visited_file) : option exn :=
  let '(root, file, digest) := f in
  let file_path := Py.Path_div root file in
  if is_ignored file_path then None
  else match Py.relative_to file_path (check_dir w directory_name) with
       | None => Some ValueError
       | Some rel_path =>
         if String.eqb directory_name "keos-projects"
            && whitelisted_loop rel_path cumulative_whitelist
                 (range 1 (current_project_num + 1))
         then None
         else
           match fs_lookup w (Py.Path_div
                                (Py.Path_div (original_dir w) directory_name)
                                rel_path) with
           | Some (Dir _ _) => Some IsADirectoryError
           | _ => None
           end
       end.

(** The violation a visited file stands for, if any: the file is not
    ignored, lies below the scanned directory, is not exempt, has a
    reference file, and its digest is not the reference's. *)
Definition drift (f : visited_file) : option violation :=
  let '(root, file, digest) := f in
  let file_path := Py.Path_div root file in
  if is_ignored file_path then None
  else match Py.relative_to file_path (check_dir w directory_name) with
       | None => None
       | Some rel_path =>
         if String.eqb directory_name "keos-projects"
            && whitelisted_loop rel_path cumulative_whitelist
                 (range 1 (current_project_num + 1))
         then None
         else
           let original_file :=
             Py.Path_div (Py.Path_div (original_dir w) directory_name)
                         rel_path in
           match fs_lookup w original_file with
           | Some (File _ original_hash) =>
             if bool_decide (digest ≠ original_hash)
             then Some {| file_path := file_path; rel_path := rel_path;
                          original_file := original_file |}
             else None
           | _ => None
           end
       end.

(** The first exception among the visited files. *)
Fixpoint first_fault (l : list visited_file) : option exn :=
  match l with
  | [] => None
  | f :: rest =>
    match fault f with
    | Some e => Some e
    | None => first_fault rest
    end
  end.

(** What a scan of the files [l] gives: the first exception met, or the
    violations of the files in order. *)
Definition scan_result (l : list visited_file) : M (list violation) :=
  match first_fault l with
  | Some e => raise e
  | None => mret (omap drift l)
  end.

End Traversal.

(** The tree [e] without its directories named [rootfs], at any depth. *)
Fixpoint prune_rootfs (e : entry) {struct e} : entry :=
  match e with
  | File _ _ => e
  | Dir name children =>
    Dir name
      (List.flat_map
         (fun sub => match sub with
                     | File _ _ => [sub]
                     | Dir d _ =>
                       if String.eqb d "rootfs" then [] else [prune_rootfs sub]
                     end) children)
  end.

(** A working tree with a [rootfs] directory that holds the kept file
    [hello], changed with respect to its reference. *)
Definition rootfs_tree : entry :=
  Dir "keos"
    [ File "main.rs" (Some "aa");
      Dir "rootfs" [File "hello" (Some "changed")] ].

(** [sample_fs] with every copy failing. *)
Definition read_only_fs : fs :=
  {| repo_root := repo_root sample_fs;
     original_dir := original_dir sample_fs;
     fs_lookup := fs_lookup sample_fs;
     copy2_error := fun _ _ => Some "Permission denied" |}.

(** The lines a restoration prints for the violations [vs], with the
    copies made. *)
Definition restored (vs : list violation) : list event :=
  vs ≫= fun v =>
    [Copy2 (original_file v) (file_path v);
     Print ("  RESTORED: " +:+ rel_path v +:+ " (restored)")].

(** The line that announces the violations of a directory. *)
Definition violations_header (directory_name : string)
    (vs : list violation) : event :=
  Print (NL +:+ directory_name +:+ "/ - "
         +:+ Py.str_of_int (Z.of_nat (List.length vs)) +:+ " violation(s):").

Definition is_copy (e : event) : bool :=
  match e with Copy2 _ _ => true | _ => false end.

(** The violation of [sample_fs]: [main.rs] of [keos]. *)
Definition main_rs_violation : violation :=
  {| file_path := "/repo/keos/main.rs"; rel_path := "main.rs";
     original_file := "/repo/keos-projects/.cargo/template/keos/main.rs" |}.

(** The directories with a violation, each with its violations. *)
Definition with_violations (l : list (string * list string))
  : list (string * list string) :=
  List.filter (fun p => negb (bool_decide (p.2 = []))) l.

(** ** Vocabulary of grading *)

Definition is_boot (e : event) : bool :=
  match e with WriteBootConfig _ => true | _ => false end.

(** The boot configurations written among the events of a log. *)
Definition boots (log : list event) : list event := List.filter is_boot log.

(** Every launch fails. *)
Definition broken_world : world := fun _ _ =>
  {| launch_error := Some (OSError "qemu-system-x86_64: not found");
     live_reads := []; duration := 1%float; stdout_bytes := "";
     stderr_bytes := ""; returncode := 0 |}.

(** Every process prints a line that reports a panic. *)
Definition panic_world : world := fun _ _ =>
  {| launch_error := None; live_reads := ["kernel panic" +:+ NL];
     duration := 1%float; stdout_bytes := "kernel panic";
     stderr_bytes := ""; returncode := 0 |}.

Definition two_rubrics : list (string * rubric) :=
  [("core", {| score := PyInt 10;
               tests := [("t1", no_conf); ("t2", no_conf)] |});
   ("extra", {| score := PyInt 5; tests := [("t3", no_conf)] |})].

(** The event that starts a test: its boot configuration. *)
Definition boot_of (t : string * test_conf) : event :=
  WriteBootConfig ("--quite " +:+ t.1).

(** [m] writes no boot configuration. *)
Definition calm {A} (m : M A) : Prop := boots m.2 = [].

(** The tests of a rubric that the filter lets through, and those of all
    the rubrics, in the order of the two loops of [grade]. *)
Definition selected_of (filt : option (list string))
    (ts : list (string * test_conf)) : list (string * test_conf) :=
  List.filter (fun t => negb (filtered_out filt t.1)) ts.

Definition selected (filt : option (list string))
    (rubrics : list (string * rubric)) : list (string * test_conf) :=
  List.flat_map (fun r => selected_of filt (tests r.2)) rubrics.

(** What [grade_single] returns for a test, called as [grade] calls it. *)
Definition single_output (w : world) (run_command : list string)
    (filt : option (list string)) (t : string * test_conf) : string :=
  match (grade_single w run_command t.1 (default 4 (conf_cpu t.2))
           (default "512M" (conf_mem t.2))
           (default (PyInt 30) (conf_timeout t.2)) (is_Some_b filt)).1 with
  | Returned output => output
  | _ => ""
  end.

(** [filt is not None and 'panic' in output] for a test. *)
Definition stops (w : world) (run_command : list string)
    (filt : option (list string)) (t : string * test_conf) : bool :=
  is_Some_b filt && Py.contains "panic" (single_output w run_command filt t).

(** The elements of a list up to the first one that satisfies [p], that
    one included. *)
Fixpoint through_first {A} (p : A -> bool) (l : list A) : list A :=
  match l with
  | [] => []
  | x :: rest => if p x then [x] else x :: through_first p rest
  end.

(** The tests recorded in a grading result, and those recorded passed. *)
Definition entries_of (g : grading_result) : list (string * test_result) :=
  List.flat_map snd g.

Definition all_passed (g : grading_result) : bool :=
  forallb (fun t : string * test_result => t.2.1) (entries_of g).

Definition count_passed (g : grading_result) : Z :=
  Z.of_nat (List.length
              (List.filter (fun t : string * test_result => t.2.1)
                           (entries_of g))).

Definition count_tests (g : grading_result) : Z :=
  Z.of_nat (List.length (entries_of g)).

(** [m] does not end the process, and raises only exceptions in [P]. *)
Definition faults_within {A} (m : M A) (P : exn -> Prop) : Prop :=
  match m.1 with
  | Returned _ => True
  | Raised e => P e
  | Exited _ => False
  end.

(** The faults of the arithmetic of [summarize]. *)
Definition arithmetic_fault (e : exn) : Prop :=
  e = ZeroDivisionError \/ e = OverflowError.

(** What [grade] returns for [two_rubrics] in [two_tests_world]. *)
Definition two_rubrics_result : grading_result :=
  [("core", [("t1", (true, "test result: ok. 1 passed; 0 failed"));
             ("t2", (false, "test result: ok. 0 passed; 1 failed"))]);
   ("extra", [("t3", (false, "test result: ok. 0 passed; 1 failed"))])].

(** The directory of stage [k] in the stage-organised tree. *)
Definition project_dir (k : Z) : string := "keos-project" +:+ Py.str_of_int k.

(** ** [check_whitelist_compliance] *)

(** [s.split(sep)] for a non-empty separator: the pieces between the
    occurrences of [sep], found left to right without overlap; [skip]
    counts the characters of the occurrence being passed over. *)
Fixpoint split_go (sep s : string) (skip : nat) : list string :=
  match s with
  | EmptyString => [""]
  | String c s' =>
    match skip with
    | S k => split_go sep s' k
    | O =>
      if String.prefix sep s
      then "" :: split_go sep s' (Nat.pred (String.length sep))
      else match split_go sep s' O with
           | piece :: rest => String c piece :: rest
           | [] => [String c ""]
           end
    end
  end.

Definition str_split (s sep : string) : list string := split_go sep s O.

(** [sorted(l)]: a stable sort by insertion. *)
Fixpoint insert_sorted {A} (leb : A -> A -> bool) (x : A) (l : list A)
  : list A :=
  match l with
  | [] => [x]
  | y :: rest =>
    if leb x y then x :: y :: rest else y :: insert_sorted leb x rest
  end.

Definition sorted {A} (leb : A -> A -> bool) (l : list A) : list A :=
  List.fold_right (insert_sorted leb) [] l.

(** [int(project_name.split('project')[1])]; [None] stands for
    [IndexError] and [ValueError], which the code handles alike. *)
Definition parse_project_num (project_name : string) : option Z :=
  match str_split project_name "project" with
  | _ :: x :: _ => Py.int x
  | _ => None
  end.

(** [for file in sorted(files)] *)
Fixpoint print_files (files : list string) : M unit :=
  match files with
  | [] => mret tt
  | file :: rest => emit (Print ("    - " +:+ file));; print_files rest
  end.

(** [for proj_num in sorted(project_details.keys())] *)
Fixpoint print_details (project_details : list (Z * list string))
    (keys : list Z) : M unit :=
  match keys with
  | [] => mret tt
  | proj_num :: rest =>
    let files := default [] (dict_get Z.eqb project_details proj_num) in
    emit (Print ("  Project " +:+ Py.str_of_int proj_num +:+ ":"));;
    print_files (sorted String.leb files);;
    print_details project_details rest
  end.

(** [sum(len(files) for files in all_violations.values())] *)
Definition count_violations (all_violations : list (string * list string))
  : Z :=
  List.fold_left (fun acc d => acc + Z.of_nat (List.length d.2))
                 all_violations 0.

(** The part of [check_whitelist_compliance] that follows the reading of
    the stage number. [input] is taken to return: its prompt is written
    without a line end, and the line read is not used. *)
Definition compliance_at_stage (w : fs) (s : sync_env)
    (targets : Z -> grade_target) (mode : string) (cwd : string)
    (project_num : Z) : M unit :=
  let r := build_cumulative_whitelist targets project_num in
  let cumulative_whitelist := r.1 in
  let project_details := r.2 in
  (match project_details with
   | [] => mret tt
   | _ =>
     emit (Print "Whitelisted Files:");;
     print_details project_details (sorted Z.leb project_details.*1)
   end);;
  all_violations ← check_three_directory_integrity w s cwd
                     cumulative_whitelist project_num mode;
  let total_violations := count_violations all_violations in
  if negb (total_violations =? 0) then
    emit (Print "----------------");;
    if String.eqb mode "warn" then
      emit (Print (NL +:+ "Total " +:+ Py.str_of_int total_violations
                   +:+ " violation(s) found:"));;
      emit (Print "   These modifications will be ignored during official grading");;
      emit (PrintEnd "[*] Type enter to continue:")
    else
      emit (Print (NL +:+ Py.str_of_int total_violations
                   +:+ " file(s) restored to original versions"))
  else mret tt.

(** [check_whitelist_compliance(whitelist)]: [file_check] is the value of
    [KEOS_FILE_CHECK] in the environment, [project_name] the name of the
    parent of the working directory [cwd]. *)
Definition check_whitelist_compliance (w : fs) (s : sync_env)
    (targets : Z -> grade_target) (file_check : option string)
    (cwd project_name : string) (whitelist : list string) : M unit :=
  let mode := default "warn" file_check in
  if negb (Py.startswith project_name "keos-project") then
    emit (Print ("ERROR: Invalid project directory: " +:+ project_name));;
    sys_exit 1
  else
    match parse_project_num project_name with
    | None =>
      emit (Print ("ERROR: Cannot parse project number from "
                   +:+ project_name));;
      sys_exit 1
    | Some project_num =>
      compliance_at_stage w s targets mode cwd project_num
    end.

(** [m] copies no file. *)
Definition copies_nothing {A} (m : M A) : Prop := List.filter is_copy m.2 = [].

(** [sample_fs] after the synchronisation of its template. *)
Definition checked_fs : fs :=
  {| repo_root := repo_root synced_fs;
     original_dir := original_dir synced_fs;
     fs_lookup := fs_lookup synced_fs;
     copy2_error := fun _ _ => Some "Permission denied" |}.

(* ===================================================================== *)
(** * Properties                                                          *)
(* ===================================================================== *)

(** ** The built-ins at work *)

Example int_examples :
  Py.int "12" = Some 12 /\ Py.int " 1_000 " = Some 1000
  /\ Py.int "-7" = Some (-7) /\ Py.int "" = None /\ Py.int "1__2" = None
  /\ Py.int "x" = None.
Proof. repeat split. Qed.

Example path_examples :
  Py.Path "//a/./b//c/" = "//a/b/c" /\ Py.Path "" = "."
  /\ Py.Path_name "/a/b/" = "b" /\ Py.Path_div "/a" "b/c" = "/a/b/c"
  /\ Py.relative_to "/a/b/c" "/a" = Some "b/c"
  /\ Py.relative_to "/a/b" "/x" = None.
Proof. repeat split. Qed.

Example replace_examples :
  Py.replace "keos-project1/src/keos-project1/x" "keos-project1/" "" = "src/x"
  /\ Py.replace "aaa" "aa" "b" = "ba" /\ Py.replace "ab" "" "-" = "-a-b-".
Proof. repeat split. Qed.

(** ** Strings *)

Section StringFacts.

Lemma sapp_nil_l (s : string) : "" +:+ s = s.
Proof. reflexivity. Qed.

Lemma sapp_cons (a : ascii) (s t : string) :
  String a s +:+ t = String a (s +:+ t).
Proof. reflexivity. Qed.

Lemma sapp_nil_r (s : string) : s +:+ "" = s.
Proof. induction s as [|a s IH]; [reflexivity|]. by rewrite sapp_cons, IH. Qed.

Lemma sapp_assoc (s t u : string) : (s +:+ t) +:+ u = s +:+ (t +:+ u).
Proof.
  induction s as [|a s IH]; [reflexivity|]. by rewrite !sapp_cons, IH.
Qed.

Lemma prefix_spec (p s : string) :
  String.prefix p s = true <-> exists t, s = p +:+ t.
Proof.
  revert s. induction p as [|a p IH]; intros s.
  - destruct s; simpl; (split; [intros _; by eexists | done]).
  - destruct s as [|b s]; simpl;
      [split; [done | intros [t Ht]; discriminate]|].
    destruct (ascii_dec a b) as [->|Hne].
    + rewrite IH. split; intros [t Ht]; exists t.
      * by rewrite sapp_cons, <- Ht.
      * rewrite sapp_cons in Ht. congruence.
    + split; [done|]. intros [t Ht]. rewrite sapp_cons in Ht. congruence.
Qed.

Lemma contains_eq (n s : string) :
  Py.contains n s =
  if String.prefix n s then true
  else match s with "" => false | String _ s' => Py.contains n s' end.
Proof. by destruct s. Qed.

Lemma endswith_eq (s suf : string) :
  Py.endswith s suf =
  if String.eqb s suf then true
  else match s with "" => false | String _ s' => Py.endswith s' suf end.
Proof. by destruct s. Qed.

Lemma contains_spec (n s : string) :
  Py.contains n s = true <-> exists a b, s = a +:+ n +:+ b.
Proof.
  induction s as [|c s IH]; rewrite contains_eq;
    destruct (String.prefix n _) eqn:Hp.
  - apply prefix_spec in Hp as [t Ht]. split; [|done].
    intros _. by exists "", t.
  - split; [done|]. intros (a & b & H).
    destruct a; [|discriminate].
    assert (String.prefix n "" = true) by (apply prefix_spec; by exists b).
    congruence.
  - apply prefix_spec in Hp as [t Ht]. split; [|done].
    intros _. by exists "", t.
  - rewrite IH. split.
    + intros (a & b & ->). by exists (String c a), b.
    + intros (a & b & H). destruct a as [|c' a].
      * assert (String.prefix n (String c s) = true)
          by (apply prefix_spec; by exists b).
        congruence.
      * rewrite sapp_cons in H. injection H as -> ->. by exists a, b.
Qed.

Lemma endswith_spec (s suf : string) :
  Py.endswith s suf = true <-> exists a, s = a +:+ suf.
Proof.
  induction s as [|c s IH]; rewrite endswith_eq;
    [destruct (String.eqb_spec "" suf) as [<-|Hne]
    |destruct (String.eqb_spec (String c s) suf) as [<-|Hne]].
  - split; [|done]. intros _. by exists "".
  - split; [done|]. intros [a H]. destruct a; [|discriminate].
    by rewrite sapp_nil_l in H.
  - split; [|done]. intros _. by exists "".
  - rewrite IH. split.
    + intros [a ->]. by exists (String c a).
    + intros [a H]. destruct a as [|c' a]; [by rewrite sapp_nil_l in H|].
      rewrite sapp_cons in H. injection H as -> ->. by exists a.
Qed.

Lemma split_nonempty (c : ascii) (s : string) : Py.split c s <> [].
Proof.
  destruct s as [|a s]; simpl; [done|].
  destruct (Ascii.eqb a c); [done|]. by destruct (Py.split c s).
Qed.

Lemma split_app_sep (c : ascii) (a b : string) :
  Py.split c (a +:+ String c b) = Py.split c a ++ Py.split c b.
Proof.
  induction a as [|x a IH].
  - rewrite sapp_nil_l. simpl. by rewrite Ascii.eqb_refl.
  - rewrite sapp_cons. simpl. rewrite IH.
    destruct (Ascii.eqb x c); [done|].
    pose proof (split_nonempty c a). by destruct (Py.split c a).
Qed.

Lemma join_cons (sep w : string) (l : list string) :
  l <> [] -> Py.join sep (w :: l) = w +:+ sep +:+ Py.join sep l.
Proof. by destruct l. Qed.

Lemma join_app (sep : string) (l1 l2 : list string) :
  l1 <> [] -> l2 <> [] ->
  Py.join sep (l1 ++ l2) = Py.join sep l1 +:+ sep +:+ Py.join sep l2.
Proof.
  intros H1 H2. induction l1 as [|w l1 IH]; [done|].
  destruct l1 as [|w' l1].
  - simpl app. by rewrite join_cons.
  - rewrite <- app_comm_cons, join_cons by done.
    rewrite IH by done. rewrite (join_cons _ w (w' :: l1)) by done.
    by rewrite !sapp_assoc.
Qed.

Lemma join_split (c : ascii) (s : string) :
  Py.join (String c "") (Py.split c s) = s.
Proof.
  induction s as [|a s IH]; [reflexivity|]. simpl.
  destruct (Ascii.eqb_spec a c) as [->|Hne].
  - rewrite join_cons by apply split_nonempty. by rewrite IH.
  - pose proof (split_nonempty c s).
    destruct (Py.split c s) as [|w [|w' ws]]; [done|..].
    + simpl in *. by rewrite IH.
    + rewrite join_cons in IH by done. rewrite join_cons by done.
      by rewrite sapp_cons, IH.
Qed.

Lemma dir_rule_spec (d p : string) :
  Py.contains ("/" +:+ d +:+ "/") p || Py.endswith p ("/" +:+ d) = true
  <-> occurs_as_segments d p.
Proof.
  rewrite orb_true_iff, contains_spec, endswith_spec. split.
  - intros [(a & b & ->)|(a & ->)].
    + exists (Py.split "/" a), (Py.split "/" b). split.
      { apply split_nonempty. }
      change ("/" +:+ d +:+ "/") with (String "/" (d +:+ String "/" "")).
      rewrite sapp_cons, split_app_sep, sapp_assoc, sapp_cons, sapp_nil_l.
      by rewrite split_app_sep.
    + exists (Py.split "/" a), []. split.
      { apply split_nonempty. }
      rewrite List.app_nil_r. apply split_app_sep.
  - intros (pre & post & Hpre & Hsplit).
    rewrite <- (join_split "/" p), Hsplit.
    rewrite join_app by (done || (intros Heq; apply app_eq_nil in Heq as [? _];
                                   by eapply split_nonempty)).
    destruct post as [|x post].
    + right. exists (Py.join "/" pre).
      by rewrite List.app_nil_r, join_split.
    + left. exists (Py.join "/" pre), (Py.join "/" (x :: post)).
      rewrite join_app by (done || apply split_nonempty).
      rewrite join_split. by rewrite !sapp_assoc.
Qed.

End StringFacts.

(** ** The ignore filter *)

Example ignored_dirs_are :
  IGNORED_DIRS = ["target"; "build"; "build_objects"; ".cargo/template"].
Proof. reflexivity. Qed.

Example ignored_names_are :
  IGNORED_NAMES
  = ["keos_kernel"; "ffs.bin"; "sfs.bin"; ".o"; "kelibc.a"; "Cargo.lock"].
Proof. reflexivity. Qed.

(** No pattern of the list is a glob: the [fnmatch] branch is never taken. *)
Example no_glob_pattern :
  forallb (fun pat => negb (Py.contains "*" pat)) IGNORED_PATTERNS = true.
Proof. reflexivity. Qed.

Example is_ignored_examples :
  is_ignored "/repo/keos/target/debug/x" = true
  /\ is_ignored "/repo/keos/mytarget/x" = false
  /\ is_ignored "/repo/keos/src/main.o" = true
  /\ is_ignored "/repo/keos/src/main.rs" = false
  /\ is_ignored "/repo/rootfs/hello_world" = false
  /\ is_ignored "/repo/rootfs/other" = true
  /\ is_ignored "/repo/rootfs" = true.
Proof. repeat split. Qed.

Section IgnoreFacts.

Lemma rootfs_exception_loop_spec (name : string) :
  rootfs_exception_loop name ROOTFS_EXCEPTIONS = true <-> kept_in_rootfs name.
Proof.
  unfold ROOTFS_EXCEPTIONS, kept_in_rootfs, rootfs_exception_loop.
  change (String.eqb "hello" "hello") with true.
  change (String.eqb "os-release" "hello") with false.
  change (String.eqb "simple_fs.tar" "hello") with false.
  cbn [andb]. unfold Py.startswith.
  destruct (String.prefix "hello" name) eqn:Hp.
  { apply prefix_spec in Hp. tauto. }
  assert (~ exists t, name = "hello" +:+ t) as Hn.
  { intros H. apply prefix_spec in H. congruence. }
  destruct (String.eqb_spec "hello" name) as [<-|_].
  { destruct Hn. by exists "". }
  destruct (String.eqb_spec "os-release" name) as [<-|?]; [tauto|].
  destruct (String.eqb_spec "simple_fs.tar" name) as [<-|?]; [tauto|].
  split; [done|]. intros [?|[?|?]]; congruence.
Qed.

Lemma ignored_pattern_loop_spec (p : string) (pats : list string) :
  ignored_pattern_loop p pats = true
  <-> exists pat, pat ∈ pats /\ pattern_matches p pat.
Proof.
  induction pats as [|pat pats IH].
  - split; [done|]. intros (pat & Hin & _). by apply elem_of_nil in Hin.
  - assert (ignored_pattern_loop p (pat :: pats) = true
            <-> pattern_matches p pat \/ ignored_pattern_loop p pats = true)
      as ->.
    { unfold pattern_matches. cbn [ignored_pattern_loop].
      destruct (Py.endswith pat "/").
      - rewrite <- dir_rule_spec.
        destruct (_ || _); intuition congruence.
      - destruct (Py.contains "*" pat).
        + destruct (Py.fnmatch _ _); intuition congruence.
        + unfold substring_of. rewrite <- contains_spec.
          destruct (Py.contains pat p); intuition congruence. }
    rewrite IH. split.
    + intros [H|(q & Hin & Hq)].
      * exists pat. split; [apply elem_of_cons; by left | done].
      * exists q. split; [apply elem_of_cons; by right | done].
    + intros (q & Hin & Hq). apply elem_of_cons in Hin as [->|Hin].
      * by left.
      * right. by exists q.
Qed.

Lemma pattern_matches_fixed (p : string) :
  (exists pat, pat ∈ IGNORED_PATTERNS /\ pattern_matches p pat)
  <-> (exists d, d ∈ IGNORED_DIRS /\ occurs_as_segments d p)
      \/ (exists n, n ∈ IGNORED_NAMES /\ substring_of n p).
Proof.
  split.
  - intros (pat & Hin & Hm).
    unfold IGNORED_PATTERNS in Hin.
    repeat (apply elem_of_cons in Hin as [->|Hin]);
      [..|by apply elem_of_nil in Hin];
      first [ left; eexists; split; [|exact Hm]; vm_compute;
              set_solver
            | right; eexists; split; [|exact Hm]; vm_compute;
              set_solver ].
  - intros [(d & Hin & Hm)|(n & Hin & Hm)].
    + vm_compute in Hin.
      repeat (apply elem_of_cons in Hin as [->|Hin]);
        [..|by apply elem_of_nil in Hin].
      * exists "target/". split; [set_solver | exact Hm].
      * exists "build/". split; [set_solver | exact Hm].
      * exists "build_objects/". split; [set_solver | exact Hm].
      * exists ".cargo/template/". split; [set_solver | exact Hm].
    + vm_compute in Hin.
      repeat (apply elem_of_cons in Hin as [->|Hin]);
        [..|by apply elem_of_nil in Hin];
        match type of Hm with
        | substring_of ?n _ => exists n; split; [set_solver | exact Hm]
        end.
Qed.

(** C3 (as amended). [is_ignored] holds exactly in these cases. Inside
    [rootfs] (a component [rootfs] with a slash before it): the path ends
    with [/rootfs], or its file name is not one of the kept ones. Outside:
    one of the directory names [target], [build], [build_objects],
    [.cargo/template] occurs as whole components after a slash, or one of
    the other patterns ([keos_kernel], [ffs.bin], [sfs.bin], [.o],
    [kelibc.a], [Cargo.lock]) occurs anywhere in the path string. *)
Theorem is_ignored_spec (p : string) :
  is_ignored p = true
  <-> (occurs_as_segments "rootfs" p
       /\ (suffix_of "/rootfs" p \/ ~ kept_in_rootfs (Py.Path_name p)))
      \/ (~ occurs_as_segments "rootfs" p
          /\ ((exists d, d ∈ IGNORED_DIRS /\ occurs_as_segments d p)
              \/ (exists n, n ∈ IGNORED_NAMES /\ substring_of n p))).
Proof.
  unfold is_ignored.
  rewrite <- pattern_matches_fixed, <- ignored_pattern_loop_spec.
  rewrite <- (dir_rule_spec "rootfs" p).
  change ("/" +:+ "rootfs" +:+ "/") with "/rootfs/".
  change ("/" +:+ "rootfs") with "/rootfs".
  unfold suffix_of. rewrite <- endswith_spec, <- rootfs_exception_loop_spec.
  destruct (Py.contains "/rootfs/" p || Py.endswith p "/rootfs").
  - destruct (Py.endswith p "/rootfs"); [intuition congruence|].
    destruct (rootfs_exception_loop _ _); intuition congruence.
  - intuition congruence.
Qed.

Lemma not_occurs (d p : string) :
  Py.contains ("/" +:+ d +:+ "/") p || Py.endswith p ("/" +:+ d) = false ->
  ~ occurs_as_segments d p.
Proof. intros Hb H. apply dir_rule_spec in H. congruence. Qed.

Lemma not_suffix (n p : string) : Py.endswith p n = false -> ~ suffix_of n p.
Proof. intros Hb H. apply endswith_spec in H. congruence. Qed.

(** C3 (as stated) fails: [/repo/fs/notes.old] is ignored because [.o]
    occurs inside its name, although it is outside [rootfs], has no
    ignored directory among its components, and its file name ends with
    none of the patterns. *)
Lemma infix_name_is_ignored :
  ~ (forall p, is_ignored p = true -> ignored_by_name_rules p).
Proof.
  intros H. specialize (H "/repo/fs/notes.old" eq_refl).
  destruct H as [H|[(d & Hin & H)|(n & Hin & H)]].
  - by apply not_occurs in H.
  - vm_compute in Hin.
    repeat (apply elem_of_cons in Hin as [->|Hin]);
      [..|by apply elem_of_nil in Hin]; by apply not_occurs in H.
  - vm_compute in Hin.
    repeat (apply elem_of_cons in Hin as [->|Hin]);
      [..|by apply elem_of_nil in Hin]; by apply not_suffix in H.
Qed.

End IgnoreFacts.

(** ** The cumulative whitelist *)

Section WhitelistFacts.
Variable targets : Z -> grade_target.

Lemma elem_of_range (a b k : Z) : k ∈ range a b <-> a <= k < b.
Proof.
  unfold range. rewrite list_elem_of_In, in_map_iff. split.
  - intros (i & <- & Hi). apply in_seq in Hi. lia.
  - intros H. exists (Z.to_nat (k - a)). split; [lia|].
    apply in_seq. lia.
Qed.

Lemma whitelist_step_set (acc : gset string * list (Z * list string)) (k : Z) :
  (whitelist_step targets acc k).1
  = acc.1 ∪ list_to_set (get_project_whitelist targets k).
Proof.
  unfold whitelist_step.
  destruct (get_project_whitelist targets k); simpl; [set_solver | done].
Qed.

Lemma fold_whitelist_set (nums : list Z)
    (acc : gset string * list (Z * list string)) :
  (fold_left (whitelist_step targets) nums acc).1
  = acc.1 ∪ ⋃ ((fun k => list_to_set (get_project_whitelist targets k))
                 <$> nums).
Proof.
  revert acc. induction nums as [|k nums IH]; intros acc; simpl.
  - set_solver.
  - rewrite IH, whitelist_step_set. set_solver.
Qed.

Lemma whitelist_loop_set (nums : list Z) :
  (whitelist_loop targets nums).1
  = ⋃ ((fun k => list_to_set (get_project_whitelist targets k)) <$> nums).
Proof. unfold whitelist_loop. rewrite fold_whitelist_set. set_solver. Qed.

Lemma elem_of_whitelist_loop (nums : list Z) (x : string) :
  x ∈ (whitelist_loop targets nums).1
  <-> exists k, k ∈ nums /\ x ∈ get_project_whitelist targets k.
Proof.
  rewrite whitelist_loop_set, elem_of_union_list. split.
  - intros (X & HX & Hx). apply list_elem_of_fmap in HX as (k & -> & Hk).
    exists k. split; [done|]. by apply elem_of_list_to_set in Hx.
  - intros (k & Hk & Hx). eexists. split.
    + apply list_elem_of_fmap. by exists k.
    + by apply elem_of_list_to_set.
Qed.

Lemma elem_of_build_cumulative_whitelist (n : Z) (x : string) :
  x ∈ (build_cumulative_whitelist targets n).1
  <-> exists k, 1 <= k <= n /\ x ∈ get_project_whitelist targets k.
Proof.
  unfold build_cumulative_whitelist. cbn [fst].
  rewrite elem_of_elements, elem_of_whitelist_loop.
  split; intros (k & Hk & Hx); exists k; (split; [|done]);
    apply elem_of_range in Hk || apply elem_of_range; lia.
Qed.

End WhitelistFacts.

(** C6. The cumulative whitelist of stage [n] is the set union of the
    declarations of the stages 1..n: it holds a path exactly when one of
    these stages declares it and holds it once; it grows with the stage
    number; and the union does not depend on the order in which the
    stages are combined, on a stage being combined twice, or on the order
    and repetitions inside a declaration. *)
Theorem cumulative_whitelist_is_union (targets : Z -> grade_target) :
  (forall n x, x ∈ (build_cumulative_whitelist targets n).1
     <-> exists k, 1 <= k <= n /\ x ∈ get_project_whitelist targets k)
  /\ (forall n, NoDup (build_cumulative_whitelist targets n).1)
  /\ (forall n1 n2, n1 < n2 ->
        (build_cumulative_whitelist targets n1).1
        ⊆ (build_cumulative_whitelist targets n2).1)
  /\ (forall nums nums', nums ≡ₚ nums' ->
        (whitelist_loop targets nums).1 = (whitelist_loop targets nums').1)
  /\ (forall nums,
        (whitelist_loop targets (nums ++ nums)).1
        = (whitelist_loop targets nums).1)
  /\ (forall targets' nums,
        (forall k x, x ∈ get_project_whitelist targets k
                     <-> x ∈ get_project_whitelist targets' k) ->
        (whitelist_loop targets nums).1 = (whitelist_loop targets' nums).1).
Proof.
  split; [|split; [|split; [|split; [|split]]]].
  - apply elem_of_build_cumulative_whitelist.
  - intros n. apply NoDup_elements.
  - intros n1 n2 Hlt x. rewrite !elem_of_build_cumulative_whitelist.
    intros (k & Hk & Hx). exists k. split; [lia | done].
  - intros nums nums' Hp. apply set_eq. intros x.
    rewrite !elem_of_whitelist_loop.
    split; intros (k & Hk & Hx); exists k; (split; [|done]).
    + by rewrite <- Hp.
    + by rewrite Hp.
  - intros nums. apply set_eq. intros x. rewrite !elem_of_whitelist_loop.
    split; intros (k & Hk & Hx); exists k; (split; [|done]); set_solver.
  - intros targets' nums Hsame. apply set_eq. intros x.
    rewrite !elem_of_whitelist_loop.
    split; intros (k & Hk & Hx); exists k; (split; [done|]); by apply Hsame.
Qed.

(** Stage 1 declares [bar.txt] and stage 2 declares [foo.txt]: what stage
    1 exempts, stage 2 exempts too. *)
Lemma cumulative_whitelist_sample :
  (build_cumulative_whitelist two_stage_targets 1).1
  ⊆ (build_cumulative_whitelist two_stage_targets 2).1.
Proof.
  apply (proj1 (proj2 (proj2 (cumulative_whitelist_is_union two_stage_targets)))
           1 2).
  lia.
Defined.

(** ** Computations *)

Section MonadFacts.
Context {A B : Type}.

Lemma bind_returned (a : A) (l : list event) (f : A -> M B) :
  (Returned a, l) ≫= f = ((f a).1, l ++ (f a).2).
Proof. unfold mbind, M_bind. by destruct (f a). Qed.

Lemma bind_mret (a : A) (f : A -> M B) : mret a ≫= f = f a.
Proof. unfold mret, M_ret. rewrite bind_returned. by destruct (f a). Qed.

Lemma bind_raised (e : exn) (l : list event) (f : A -> M B) :
  (Raised e, l) ≫= f = (Raised e, l).
Proof. reflexivity. Qed.

Lemma bind_exited (c : Z) (l : list event) (f : A -> M B) :
  (Exited c, l) ≫= f = (Exited c, l).
Proof. reflexivity. Qed.

Lemma quiet_mret (a : A) (P : A -> Prop) : P a -> quiet (mret a) P.
Proof. intros H. split; [done|]. intros a' [= <-]. done. Qed.

Lemma quiet_raise (e : exn) (P : A -> Prop) : quiet (raise e) P.
Proof. split; [done|]. intros a' [=]. Qed.

Lemma quiet_bind (m : M A) (f : A -> M B) (P : A -> Prop) (Q : B -> Prop) :
  quiet m P -> (forall a, P a -> quiet (f a) Q) -> quiet (m ≫= f) Q.
Proof.
  destruct m as [[a|e|c] l]; intros [Hl Hm] Hf; simpl in Hl; subst l.
  - rewrite bind_returned. destruct (Hf a (Hm a eq_refl)) as [Hl' Hq].
    split; [done | exact Hq].
  - split; [done|]. intros b [=].
  - split; [done|]. intros b [=].
Qed.

Lemma quiet_weaken (m : M A) (P Q : A -> Prop) :
  quiet m P -> (forall a, P a -> Q a) -> quiet m Q.
Proof. intros [Hl Hm] HPQ. split; [done|]. intros a Ha. auto. Qed.

Lemma no_exit_mret (a : A) : no_exit (mret a).
Proof. intros c. done. Qed.

Lemma no_exit_raise (e : exn) : no_exit (raise e : M A).
Proof. intros c. done. Qed.

Lemma no_exit_bind (m : M A) (f : A -> M B) :
  no_exit m -> (forall a, no_exit (f a)) -> no_exit (m ≫= f).
Proof.
  intros Hm Hf c. destruct m as [[a|e|c'] l].
  - rewrite bind_returned. apply Hf.
  - done.
  - by destruct (Hm c').
Qed.

Lemma try_except_returns (m : M A) (h : exn -> M A) :
  no_exit m -> (forall e, exists a l, h e = (Returned a, l)) ->
  exists a l, try_except m h = (Returned a, l).
Proof.
  intros Hm Hh. destruct m as [[a|e|c] l]; cbn.
  - by exists a, l.
  - destruct (Hh e) as (a & l' & ->). by exists a, (l ++ l').
  - by destruct (Hm c).
Qed.

End MonadFacts.


Lemma bind_emit {B} (e : event) (k : M B) :
  (emit e;; k) = (k.1, e :: k.2).
Proof. unfold emit. by rewrite bind_returned. Qed.

Lemma no_exit_emit (e : event) : no_exit (emit e).
Proof. intros c. done. Qed.

Lemma no_exit_lift {A} (o : outcome A) :
  (forall c, o <> Exited c) -> no_exit (lift o).
Proof. intros H c. apply H. Qed.

Lemma float_of_int_no_exit (z : Z) (c : Z) : float_of_int z <> Exited c.
Proof. unfold float_of_int. by destruct (is_infinity _). Qed.

Lemma float_of_num_no_exit (x : num) (c : Z) : float_of_num x <> Exited c.
Proof. destruct x; [apply float_of_int_no_exit | done]. Qed.

Lemma decode_utf8_no_exit (b : string) : no_exit (decode_utf8 b).
Proof. unfold decode_utf8. destruct (utf8_valid b); intros c; done. Qed.

Lemma decode_text_no_exit (b : string) : no_exit (decode_text b).
Proof.
  unfold decode_text. apply no_exit_bind; [apply decode_utf8_no_exit|].
  intros s. apply no_exit_mret.
Qed.

Lemma subprocess_run_no_exit (w : world) (kernel_arg : string)
    (argv : list string) (timeout : float) :
  no_exit (subprocess_run w kernel_arg argv timeout).
Proof.
  unfold subprocess_run. apply no_exit_bind; [apply no_exit_emit|]. intros _.
  destruct (launch_error _); [apply no_exit_raise|].
  destruct (PrimFloat.ltb _ _); [apply no_exit_raise|].
  apply no_exit_bind; [apply decode_text_no_exit|]. intros out.
  apply no_exit_bind; [apply decode_text_no_exit|]. intros err.
  apply no_exit_mret.
Qed.


(** ** The scanner *)

(** Induction over a tree and, with it, over the entries of each of its
    directories. *)
Lemma entry_nested_ind (P : entry -> Prop) :
  (forall name digest, P (File name digest)) ->
  (forall name children, Forall P children -> P (Dir name children)) ->
  forall e, P e.
Proof.
  intros HF HD. fix IH 1. intros [name digest|name children].
  - apply HF.
  - apply HD. induction children as [|c children IHc].
    + constructor.
    + constructor; [apply IH | exact IHc].
Qed.

Section ScanFacts.
Variable w : fs.
Variable directory_name : string.
Variable cumulative_whitelist : list string.
Variable current_project_num : Z.

Lemma get_file_hash_quiet (path : string) :
  quiet (get_file_hash w path) (fun _ => True).
Proof.
  unfold get_file_hash. destruct (fs_lookup w path) as [[? ?|? ?]|];
    (apply quiet_mret || apply quiet_raise); done.
Qed.

Lemma scan_file_recorded (root file : string) (digest : option string) :
  quiet (scan_file w directory_name cumulative_whitelist current_project_num
           root file digest)
        (fun o => forall v, o = Some v -> recorded w directory_name v).
Proof.
  unfold scan_file.
  destruct (is_ignored (Py.Path_div root file)) eqn:Hig; cbn [negb].
  { by apply quiet_mret. }
  destruct (Py.relative_to _ _) as [rel|] eqn:Hrel; [|apply quiet_raise].
  destruct (if String.eqb directory_name "keos-projects" then _ else false).
  { by apply quiet_mret. }
  destruct (fs_lookup w _) as [e|] eqn:Hlook; [|by apply quiet_mret].
  eapply quiet_bind; [apply get_file_hash_quiet|].
  intros original_hash _. case_bool_decide; apply quiet_mret; [|done].
  intros v [= <-]. unfold recorded; cbn. repeat split; try done.
  by rewrite Hlook.
Qed.

Lemma scan_files_recorded (root : string) (entries : list entry) :
  quiet (scan_files w directory_name cumulative_whitelist current_project_num
           root entries)
        (Forall (recorded w directory_name)).
Proof.
  induction entries as [|[file digest|d sub] rest IH]; cbn [scan_files].
  - by apply quiet_mret.
  - eapply quiet_bind; [apply scan_file_recorded|]. intros v Hv.
    eapply quiet_bind; [apply IH|]. intros vs Hvs.
    apply quiet_mret. apply Forall_app. split; [|done].
    destruct v as [v|]; [|constructor]. constructor; [by apply Hv | constructor].
  - apply IH.
Qed.

Lemma walk_recorded (e : entry) (root : string) :
  quiet (walk w directory_name cumulative_whitelist current_project_num root e)
        (Forall (recorded w directory_name)).
Proof.
  revert root. induction e as [name digest|name children IH]
    using entry_nested_ind; intros root; cbn [walk].
  - by apply quiet_mret.
  - eapply quiet_bind; [apply scan_files_recorded|]. intros here Hhere.
    eapply quiet_bind with (P := Forall (recorded w directory_name)).
    + induction IH as [|sub rest Hsub _ IHrest].
      * by apply quiet_mret.
      * destruct sub as [f dg|d ch]; [apply IHrest|].
        destruct (keep_dir _ _ _ _); [|apply IHrest].
        eapply quiet_bind; [apply Hsub|]. intros vs Hvs.
        eapply quiet_bind; [apply IHrest|]. intros ws Hws.
        apply quiet_mret. apply Forall_app. done.
    + intros below Hbelow. apply quiet_mret. apply Forall_app. done.
Qed.

Lemma scan_recorded :
  quiet (scan w directory_name cumulative_whitelist current_project_num)
        (Forall (recorded w directory_name)).
Proof.
  unfold scan. destruct (fs_lookup w (check_dir w directory_name)).
  - apply walk_recorded.
  - by apply quiet_mret.
Qed.

Lemma bind_right_id {A} (m : M A) : m ≫= (fun a => mret a) = m.
Proof.
  destruct m as [[a|e|c] l]; [|done..].
  rewrite bind_returned. cbn. by rewrite List.app_nil_r.
Qed.

Lemma check_directory_integrity_eq (mode : string) :
  check_directory_integrity w directory_name cumulative_whitelist
    current_project_num mode
  = (vs ← scan w directory_name cumulative_whitelist current_project_num;
     report_violations w directory_name mode vs;;
     mret (List.map rel_path vs)).
Proof.
  unfold check_directory_integrity, scan.
  destruct (fs_lookup w (check_dir w directory_name)); [done|].
  by rewrite bind_mret.
Qed.

(** C8. When [check_directory_integrity] returns a list, its entries are
    the relative paths of the violations the scan recorded, and
    [is_ignored] classifies the path of each recorded file as not
    ignored: a file whose path is ignored is in no violation, whatever
    its content, the reference tree and the mode. *)
Theorem ignored_paths_never_violations (mode : string) (r : list string)
    (log : list event) :
  check_directory_integrity w directory_name cumulative_whitelist
    current_project_num mode = (Returned r, log) ->
  exists vs,
    scan w directory_name cumulative_whitelist current_project_num
    = (Returned vs, [])
    /\ r = List.map rel_path vs
    /\ (forall v, v ∈ vs ->
          is_ignored (file_path v) = false
          /\ Py.relative_to (file_path v) (check_dir w directory_name)
             = Some (rel_path v))
    /\ (forall p, is_ignored p = true -> forall v, v ∈ vs -> file_path v <> p).
Proof.
  rewrite check_directory_integrity_eq. intros H.
  destruct scan_recorded as [Hl Hq].
  destruct (scan w directory_name cumulative_whitelist current_project_num)
    as [[vs|e|c] l]; cbn in Hl; subst l; [|done..].
  specialize (Hq vs eq_refl). exists vs. split; [done|].
  rewrite bind_returned in H.
  assert (forall v, v ∈ vs -> is_ignored (file_path v) = false
            /\ Py.relative_to (file_path v) (check_dir w directory_name)
               = Some (rel_path v)) as Hv.
  { intros v Hin. rewrite Forall_forall in Hq.
    destruct (Hq v Hin) as (? & ? & _). done. }
  split; [|split; [exact Hv|]].
  - destruct (report_violations w directory_name mode vs) as [[[]|e|c] l];
      [|done..].
    rewrite bind_returned in H. cbn in H. congruence.
  - intros p Hp v Hin Heq. destruct (Hv v Hin) as [Hn _]. congruence.
Qed.

(** C9. A file that is not ignored and whose reference counterpart does
    not exist adds nothing: no violation, no exception, no event, so the
    scan of its directory goes on as if the file were not there; every
    violation the scan records has an existing reference file; and in
    every mode what is reported is computed from the recorded violations
    alone. *)
Theorem missing_reference_is_skipped (root file rel : string)
    (digest : option string) :
  is_ignored (Py.Path_div root file) = false ->
  Py.relative_to (Py.Path_div root file) (check_dir w directory_name)
  = Some rel ->
  fs_lookup w (Py.Path_div (Py.Path_div (original_dir w) directory_name) rel)
  = None ->
  scan_file w directory_name cumulative_whitelist current_project_num
    root file digest = (Returned None, [])
  /\ (forall rest,
        scan_files w directory_name cumulative_whitelist current_project_num
          root (File file digest :: rest)
        = scan_files w directory_name cumulative_whitelist current_project_num
            root rest)
  /\ (forall vs l,
        scan w directory_name cumulative_whitelist current_project_num
        = (Returned vs, l) ->
        forall v, v ∈ vs -> fs_lookup w (original_file v) <> None)
  /\ (forall mode,
        check_directory_integrity w directory_name cumulative_whitelist
          current_project_num mode
        = (vs ← scan w directory_name cumulative_whitelist current_project_num;
           report_violations w directory_name mode vs;;
           mret (List.map rel_path vs))).
Proof.
  intros Hig Hrel Hmissing.
  assert (scan_file w directory_name cumulative_whitelist current_project_num
            root file digest = (Returned None, [])) as Hskip.
  { unfold scan_file. rewrite Hig, Hrel. cbn [negb].
    destruct (if String.eqb directory_name "keos-projects" then _ else false);
      [done|].
    by rewrite Hmissing. }
  split; [exact Hskip|]. split; [|split].
  - intros rest. cbn [scan_files]. rewrite Hskip, bind_returned.
    cbn [option_list app].
    transitivity (scan_files w directory_name cumulative_whitelist
                    current_project_num root rest ≫= fun a => mret a);
      [|apply bind_right_id].
    by destruct (scan_files _ _ _ _ root rest ≫= _).
  - intros vs l Hscan v Hin. destruct scan_recorded as [_ Hq].
    rewrite Hscan in Hq. specialize (Hq vs eq_refl).
    rewrite Forall_forall in Hq. by destruct (Hq v Hin) as (_ & _ & _ & ?).
  - apply check_directory_integrity_eq.
Qed.

(** C10. When the directory to scan does not exist under the repository
    root, [check_directory_integrity] returns the empty list and produces
    no event (nothing printed, nothing copied), whatever the whitelist,
    the stage number and the mode. *)
Theorem missing_directory_scans_nothing (mode : string) :
  fs_lookup w (check_dir w directory_name) = None ->
  check_directory_integrity w directory_name cumulative_whitelist
    current_project_num mode = (Returned [], []).
Proof. intros H. unfold check_directory_integrity. by rewrite H. Qed.

End ScanFacts.

(** The scan of [keos] in [sample_fs], in restore mode: [main.rs] is
    copied back from its reference; the ignored [notes.o], the pruned
    [target], the new [new.rs] and the unchanged [src/lib.rs] are left. *)
Example sample_scan_restores :
  check_directory_integrity sample_fs "keos" [] 0 "override"
  = (Returned ["main.rs"],
     [Print (NL +:+ "keos/ - 1 violation(s):");
      Copy2 "/repo/keos-projects/.cargo/template/keos/main.rs"
            "/repo/keos/main.rs";
      Print "  RESTORED: main.rs (restored)"]).
Proof. vm_compute. reflexivity. Qed.

(** In [sample_fs], the object file [notes.o] differs from its reference
    and is ignored: the scan of [keos] reports [main.rs] only. *)
Lemma ignored_paths_sample :
  exists vs,
    scan sample_fs "keos" [] 0 = (Returned vs, [])
    /\ ["main.rs"] = List.map rel_path vs
    /\ (forall v, v ∈ vs ->
          is_ignored (file_path v) = false
          /\ Py.relative_to (file_path v) (check_dir sample_fs "keos")
             = Some (rel_path v))
    /\ (forall p, is_ignored p = true -> forall v, v ∈ vs -> file_path v <> p).
Proof.
  apply (ignored_paths_never_violations sample_fs "keos" [] 0 "warn" ["main.rs"]
           [Print (NL +:+ "keos/ - 1 violation(s):");
            Print "  main.rs (MODIFIED)"]).
  vm_compute. reflexivity.
Defined.

(** In [sample_fs], [new.rs] has no reference file. *)
Lemma missing_reference_sample :
  scan_file sample_fs "keos" [] 0 "/repo/keos" "new.rs" (Some "cc")
  = (Returned None, []).
Proof.
  apply (missing_reference_is_skipped sample_fs "keos" [] 0
           "/repo/keos" "new.rs" "new.rs" (Some "cc"));
    vm_compute; reflexivity.
Defined.

(** [sample_fs] has no directory [/repo/fs]. *)
Lemma missing_directory_sample :
  check_directory_integrity sample_fs "fs" [] 0 "override" = (Returned [], []).
Proof.
  apply (missing_directory_scans_nothing sample_fs "fs" [] 0 "override").
  vm_compute. reflexivity.
Defined.

(** ** Live capture *)

Section LiveFacts.

Lemma live_loop_eq (reads : list string) (output : string) :
  live_loop reads output
  = (Returned (live_buffer reads output),
     StdoutWrite <$> filter (fun out => has_clear out = false) reads).
Proof.
  revert output. induction reads as [|out reads IH]; intros output.
  - reflexivity.
  - cbn [live_loop live_buffer fold_left]. fold (has_clear out).
    rewrite filter_cons.
    destruct (has_clear out) eqn:Hc.
    + rewrite IH. by rewrite decide_False.
    + rewrite bind_emit, IH. by rewrite decide_True.
Qed.

Lemma live_buffer_no_clear (post : list string) (output : string) :
  Forall (fun out => has_clear out = false) post ->
  live_buffer post output = output +:+ Py.join "" post.
Proof.
  intros H. revert output. induction H as [|out post Hout Hpost IH];
    intros output; cbn [live_buffer fold_left].
  - by rewrite sapp_nil_r.
  - rewrite Hout. fold (live_buffer post (output +:+ out)). rewrite IH.
    rewrite sapp_assoc. f_equal. destruct post; [by rewrite sapp_nil_r|done].
Qed.

Lemma live_buffer_app (pre post : list string) (output : string) :
  live_buffer (pre ++ post) output
  = live_buffer post (live_buffer pre output).
Proof. unfold live_buffer. by rewrite fold_left_app. Qed.

Lemma live_buffer_after_clear (pre post : list string) (output : string) :
  (pre = [] /\ output = ""
   \/ exists pre' c, pre = pre' ++ [c] /\ has_clear c = true) ->
  Forall (fun out => has_clear out = false) post ->
  live_buffer (pre ++ post) output = Py.join "" post.
Proof.
  intros Hpre Hpost. rewrite live_buffer_app.
  assert (live_buffer pre output = "") as ->.
  { destruct Hpre as [[-> ->]|(pre' & c & -> & Hc)]; [done|].
    rewrite live_buffer_app. cbn. by rewrite Hc. }
  by rewrite live_buffer_no_clear.
Qed.


End LiveFacts.

(** The lines read from a pipe make up its stream. *)
Lemma read_lines_join (stream : string) :
  Py.join "" (read_lines stream) = stream.
Proof.
  induction stream as [|c s IH]; [reflexivity|]. cbn [read_lines].
  destruct (Ascii.eqb c "010"%char).
  - destruct (read_lines s) as [|line lines] eqn:E.
    + cbn in IH. by rewrite <- IH.
    + rewrite join_cons by done. by rewrite IH.
  - destruct (read_lines s) as [|line lines] eqn:E.
    + cbn in IH. by rewrite <- IH.
    + destruct lines as [|l2 lines]; [cbn in IH |- *; by rewrite IH|].
      rewrite join_cons by done. rewrite join_cons in IH by done.
      by rewrite sapp_cons, IH.
Qed.

(** C1 (as amended). In live mode, when the launch succeeds, the lines
    written to the console are the lines read that do not contain the
    clear-screen sequence, in order; a line that contains it is not
    written and empties the buffer; the text returned is what was read
    after the last such line. *)
Theorem live_capture_after_clear (w : world) (run_command : list string)
    (target : string) (cpu : Z) (mem : string) (timeout : num)
    (pre post : list string) :
  let argv := emulator_argv run_command cpu mem in
  let p := w ("--quite " +:+ target) argv in
  launch_error p = None ->
  live_reads p = pre ++ post ->
  (pre = [] \/ exists pre' c, pre = pre' ++ [c] /\ has_clear c = true) ->
  Forall (fun out => has_clear out = false) post ->
  utf8_valid (Py.join "" post) = true ->
  grade_single w run_command target cpu mem timeout true
  = (Returned (Py.join "" post),
     [WriteBootConfig ("--quite " +:+ target); Launch argv None]
     ++ (StdoutWrite <$> filter (fun out => has_clear out = false) (live_reads p))
     ++ [Print "---------"]).
Proof.
  intros argv p Hlaunch Hreads Hpre Hpost Hvalid.
  unfold grade_single, setup_kernel_arguments. rewrite bind_emit.
  fold argv. fold p. rewrite bind_emit, Hlaunch, live_loop_eq, bind_returned.
  rewrite bind_emit. unfold decode_utf8.
  rewrite Hreads, live_buffer_after_clear, Hvalid; [done| |done].
  destruct Hpre as [->|H]; [by left | by right].
Qed.

(** The stream [line1], clear-screen, [line2] is read as the two lines
    [line1] and clear-screen with [line2]: the second one is dropped
    whole, so the buffer returned is empty and only [line1] was written
    to the console. *)
Lemma live_capture_scenario :
  grade_single live_world ["qemu"] "t" 4 "512M" (PyInt 30) true
  = (Returned "",
     [WriteBootConfig "--quite t";
      Launch ["qemu"; "-smp"; "4"; "-m"; "512M"] None;
      StdoutWrite ("line1" +:+ NL);
      Print "---------"]).
Proof.
  apply (live_capture_after_clear live_world ["qemu"] "t" 4 "512M" (PyInt 30)
           ["line1" +:+ NL; CLEAR_SCREEN +:+ "line2" +:+ NL] []).
  - reflexivity.
  - reflexivity.
  - right. exists ["line1" +:+ NL], (CLEAR_SCREEN +:+ "line2" +:+ NL).
    split; reflexivity.
  - constructor.
  - reflexivity.
Defined.

(** C1 (as stated) fails: the stream of the scenario is read as [line1]
    and clear-screen with [line2]; the buffer returned is not [line2],
    and of what was read only [line1] was written to the console. *)
Lemma clear_line_not_mirrored :
  live_reads (live_world "--quite t" (emulator_argv ["qemu"] 4 "512M"))
  = ["line1" +:+ NL; CLEAR_SCREEN +:+ "line2" +:+ NL]
  /\ (grade_single live_world ["qemu"] "t" 4 "512M" (PyInt 30) true).1
     <> Returned ("line2" +:+ NL)
  /\ List.filter is_write
       (grade_single live_world ["qemu"] "t" 4 "512M" (PyInt 30) true).2
     = [StdoutWrite ("line1" +:+ NL)].
Proof. split; [reflexivity|]. split; [|reflexivity]. vm_compute. discriminate. Qed.

(** ** Blocking capture *)

Lemma grade_single_returns (w : world) (run_command : list string)
    (target : string) (cpu : Z) (mem : string) (timeout : num) (live : bool) :
  exists output log,
    grade_single w run_command target cpu mem timeout live
    = (Returned output, WriteBootConfig ("--quite " +:+ target) :: log).
Proof.
  unfold grade_single, setup_kernel_arguments. rewrite bind_emit.
  match goal with
  | |- context [try_except ?m ?h] =>
    destruct (try_except_returns m h) as (a & l & ->)
  end.
  - destruct live.
    + apply no_exit_bind; [apply no_exit_emit|]. intros _.
      destruct (launch_error _); [apply no_exit_raise|].
      rewrite live_loop_eq, bind_returned, bind_emit.
      intros c. cbn. apply decode_utf8_no_exit.
    + apply no_exit_bind; [apply no_exit_lift, float_of_num_no_exit|].
      intros t. apply no_exit_bind; [apply subprocess_run_no_exit|].
      intros r. apply no_exit_mret.
  - intros e. eexists _, _. by rewrite bind_emit.
  - by eexists _, _.
Qed.


Lemma grade_single_blocking_raise (w : world) (run_command : list string)
    (target : string) (cpu : Z) (mem : string) (timeout : num)
    (t : float) (e : exn) :
  let argv := emulator_argv run_command cpu mem in
  let p := w ("--quite " +:+ target) argv in
  float_of_num timeout = Returned t ->
  (launch_error p = Some e
   \/ launch_error p = None /\ PrimFloat.ltb t (duration p) = true
      /\ e = TimeoutExpired (stdout_bytes p)) ->
  grade_single w run_command target cpu mem timeout false
  = (Returned "timeout",
     [WriteBootConfig ("--quite " +:+ target); Launch argv (Some t);
      PrintExn e]).
Proof.
  intros argv p Ht Hp.
  unfold grade_single, setup_kernel_arguments. rewrite bind_emit.
  fold argv. unfold lift. rewrite Ht, bind_returned.
  unfold subprocess_run. rewrite bind_emit. fold p.
  destruct Hp as [->|(-> & -> & ->)]; reflexivity.
Qed.

Lemma decode_text_cases (b : string) :
  (exists s, decode_text b = (Returned s, []))
  \/ decode_text b = (Raised UnicodeDecodeError, []).
Proof.
  unfold decode_text, decode_utf8. destruct (utf8_valid b).
  - left. eexists. by rewrite bind_mret.
  - by right.
Qed.

(** In blocking mode the text returned is the sentinel, after an
    exception was printed, or the whole output of a process that was
    launched and ended within its timeout. *)
Lemma grade_single_blocking_cases (w : world) (run_command : list string)
    (target : string) (cpu : Z) (mem : string) (timeout : num) :
  let argv := emulator_argv run_command cpu mem in
  let p := w ("--quite " +:+ target) argv in
  (exists e log,
     grade_single w run_command target cpu mem timeout false
     = (Returned "timeout", log ++ [PrintExn e]))
  \/ (exists t out,
        float_of_num timeout = Returned t
        /\ launch_error p = None
        /\ PrimFloat.ltb t (duration p) = false
        /\ decode_text (stdout_bytes p) = (Returned out, [])
        /\ grade_single w run_command target cpu mem timeout false
           = (Returned out,
              [WriteBootConfig ("--quite " +:+ target); Launch argv (Some t)])).
Proof.
  intros argv p. unfold grade_single, setup_kernel_arguments.
  rewrite bind_emit. fold argv. unfold lift.
  destruct (float_of_num timeout) as [t|e|c] eqn:Ht.
  - rewrite bind_returned. unfold subprocess_run. rewrite bind_emit. fold p.
    destruct (launch_error p) as [e|] eqn:Hl.
    { left. by exists e, [WriteBootConfig ("--quite " +:+ target);
                          Launch argv (Some t)]. }
    destruct (PrimFloat.ltb t (duration p)) eqn:Hd.
    { left. by exists (TimeoutExpired (stdout_bytes p)),
                      [WriteBootConfig ("--quite " +:+ target);
                       Launch argv (Some t)]. }
    destruct (decode_text_cases (stdout_bytes p)) as [[out Ho]|Ho]; rewrite Ho.
    2:{ left. by exists UnicodeDecodeError,
                        [WriteBootConfig ("--quite " +:+ target);
                         Launch argv (Some t)]. }
    rewrite bind_returned.
    destruct (decode_text_cases (stderr_bytes p)) as [[err He]|He]; rewrite He.
    2:{ left. by exists UnicodeDecodeError,
                        [WriteBootConfig ("--quite " +:+ target);
                         Launch argv (Some t)]. }
    right. exists t, out. by rewrite bind_returned.
  - left. by exists e, [WriteBootConfig ("--quite " +:+ target)].
  - by destruct (float_of_num_no_exit timeout c).
Qed.

(** ** Secondary validation *)

Lemma run_post_hook_returns (w : world) (name : string) (argv : list string)
    (timeout : num) (output : string) :
  exists r log, run_post_hook w name argv timeout output = (Returned r, log).
Proof.
  unfold run_post_hook. apply try_except_returns.
  - apply no_exit_bind; [apply no_exit_lift, float_of_num_no_exit|].
    intros t. apply no_exit_bind; [apply subprocess_run_no_exit|].
    intros r. destruct (negb _); apply no_exit_mret.
  - intros e. by eexists _, _.
Qed.


Lemma classify_returns (w : world) (name : string) (conf : test_conf)
    (timeout : num) (passed : bool) (output : string) :
  exists r log, classify w name conf timeout passed output = (Returned r, log).
Proof.
  unfold classify. destruct passed; [|by eexists _, _].
  destruct (conf_post_hook conf) as [[argv|]|]; try by eexists _, _.
  apply run_post_hook_returns.
Qed.

(** ** Grading one test *)

Lemma grade_test_eq (w : world) (run_command : list string)
    (filt : option (list string)) (name : string) (conf : test_conf)
    (output : string) (l1 l2 : list event) (r : test_result) :
  let timeout := default (PyInt 30) (conf_timeout conf) in
  grade_single w run_command name (default 4 (conf_cpu conf))
    (default "512M" (conf_mem conf)) timeout (is_Some_b filt)
  = (Returned output, l1) ->
  classify w name conf timeout (Py.contains SUCCESS_MARKER output) output
  = (Returned r, l2) ->
  grade_test w run_command filt name conf
  = if is_Some_b filt && Py.contains "panic" output
    then (Returned None, progress_line filt name ++ l1)
    else (Returned (Some r),
          progress_line filt name ++ l1 ++ l2 ++ verdict_line filt r.1).
Proof.
  intros timeout Hsingle Hclassify. unfold grade_test. fold timeout.
  rewrite Hsingle. unfold progress_line, verdict_line.
  destruct (is_Some_b filt); cbn [negb andb].
  - rewrite bind_mret, bind_returned.
    destruct (Py.contains "panic" output).
    + unfold mret, M_ret. cbn [fst snd]. by rewrite List.app_nil_r.
    + rewrite Hclassify, bind_returned, bind_mret.
      unfold mret, M_ret. cbn [fst snd]. by rewrite !List.app_nil_r.
  - rewrite bind_emit, bind_returned, Hclassify, bind_returned, bind_emit.
    unfold mret, M_ret. cbn [fst snd]. reflexivity.
Qed.

Lemma grade_test_batch (w : world) (run_command : list string)
    (name : string) (conf : test_conf) :
  exists r log,
    grade_test w run_command None name conf = (Returned (Some r), log)
    /\ WriteBootConfig ("--quite " +:+ name) ∈ log.
Proof.
  destruct (grade_single_returns w run_command name (default 4 (conf_cpu conf))
              (default "512M" (conf_mem conf))
              (default (PyInt 30) (conf_timeout conf)) false)
    as (output & l1 & Hsingle).
  destruct (classify_returns w name conf (default (PyInt 30) (conf_timeout conf))
              (Py.contains SUCCESS_MARKER output) output) as (r & l2 & Hc).
  rewrite (grade_test_eq w run_command None name conf _ _ _ _ Hsingle Hc).
  cbn [is_Some_b andb]. eexists _, _. split; [done|].
  unfold progress_line. cbn [is_Some_b]. set_solver.
Qed.

Lemma grade_tests_batch (w : world) (run_command : list string)
    (rname : string) (ts : list (string * test_conf)) (g : grading_result)
    (tpassed : Z) :
  exists g' tpassed' log,
    grade_tests w run_command None rname ts g tpassed
    = (Returned (Some (g', tpassed')), log)
    /\ forall name conf, (name, conf) ∈ ts ->
         WriteBootConfig ("--quite " +:+ name) ∈ log.
Proof.
  revert g tpassed. induction ts as [|[name conf] ts IH]; intros g tpassed.
  - eexists _, _, _. split; [done|]. intros ?? Hin.
    by apply elem_of_nil in Hin.
  - cbn [grade_tests filtered_out].
    destruct (grade_test_batch w run_command name conf)
      as ([passed output] & l1 & -> & Hin1).
    rewrite bind_returned.
    destruct (IH (result_set g rname name (passed, output))
                 (tpassed + Z.b2z passed)) as (g' & tp' & l2 & -> & Hin2).
    eexists _, _, _. split; [done|]. cbn [snd].
    intros n c Hin. apply elem_of_cons in Hin as [[= -> ->]|Hin].
    + set_solver.
    + specialize (Hin2 n c Hin). set_solver.
Qed.

Lemma grade_rubrics_batch (w : world) (run_command : list string)
    (rs : list (string * rubric)) (g : grading_result) (tpassed : Z) :
  exists g' log,
    grade_rubrics w run_command None rs g tpassed = (Returned (Some g'), log)
    /\ forall rname rb name conf,
         (rname, rb) ∈ rs -> (name, conf) ∈ tests rb ->
         WriteBootConfig ("--quite " +:+ name) ∈ log.
Proof.
  revert g tpassed. induction rs as [|[rname rb] rs IH]; intros g tpassed.
  - eexists _, _. split; [done|]. intros ???? Hin.
    by apply elem_of_nil in Hin.
  - cbn [grade_rubrics].
    destruct (grade_tests_batch w run_command rname (tests rb)
                (dict_set String.eqb g rname []) tpassed)
      as (g1 & tp1 & l1 & -> & Hin1).
    rewrite bind_returned.
    destruct (IH g1 tp1) as (g' & l2 & -> & Hin2).
    eexists _, _. split; [done|]. cbn [snd].
    intros rn r n c Hin Hn. apply elem_of_cons in Hin as [[= -> ->]|Hin].
    + specialize (Hin1 n c Hn). set_solver.
    + specialize (Hin2 rn r n c Hin Hn). set_solver.
Qed.

Lemma grade_batch (w : world) (pj : Z) (run_command : list string)
    (rubrics : list (string * rubric)) :
  exists g log,
    grade w pj run_command rubrics None = (Returned (Some g), log)
    /\ forall rname rb name conf,
         (rname, rb) ∈ rubrics -> (name, conf) ∈ tests rb ->
         WriteBootConfig ("--quite " +:+ name) ∈ log.
Proof.
  unfold grade. cbn [is_Some_b negb]. rewrite bind_emit.
  destruct (grade_rubrics_batch w run_command rubrics [] 0)
    as (g & l & -> & Hin).
  eexists _, _. split; [done|]. cbn [snd].
  intros rn r n c H1 H2. specialize (Hin rn r n c H1 H2). set_solver.
Qed.

(** ** Claims on grading *)



(** C4 (as amended). The verdict of a test starts from the marker test on
    its captured output, which is what [classify] receives: a test counts
    as passed only if its output contains the success marker, and, no
    list-valued post-hook being configured, exactly if it does. For the
    rubric [core] of weight 10 with the tests [t1]
    (one passed, none failed) and [t2] (none passed, one failed), [grade]
    classifies [t1] as passed and [t2] as failed, and [summarize] reports
    5.0 of 10 for the rubric and does not print the all-passed banner. *)
Theorem marker_decides_pass :
  (forall w run_command filt name conf r log,
     grade_test w run_command filt name conf = (Returned (Some r), log) ->
     exists output l1 l2,
       grade_single w run_command name (default 4 (conf_cpu conf))
         (default "512M" (conf_mem conf))
         (default (PyInt 30) (conf_timeout conf)) (is_Some_b filt)
       = (Returned output, l1)
       /\ classify w name conf (default (PyInt 30) (conf_timeout conf))
            (Py.contains SUCCESS_MARKER output) output = (Returned r, l2)
       /\ (r.1 = true -> Py.contains SUCCESS_MARKER output = true)
       /\ ((forall argv, conf_post_hook conf <> Some (HookList argv)) ->
           r = (Py.contains SUCCESS_MARKER output, output)))
  /\ (forall run_command,
        (grade two_tests_world 1 run_command core_rubrics None).1
        = Returned (Some
            [("core",
              [("t1", (true, "test result: ok. 1 passed; 0 failed"));
               ("t2", (false, "test result: ok. 0 passed; 1 failed"))])]))
  /\ summarize 1 core_rubrics
       [("core",
         [("t1", (true, "test result: ok. 1 passed; 0 failed"));
          ("t2", (false, "test result: ok. 0 passed; 1 failed"))])]
     = (Returned tt,
        [Print "----------------"; Print "Test Summary of `keos-project1`:";
         PrintRubric "core" 5%float (PyInt 10)
           ("- pass: t1" +:+ NL +:+ "- fail: t2");
         Print "----------------"; Print "TEST SUMMARY: 1 of 2 passed";
         PrintTotal 5%float (PyInt 10); Print "----------------";
         Print "TEST `t2`: test result: ok. 0 passed; 1 failed"]).
Proof.
  split; [|split].
  - intros w run_command filt name conf r log Hg.
    destruct (grade_single_returns w run_command name
                (default 4 (conf_cpu conf)) (default "512M" (conf_mem conf))
                (default (PyInt 30) (conf_timeout conf)) (is_Some_b filt))
      as (output & l1 & Hs).
    destruct (classify_returns w name conf (default (PyInt 30) (conf_timeout conf))
                (Py.contains SUCCESS_MARKER output) output) as (r' & l2 & Hc).
    rewrite (grade_test_eq _ _ _ _ _ _ _ _ _ Hs Hc) in Hg.
    destruct (is_Some_b filt && Py.contains "panic" output); [done|].
    injection Hg as <- _. eexists output, _, l2. split; [exact Hs|].
    split; [exact Hc|]. unfold classify in Hc.
    destruct (Py.contains SUCCESS_MARKER output) eqn:Hm.
    + split; [done|]. intros Hno.
      destruct (conf_post_hook conf) as [[argv|]|]; try by injection Hc.
      by destruct (Hno argv).
    + injection Hc as <- _. split; [done | by intros _].
  - intros run_command. reflexivity.
  - vm_compute. reflexivity.
Qed.

(** With no secondary validation configured, the verdict of test [t1] of
    the sample rubric is the marker test on its output. *)
Lemma marker_decides_pass_sample :
  exists output l1 l2,
    grade_single two_tests_world ["qemu"] "t1" 4 "512M" (PyInt 30) false
    = (Returned output, l1)
    /\ classify two_tests_world "t1" no_conf (PyInt 30)
         (Py.contains SUCCESS_MARKER output) output
       = (Returned (true, "test result: ok. 1 passed; 0 failed"), l2)
    /\ ((true, "test result: ok. 1 passed; 0 failed").1 = true ->
        Py.contains SUCCESS_MARKER output = true)
    /\ ((forall argv, conf_post_hook no_conf <> Some (HookList argv)) ->
        (true, "test result: ok. 1 passed; 0 failed")
        = (Py.contains SUCCESS_MARKER output, output)).
Proof.
  apply (proj1 marker_decides_pass two_tests_world ["qemu"] None "t1" no_conf
           (true, "test result: ok. 1 passed; 0 failed")
           [PrintEnd "Running test: t1 ... "; WriteBootConfig "--quite t1";
            Launch ["qemu"; "-smp"; "4"; "-m"; "512M"] (Some 30%float);
            Print "ok"]).
  vm_compute. reflexivity.
Defined.

(** C4 (as stated) fails: in [hook_world] the captured output of the test
    [t] holds the success marker, and the test is recorded as failed,
    because the command of its post-hook exits with status 1. *)
Lemma marker_present_test_failed :
  (grade_single hook_world ["qemu"] "t" 4 "512M" (PyInt 5) false).1
  = Returned SUCCESS_MARKER
  /\ Py.contains SUCCESS_MARKER SUCCESS_MARKER = true
  /\ (grade_test hook_world ["qemu"] None "t" hook_conf).1
     = Returned (Some (false,
                       SUCCESS_MARKER +:+ NL
                       +:+ "POST-HOOK [`check`] Failed: bad")).
Proof. split; [|split]; vm_compute; reflexivity. Qed.

(** C5. In blocking mode, when the launch raises or the process outlives
    its timeout, [grade_single] returns exactly ["timeout"] (what had been
    captured stays in the exception); no exception leaves [grade_single]:
    it returns the sentinel after printing the exception, or else the
    whole output of a process that ended in time; the test is recorded as
    failed with the sentinel as output; and batch grading returns its
    result after having run every test of every rubric. *)
Theorem blocking_timeout_is_sentinel (w : world) (run_command : list string) :
  (forall target cpu mem timeout t e,
     let argv := emulator_argv run_command cpu mem in
     let p := w ("--quite " +:+ target) argv in
     float_of_num timeout = Returned t ->
     (launch_error p = Some e
      \/ launch_error p = None /\ PrimFloat.ltb t (duration p) = true
         /\ e = TimeoutExpired (stdout_bytes p)) ->
     grade_single w run_command target cpu mem timeout false
     = (Returned "timeout",
        [WriteBootConfig ("--quite " +:+ target); Launch argv (Some t);
         PrintExn e]))
  /\ (forall target cpu mem timeout,
        let argv := emulator_argv run_command cpu mem in
        let p := w ("--quite " +:+ target) argv in
        (exists e log,
           grade_single w run_command target cpu mem timeout false
           = (Returned "timeout", log ++ [PrintExn e]))
        \/ (exists t out,
              float_of_num timeout = Returned t
              /\ launch_error p = None
              /\ PrimFloat.ltb t (duration p) = false
              /\ decode_text (stdout_bytes p) = (Returned out, [])
              /\ grade_single w run_command target cpu mem timeout false
                 = (Returned out,
                    [WriteBootConfig ("--quite " +:+ target);
                     Launch argv (Some t)])))
  /\ (forall name conf t e,
        let argv := emulator_argv run_command (default 4 (conf_cpu conf))
                      (default "512M" (conf_mem conf)) in
        let p := w ("--quite " +:+ name) argv in
        float_of_num (default (PyInt 30) (conf_timeout conf)) = Returned t ->
        (launch_error p = Some e
         \/ launch_error p = None /\ PrimFloat.ltb t (duration p) = true
            /\ e = TimeoutExpired (stdout_bytes p)) ->
        grade_test w run_command None name conf
        = (Returned (Some (false, "timeout")),
           [PrintEnd ("Running test: " +:+ name +:+ " ... ");
            WriteBootConfig ("--quite " +:+ name); Launch argv (Some t);
            PrintExn e; Print "fail"]))
  /\ (forall pj rubrics,
        exists g log,
          grade w pj run_command rubrics None = (Returned (Some g), log)
          /\ forall rname rb name conf,
               (rname, rb) ∈ rubrics -> (name, conf) ∈ tests rb ->
               WriteBootConfig ("--quite " +:+ name) ∈ log).
Proof.
  split; [|split; [|split]].
  - intros. by apply grade_single_blocking_raise.
  - intros target cpu mem timeout. apply grade_single_blocking_cases.
  - intros name conf t e argv p Ht Hp.
    erewrite grade_test_eq;
      [|by apply grade_single_blocking_raise|reflexivity].
    reflexivity.
  - intros pj rubrics. apply grade_batch.
Qed.

(** A process that needs sixty seconds under a timeout of thirty. *)
Lemma slow_process_yields_sentinel :
  grade_single slow_world ["qemu"] "t" 4 "512M" (PyInt 30) false
  = (Returned "timeout",
     [WriteBootConfig "--quite t";
      Launch ["qemu"; "-smp"; "4"; "-m"; "512M"] (Some 30%float);
      PrintExn (TimeoutExpired "partial")]).
Proof.
  apply (proj1 (blocking_timeout_is_sentinel slow_world ["qemu"])
           "t" 4 "512M" (PyInt 30) 30%float (TimeoutExpired "partial")).
  - vm_compute. reflexivity.
  - right. repeat split; vm_compute; reflexivity.
Defined.

(** ** The score report *)

(** [m] ends with an exception. *)
Lemma raises_bind_l {A B} (m : M A) (f : A -> M B) :
  (exists e l, m = (Raised e, l)) -> exists e l, m ≫= f = (Raised e, l).
Proof. intros (e & l & ->). by exists e, l. Qed.

Lemma raises_bind_r {A B} (m : M A) (f : A -> M B) :
  no_exit m -> (forall a, exists e l, f a = (Raised e, l)) ->
  exists e l, m ≫= f = (Raised e, l).
Proof.
  intros Hm Hf. destruct m as [[a|e|c] l].
  - rewrite bind_returned. destruct (Hf a) as (e & l' & ->). by eexists _, _.
  - by exists e, l.
  - by destruct (Hm c).
Qed.

Lemma num_add_no_exit (a b : num) (c : Z) : num_add a b <> Exited c.
Proof.
  destruct a as [x|f], b as [y|g]; unfold num_add; try done.
  - pose proof (float_of_int_no_exit x) as H.
    destruct (float_of_int x) as [?|?|c']; [done..|]. by destruct (H c').
  - pose proof (float_of_int_no_exit y) as H.
    destruct (float_of_int y) as [?|?|c']; [done..|]. by destruct (H c').
Qed.

Lemma summarize_rubrics_empty_faults (rubrics : list (string * rubric))
    (g : grading_result) (t : tally) (rname : string) :
  (rname, []) ∈ g ->
  exists e l, summarize_rubrics rubrics g t = (Raised e, l).
Proof.
  revert t. induction g as [|[rn rubric] rest IH]; intros t Hin.
  { by apply elem_of_nil in Hin. }
  cbn [summarize_rubrics].
  destruct (dict_get String.eqb rubrics rn) as [rb|]; [|by eexists _, _].
  apply raises_bind_r; [apply no_exit_lift, num_add_no_exit|].
  intros max_score'.
  apply elem_of_cons in Hin as [[= <- <-]|Hin].
  - cbn [List.length summarize_tests rt_rscore].
    change (lift (float_of_int (Z.of_nat 0))) with (mret 0%float : M float).
    rewrite bind_mret. apply raises_bind_l.
    unfold int_truediv_float.
    change (lift (float_of_int 0)) with (mret 0%float : M float).
    rewrite bind_mret. by eexists _, _.
  - apply raises_bind_r; [apply no_exit_lift, float_of_int_no_exit|].
    intros len. apply raises_bind_r.
    { unfold int_truediv_float.
      apply no_exit_bind; [apply no_exit_lift, float_of_int_no_exit|].
      intros f. destruct (PrimFloat.eqb len 0); [apply no_exit_raise|].
      apply no_exit_mret. }
    intros q. apply raises_bind_r.
    { unfold float_mul_num.
      apply no_exit_bind; [apply no_exit_lift, float_of_num_no_exit|].
      intros f. apply no_exit_mret. }
    intros this_score. rewrite !bind_emit.
    match goal with
    | |- context [summarize_rubrics rubrics rest ?t'] =>
      destruct (IH t' Hin) as (e & l & ->)
    end.
    by eexists _, _.
Qed.

(** C2 fails on the code. A grading result with a rubric that has no test
    makes [summarize] end with an exception, never with a report; for the
    rubric [r] without tests, which [grade] turns into the empty result
    [r], the exception is [ZeroDivisionError], raised after the two
    header lines. *)
Theorem summarize_faults_on_empty_rubric :
  (forall pj rubrics g rname,
     (rname, []) ∈ g ->
     exists e l, summarize pj rubrics g = (Raised e, l))
  /\ (grade quiet_world 1 ["qemu"] empty_rubrics None).1
     = Returned (Some [("r", [])])
  /\ summarize 1 empty_rubrics [("r", [])]
     = (Raised ZeroDivisionError,
        [Print "----------------"; Print "Test Summary of `keos-project1`:"]).
Proof.
  split; [|split].
  - intros pj rubrics g rname Hin. unfold summarize. rewrite !bind_emit.
    destruct (summarize_rubrics_empty_faults rubrics g
                {| failed := []; max_score := PyInt 0; total_score := 0%float;
                   n_tests := 0; n_passed := 0 |} rname Hin) as (e & l & ->).
    by eexists _, _.
  - reflexivity.
  - vm_compute. reflexivity.
Qed.

(** The rubric [r] without tests. *)
Lemma summarize_empty_rubric_sample :
  exists e l, summarize 1 empty_rubrics [("r", [])] = (Raised e, l).
Proof.
  apply (proj1 summarize_faults_on_empty_rubric 1 empty_rubrics
           [("r", [])] "r").
  set_solver.
Defined.

(* ===================================================================== *)
(** * Further properties                                                  *)
(* ===================================================================== *)

(** ** [strip_unprintable] *)




(** ** The per-stage details of [build_cumulative_whitelist] *)

Lemma dict_set_fresh {V} (d : list (Z * V)) (k : Z) (v : V) :
  k ∉ d.*1 -> dict_set Z.eqb d k v = d ++ [(k, v)].
Proof.
  induction d as [|[k' v'] d IH]; intros Hk; [done|].
  cbn [dict_set]. rewrite fmap_cons, not_elem_of_cons in Hk.
  destruct Hk as [Hne Hk]. cbn [fst] in Hne.
  destruct (Z.eqb_spec k' k) as [->|_]; [done|]. by rewrite IH.
Qed.

Lemma NoDup_range (a b : Z) : NoDup (range a b).
Proof.
  unfold range. apply NoDup_ListNoDup, Finite.Injective_map_NoDup.
  - intros i j. lia.
  - apply List.seq_NoDup.
Qed.

Lemma declared_details_keys (targets : Z -> grade_target) (nums : list Z)
    (k : Z) :
  k ∈ (declared_details targets nums).*1 -> k ∈ nums.
Proof.
  unfold declared_details. rewrite <- list_fmap_compose.
  intros (j & -> & Hj)%list_elem_of_fmap.
  apply list_elem_of_In, List.filter_In in Hj as [Hj _].
  by apply list_elem_of_In.
Qed.

Lemma fold_whitelist_details (targets : Z -> grade_target) (nums : list Z)
    (acc : gset string * list (Z * list string)) :
  NoDup nums -> (forall k, k ∈ nums -> k ∉ acc.2.*1) ->
  (fold_left (whitelist_step targets) nums acc).2
  = acc.2 ++ declared_details targets nums.
Proof.
  intros Hnd. revert acc.
  induction Hnd as [|k nums Hk Hnd IH]; intros acc Hfresh.
  - unfold declared_details. cbn. by rewrite List.app_nil_r.
  - cbn [fold_left]. rewrite IH.
    + unfold whitelist_step, declared_details. cbn [List.filter].
      destruct (get_project_whitelist targets k) as [|x l] eqn:Hw.
      * by rewrite bool_decide_true.
      * rewrite bool_decide_false by done. cbn [negb List.map snd].
        rewrite dict_set_fresh by (apply Hfresh; set_solver).
        by rewrite <- List.app_assoc, Hw.
    + intros j Hj. unfold whitelist_step.
      destruct (get_project_whitelist targets k); cbn [snd].
      * apply Hfresh. set_solver.
      * rewrite dict_set_fresh by (apply Hfresh; set_solver).
        rewrite fmap_app. cbn. intros [Hin|Hin%list_elem_of_singleton]%elem_of_app.
        -- revert Hin. apply Hfresh. set_solver.
        -- by subst.
Qed.

Lemma dict_get_declared (targets : Z -> grade_target) (nums : list Z) (k : Z) :
  dict_get Z.eqb (declared_details targets nums) k
  = if bool_decide (k ∈ nums)
       && negb (bool_decide (get_project_whitelist targets k = []))
    then Some (get_project_whitelist targets k) else None.
Proof.
  unfold declared_details. induction nums as [|j nums IH].
  - done.
  - cbn [List.filter].
    destruct (negb (bool_decide (get_project_whitelist targets j = [])))
      eqn:Hj; cbn [List.map dict_get].
    + destruct (Z.eqb_spec j k) as [->|Hne].
      * rewrite bool_decide_true by set_solver. by rewrite Hj.
      * rewrite IH. repeat case_bool_decide; try done; set_solver.
    + rewrite IH. destruct (decide (j = k)) as [->|Hne].
      * rewrite Hj. by rewrite !andb_false_r.
      * repeat case_bool_decide; try done; set_solver.
Qed.

(** The second result of [build_cumulative_whitelist] lists, in
    increasing order of stage, the stages of 1..n whose declaration is
    not empty, each with its declaration as declared (order and
    repetitions kept); a stage outside 1..n, or with a missing,
    unparsable or empty declaration, is not a key of it. *)
Theorem project_details_are_declarations (targets : Z -> grade_target)
    (n : Z) :
  (build_cumulative_whitelist targets n).2
  = declared_details targets (range 1 (n + 1))
  /\ forall k,
       dict_get Z.eqb (build_cumulative_whitelist targets n).2 k
       = if (1 <=? k) && (k <=? n)
            && negb (bool_decide (get_project_whitelist targets k = []))
         then Some (get_project_whitelist targets k) else None.
Proof.
  assert ((build_cumulative_whitelist targets n).2
          = declared_details targets (range 1 (n + 1))) as Heq.
  { unfold build_cumulative_whitelist, whitelist_loop. cbn [snd].
    rewrite fold_whitelist_details; [done|apply NoDup_range|].
    intros k _. cbn. apply not_elem_of_nil. }
  split; [exact Heq|]. intros k. rewrite Heq, dict_get_declared.
  rewrite (bool_decide_ext _ (1 <= k < n + 1)) by apply elem_of_range.
  case_bool_decide; destruct (Z.leb_spec 1 k), (Z.leb_spec k n);
    cbn [andb]; try done; lia.
Qed.

(** ** The exemption by the whitelist *)

Lemma slength_app (a b : string) :
  String.length (a +:+ b) = (String.length a + String.length b)%nat.
Proof.
  induction a as [|c a IH]; [done|]. rewrite sapp_cons. cbn. by rewrite IH.
Qed.

Lemma replace_go_skip (old new a b : string) :
  Py.replace_go old new (a +:+ b) (String.length a)
  = Py.replace_go old new b O.
Proof.
  induction a as [|c a IH]; [done|]. rewrite sapp_cons. cbn. exact IH.
Qed.

Lemma replace_go_absent (old new s : string) :
  Py.contains old s = false -> Py.replace_go old new s O = s.
Proof.
  induction s as [|c s IH]; [done|]. rewrite contains_eq.
  cbn [Py.replace_go].
  destruct (String.prefix old (String c s)); [done|].
  intros H. by rewrite IH.
Qed.

(** Replacing a non-empty [old] in [old ++ s], where [s] does not hold
    [old], leaves [new ++ s]. *)
Lemma replace_leading (old new s : string) :
  old <> "" -> Py.contains old s = false ->
  Py.replace (old +:+ s) old new = new +:+ s.
Proof.
  intros Hne Hs. destruct old as [|c old]; [done|].
  unfold Py.replace. rewrite sapp_cons. cbn [Py.replace_go].
  assert (String.prefix (String c old) (String c (old +:+ s)) = true) as ->.
  { apply prefix_spec. exists s. by rewrite sapp_cons. }
  cbn [String.length Nat.pred]. by rewrite replace_go_skip, replace_go_absent.
Qed.

Lemma whitelisted_loop_spec (rel : string) (wl : list string) (nums : list Z) :
  whitelisted_loop rel wl nums = true
  <-> exists k, k ∈ nums /\ Py.startswith rel (project_prefix k) = true
                /\ Py.replace rel (project_prefix k) "" ∈ wl.
Proof.
  induction nums as [|j nums IH].
  - split; [done|]. intros (k & Hk & _). by apply elem_of_nil in Hk.
  - cbn [whitelisted_loop]. fold (project_prefix j).
    destruct (Py.startswith rel (project_prefix j)) eqn:Hs.
    + case_bool_decide as Hin.
      * split; [|done]. intros _. exists j. set_solver.
      * rewrite IH. split; intros (k & Hk & Hsk & Hin').
        -- exists k. set_solver.
        -- apply elem_of_cons in Hk as [->|Hk]; [done|]. by exists k.
    + rewrite IH. split; intros (k & Hk & Hsk & Hin').
      * exists k. set_solver.
      * apply elem_of_cons in Hk as [->|Hk]; [congruence|]. by exists k.
Qed.

(** A file of the stage-organised tree is exempt exactly when, for some
    stage [k] of 1..n, its relative path starts with [keos-project<k>/]
    and what is left after removing every occurrence of that prefix is an
    entry of the cumulative whitelist. So an entry exempts the file of
    that name in the directory of every stage up to the current one,
    whichever stage declared it. *)
Theorem whitelist_exempts_across_stages (wl : list string) (n : Z) :
  (forall rel,
     whitelisted_loop rel wl (range 1 (n + 1)) = true
     <-> exists k, 1 <= k <= n
                   /\ Py.startswith rel (project_prefix k) = true
                   /\ Py.replace rel (project_prefix k) "" ∈ wl)
  /\ (forall k f,
        1 <= k <= n -> f ∈ wl -> Py.contains (project_prefix k) f = false ->
        whitelisted_loop (project_prefix k +:+ f) wl (range 1 (n + 1)) = true).
Proof.
  assert (forall rel,
     whitelisted_loop rel wl (range 1 (n + 1)) = true
     <-> exists k, 1 <= k <= n
                   /\ Py.startswith rel (project_prefix k) = true
                   /\ Py.replace rel (project_prefix k) "" ∈ wl) as Hspec.
  { intros rel. rewrite whitelisted_loop_spec.
    split; intros (k & Hk & H); exists k; (split; [|done]);
      apply elem_of_range in Hk || apply elem_of_range; lia. }
  split; [exact Hspec|]. intros k f Hk Hf Habs. apply Hspec. exists k.
  split; [done|]. split.
  - apply prefix_spec. by exists f.
  - rewrite replace_leading; [done| |done]. unfold project_prefix. done.
Qed.

(** With the entry [foo.txt] in the whitelist, [foo.txt] of stage 1 is
    exempt when stage 2 is graded. *)
Lemma whitelist_exempts_sample :
  whitelisted_loop (project_prefix 1 +:+ "foo.txt") ["foo.txt"; "bar.txt"]
    (range 1 (2 + 1)) = true.
Proof.
  apply (proj2 (whitelist_exempts_across_stages ["foo.txt"; "bar.txt"] 2)
           1 "foo.txt").
  - lia.
  - set_solver.
  - reflexivity.
Defined.

(** ** The scan as a function of the files it visits *)

Lemma bind_assoc {A B C} (m : M A) (f : A -> M B) (g : B -> M C) :
  (m ≫= f) ≫= g = m ≫= (fun a => f a ≫= g).
Proof.
  destruct m as [[a|e|c] l]; [|done..]. rewrite !bind_returned.
  destruct (f a) as [[b|e|c] l2]; cbn [fst snd]; [|reflexivity..].
  rewrite !bind_returned. cbn [fst snd]. by rewrite List.app_assoc.
Qed.

Lemma bind_ext {A B} (m : M A) (f g : A -> M B) :
  (forall a, f a = g a) -> m ≫= f = m ≫= g.
Proof.
  intros H. destruct m as [[a|e|c] l]; [|done..].
  by rewrite !bind_returned, H.
Qed.

Section TraversalFacts.
Variable w : fs.
Variable directory_name : string.
Variable cumulative_whitelist : list string.
Variable current_project_num : Z.

Lemma scan_file_cases (root file : string) (digest : option string) :
  scan_file w directory_name cumulative_whitelist current_project_num
    root file digest
  = match fault w directory_name cumulative_whitelist current_project_num
            (root, file, digest) with
    | Some e => raise e
    | None =>
      mret (drift w directory_name cumulative_whitelist current_project_num
              (root, file, digest))
    end.
Proof.
  unfold scan_file, fault, drift.
  destruct (is_ignored (Py.Path_div root file)); cbn [negb]; [done|].
  destruct (Py.relative_to _ _) as [rel|]; [|done].
  destruct (String.eqb directory_name "keos-projects"); cbn [andb].
  - destruct (whitelisted_loop _ _ _); [done|].
    destruct (fs_lookup w _) as [[name h|name ch]|] eqn:Hl;
      unfold get_file_hash; rewrite ?Hl; [|done..].
    rewrite bind_mret. by case_bool_decide.
  - destruct (fs_lookup w _) as [[name h|name ch]|] eqn:Hl;
      unfold get_file_hash; rewrite ?Hl; [|done..].
    rewrite bind_mret. by case_bool_decide.
Qed.

Lemma scan_result_cons (f : visited_file) (l : list visited_file) :
  scan_result w directory_name cumulative_whitelist current_project_num
    (f :: l)
  = match fault w directory_name cumulative_whitelist current_project_num f
    with
    | Some e => raise e
    | None =>
      vs ← scan_result w directory_name cumulative_whitelist
             current_project_num l;
      mret (option_list
              (drift w directory_name cumulative_whitelist
                 current_project_num f) ++ vs)
    end.
Proof.
  unfold scan_result. cbn [first_fault omap].
  destruct (fault _ _ _ _ f); [done|].
  destruct (first_fault _ _ _ _ l); [reflexivity|].
  rewrite bind_mret. cbn. destruct (drift _ _ _ _ f); reflexivity.
Qed.

Lemma scan_result_app (a b : list visited_file) :
  (x ← scan_result w directory_name cumulative_whitelist current_project_num a;
   y ← scan_result w directory_name cumulative_whitelist current_project_num b;
   mret (x ++ y))
  = scan_result w directory_name cumulative_whitelist current_project_num
      (a ++ b).
Proof.
  induction a as [|f a IH].
  - change (scan_result w directory_name cumulative_whitelist
              current_project_num [])
      with (mret [] : M (list violation)).
    rewrite bind_mret. exact (bind_right_id _).
  - cbn [app]. rewrite !scan_result_cons.
    destruct (fault _ _ _ _ f); [done|].
    rewrite <- IH, !bind_assoc. apply bind_ext. intros x.
    rewrite bind_mret, bind_assoc. apply bind_ext. intros y.
    by rewrite bind_mret, List.app_assoc.
Qed.

Lemma scan_files_result (root : string) (entries : list entry) :
  scan_files w directory_name cumulative_whitelist current_project_num
    root entries
  = scan_result w directory_name cumulative_whitelist current_project_num
      (files_of root entries).
Proof.
  induction entries as [|[file digest|d sub] rest IH]; cbn [scan_files].
  - done.
  - change (files_of root (File file digest :: rest))
      with ((root, file, digest) :: files_of root rest).
    rewrite scan_result_cons, IH, scan_file_cases.
    destruct (fault _ _ _ _ (root, file, digest)); [done|].
    by rewrite bind_mret.
  - exact IH.
Qed.

Lemma walk_result (e : entry) (root : string) :
  walk w directory_name cumulative_whitelist current_project_num root e
  = scan_result w directory_name cumulative_whitelist current_project_num
      (visited directory_name current_project_num root e).
Proof.
  revert root. induction e as [name digest|name children IH]
    using entry_nested_ind; intros root; cbn [walk visited].
  - done.
  - rewrite scan_files_result, <- scan_result_app.
    apply bind_ext. intros here. f_equal.
    induction IH as [|sub rest Hsub _ IHrest]; [done|].
    cbn [List.flat_map]. destruct sub as [f dg|d ch]; [exact IHrest|].
    destruct (keep_dir _ _ _ _); [|exact IHrest].
    rewrite Hsub, IHrest. apply scan_result_app.
Qed.

Lemma scan_result_returned (l : list visited_file) (vs : list violation)
    (log : list event) :
  scan_result w directory_name cumulative_whitelist current_project_num l
  = (Returned vs, log) ->
  vs = omap (drift w directory_name cumulative_whitelist current_project_num) l.
Proof.
  unfold scan_result. destruct (first_fault _ _ _ _ l); [done|].
  by intros [= <- _].
Qed.

Lemma scan_result_of_scan (e : entry) :
  fs_lookup w (check_dir w directory_name) = Some e ->
  scan w directory_name cumulative_whitelist current_project_num
  = scan_result w directory_name cumulative_whitelist current_project_num
      (visited directory_name current_project_num
         (check_dir w directory_name) e).
Proof. intros H. unfold scan. rewrite H. apply walk_result. Qed.

Lemma drift_Some (root file : string) (digest : option string)
    (v : violation) :
  drift w directory_name cumulative_whitelist current_project_num
    (root, file, digest) = Some v
  <-> is_ignored (Py.Path_div root file) = false
      /\ file_path v = Py.Path_div root file
      /\ Py.relative_to (Py.Path_div root file) (check_dir w directory_name)
         = Some (rel_path v)
      /\ String.eqb directory_name "keos-projects"
         && whitelisted_loop (rel_path v) cumulative_whitelist
              (range 1 (current_project_num + 1)) = false
      /\ original_file v
         = Py.Path_div (Py.Path_div (original_dir w) directory_name)
                       (rel_path v)
      /\ exists name h,
           fs_lookup w (original_file v) = Some (File name h) /\ digest <> h.
Proof.
  unfold drift. split.
  - destruct (is_ignored (Py.Path_div root file)); [done|].
    destruct (Py.relative_to _ _) as [rel|]; [|done].
    destruct (String.eqb directory_name "keos-projects" && _) eqn:Hw;
      [done|].
    destruct (fs_lookup w _) as [[name h|name ch]|] eqn:Hl; [|done..].
    case_bool_decide; [|done]. intros [= <-]. cbn.
    do 5 (split; [done|]). by exists name, h.
  - destruct v as [fp rel orig]. cbn.
    intros (-> & -> & -> & -> & -> & name & h & -> & Hne).
    by rewrite bool_decide_true.
Qed.

(** What a scan records is, in the order of the walk, the files it
    visits that are not ignored, not exempt, have a reference file and
    differ from it: every violation is a visited file whose digest is not
    that of its reference file, so a file identical to its reference is
    never recorded. *)
Theorem violations_are_drifted_files (e : entry) (vs : list violation)
    (log : list event) :
  fs_lookup w (check_dir w directory_name) = Some e ->
  scan w directory_name cumulative_whitelist current_project_num
  = (Returned vs, log) ->
  vs = omap (drift w directory_name cumulative_whitelist current_project_num)
         (visited directory_name current_project_num
            (check_dir w directory_name) e)
  /\ forall v, v ∈ vs ->
       exists root file digest name h,
         (root, file, digest)
         ∈ visited directory_name current_project_num
             (check_dir w directory_name) e
         /\ file_path v = Py.Path_div root file
         /\ fs_lookup w (original_file v) = Some (File name h)
         /\ digest <> h.
Proof.
  intros He Hscan. rewrite (scan_result_of_scan e He) in Hscan.
  apply scan_result_returned in Hscan. split; [exact Hscan|].
  intros v Hv. rewrite Hscan in Hv.
  apply list_elem_of_omap in Hv as ([[root file] digest] & Hin & Hd).
  apply drift_Some in Hd as (_ & Hfp & _ & _ & _ & name & h & Hl & Hne).
  by exists root, file, digest, name, h.
Qed.

(** A visited file that is not ignored, lies below the scanned directory,
    is not exempt and differs from its reference file is in the list
    [check_directory_integrity] returns, in every mode. *)
Theorem drifted_file_is_reported (e : entry) (mode : string)
    (r : list string) (log : list event)
    (root file rel name : string) (digest h : option string) :
  fs_lookup w (check_dir w directory_name) = Some e ->
  check_directory_integrity w directory_name cumulative_whitelist
    current_project_num mode = (Returned r, log) ->
  (root, file, digest)
  ∈ visited directory_name current_project_num (check_dir w directory_name) e ->
  is_ignored (Py.Path_div root file) = false ->
  Py.relative_to (Py.Path_div root file) (check_dir w directory_name)
  = Some rel ->
  String.eqb directory_name "keos-projects"
  && whitelisted_loop rel cumulative_whitelist
       (range 1 (current_project_num + 1)) = false ->
  fs_lookup w (Py.Path_div (Py.Path_div (original_dir w) directory_name) rel)
  = Some (File name h) ->
  digest <> h ->
  rel ∈ r.
Proof.
  intros He Hcdi Hin Hig Hrel Hwl Hl Hne.
  rewrite check_directory_integrity_eq, (scan_result_of_scan e He) in Hcdi.
  unfold scan_result in Hcdi.
  destruct (first_fault _ _ _ _ _); [done|].
  rewrite bind_mret in Hcdi.
  destruct (report_violations w directory_name mode _) as [[[]|?|?] l];
    [|done..].
  rewrite bind_returned in Hcdi. injection Hcdi as <- _.
  apply list_elem_of_fmap.
  exists {| file_path := Py.Path_div root file; rel_path := rel;
            original_file :=
              Py.Path_div (Py.Path_div (original_dir w) directory_name) rel |}.
  split; [done|]. apply list_elem_of_omap. exists (root, file, digest).
  split; [done|]. apply drift_Some. cbn. repeat split; try done.
  by exists name, h.
Qed.

End TraversalFacts.

(** In [sample_fs], what the scan of [keos] records is [main.rs], whose
    digest [aa] is not the [00] of its reference. *)
Lemma violations_are_drifted_sample :
  [{| file_path := "/repo/keos/main.rs"; rel_path := "main.rs";
      original_file := "/repo/keos-projects/.cargo/template/keos/main.rs" |}]
  = omap (drift sample_fs "keos" [] 0)
      (visited "keos" 0 (check_dir sample_fs "keos")
         (Dir "keos"
            [ File "main.rs" (Some "aa"); File "notes.o" (Some "bb");
              File "new.rs" (Some "cc");
              Dir "target" [File "out.rs" (Some "dd")];
              Dir "src" [File "lib.rs" (Some "ee")] ]))
  /\ forall v,
       v ∈ [{| file_path := "/repo/keos/main.rs"; rel_path := "main.rs";
               original_file :=
                 "/repo/keos-projects/.cargo/template/keos/main.rs" |}] ->
       exists root file digest name h,
         (root, file, digest)
         ∈ visited "keos" 0 (check_dir sample_fs "keos")
             (Dir "keos"
                [ File "main.rs" (Some "aa"); File "notes.o" (Some "bb");
                  File "new.rs" (Some "cc");
                  Dir "target" [File "out.rs" (Some "dd")];
                  Dir "src" [File "lib.rs" (Some "ee")] ])
         /\ file_path v = Py.Path_div root file
         /\ fs_lookup sample_fs (original_file v) = Some (File name h)
         /\ digest <> h.
Proof.
  apply (violations_are_drifted_files sample_fs "keos" [] 0 _ _ []);
    vm_compute; reflexivity.
Defined.

(** In [sample_fs], [main.rs] differs from its reference and is reported. *)
Lemma drifted_file_sample : "main.rs" ∈ ["main.rs"].
Proof.
  apply (drifted_file_is_reported sample_fs "keos" [] 0
           (Dir "keos"
              [ File "main.rs" (Some "aa"); File "notes.o" (Some "bb");
                File "new.rs" (Some "cc");
                Dir "target" [File "out.rs" (Some "dd")];
                Dir "src" [File "lib.rs" (Some "ee")] ])
           "warn" ["main.rs"]
           [Print (NL +:+ "keos/ - 1 violation(s):");
            Print "  main.rs (MODIFIED)"]
           "/repo/keos" "main.rs" "main.rs" "main.rs" (Some "aa") (Some "00"));
    try (vm_compute; reflexivity).
  - vm_compute. set_solver.
  - done.
Defined.

(** ** Pruning and the [rootfs] exceptions *)

Section PruneFacts.

Lemma Path_absolute (root : string) :
  Py.startswith root "/" = true -> exists t, Py.Path root = String "/" t.
Proof.
  intros H. unfold Py.Path, Py.path_root. rewrite H.
  destruct (Py.startswith root "//" && negb (Py.startswith root "///"));
    destruct (Py.path_parts root); eexists; reflexivity.
Qed.

Lemma path_parts_snoc (a : string) :
  Py.path_parts (a +:+ "/rootfs") = Py.path_parts a ++ ["rootfs"].
Proof.
  unfold Py.path_parts.
  change "/rootfs" with (String "/" "rootfs").
  by rewrite split_app_sep, List.filter_app.
Qed.

Lemma Path_ends_with_rootfs (a : string) :
  Py.startswith (a +:+ "/rootfs") "/" = true ->
  Py.endswith (Py.Path (a +:+ "/rootfs")) "/rootfs" = true.
Proof.
  intros H. apply endswith_spec. unfold Py.Path, Py.path_root.
  rewrite H, path_parts_snoc.
  destruct (Py.path_parts a) as [|x ps] eqn:Hps.
  - destruct (Py.startswith _ "//" && _); [by exists "/" | by exists ""].
  - assert (Py.join "/" ((x :: ps) ++ ["rootfs"])
            = Py.join "/" (x :: ps) +:+ "/rootfs") as Hj.
    { by rewrite join_app. }
    destruct (Py.startswith _ "//" && _).
    + exists ("//" +:+ Py.join "/" (x :: ps)).
      change (match (x :: ps) ++ ["rootfs"] with [] => _ | _ => ?t end) with t.
      by rewrite Hj, <- sapp_assoc.
    + exists ("/" +:+ Py.join "/" (x :: ps)).
      change (match (x :: ps) ++ ["rootfs"] with [] => _ | _ => ?t end) with t.
      by rewrite Hj, <- sapp_assoc.
Qed.

Lemma Path_div_rootfs (root : string) :
  Py.startswith root "/" = true ->
  Py.endswith (Py.Path_div root "rootfs") "/rootfs" = true.
Proof.
  intros H. destruct (Path_absolute root H) as [t Ht].
  unfold Py.Path_div, Py.os_path_join. rewrite Ht.
  change (Py.startswith "rootfs" "/") with false.
  change (String.eqb (String "/" t) "") with false. cbn [orb].
  destruct (Py.endswith (String "/" t) "/") eqn:He.
  - apply endswith_spec in He as [a Ha]. rewrite Ha.
    rewrite sapp_assoc. change ("/" +:+ "rootfs") with "/rootfs".
    apply Path_ends_with_rootfs. destruct a as [|c a]; [reflexivity|].
    rewrite sapp_cons in Ha. injection Ha as <- _.
    apply prefix_spec. by exists (a +:+ "/rootfs").
  - change ("/" +:+ "rootfs") with "/rootfs".
    apply Path_ends_with_rootfs.
    apply prefix_spec. by exists (t +:+ "/rootfs").
Qed.

Lemma is_ignored_rootfs_dir (p : string) :
  Py.endswith p "/rootfs" = true -> is_ignored p = true.
Proof. intros H. unfold is_ignored. by rewrite H, orb_true_r. Qed.

Lemma keep_dir_rootfs (directory_name : string) (current_project_num : Z)
    (root : string) :
  Py.startswith root "/" = true ->
  keep_dir directory_name current_project_num root "rootfs" = false.
Proof.
  intros H. unfold keep_dir.
  rewrite (is_ignored_rootfs_dir _ (Path_div_rootfs root H)).
  by destruct (_ && _).
Qed.

Lemma os_path_join_absolute (root d : string) :
  Py.startswith root "/" = true ->
  Py.startswith (Py.os_path_join root d) "/" = true.
Proof.
  intros H. unfold Py.os_path_join.
  destruct (Py.startswith d "/") eqn:Hd; [done|].
  apply prefix_spec in H as [t ->].
  destruct (_ || _); apply prefix_spec; eexists; by rewrite sapp_assoc.
Qed.

Lemma files_of_pruned (root : string) (children : list entry) :
  files_of root
    (List.flat_map
       (fun sub => match sub with
                   | File _ _ => [sub]
                   | Dir d _ =>
                     if String.eqb d "rootfs" then [] else [prune_rootfs sub]
                   end) children)
  = files_of root children.
Proof.
  induction children as [|[f dg|d ch] rest IH]; [done|..].
  - cbn [List.flat_map app]. unfold files_of in *. cbn [List.flat_map].
    by rewrite IH.
  - cbn [List.flat_map]. destruct (String.eqb d "rootfs"); [exact IH|].
    unfold files_of in *. cbn [List.flat_map app prune_rootfs]. exact IH.
Qed.

Lemma visited_pruned (directory_name : string) (current_project_num : Z)
    (e : entry) (root : string) :
  Py.startswith root "/" = true ->
  visited directory_name current_project_num root (prune_rootfs e)
  = visited directory_name current_project_num root e.
Proof.
  revert root. induction e as [name digest|name children IH]
    using entry_nested_ind; intros root Habs; [done|].
  cbn [prune_rootfs visited]. rewrite files_of_pruned. f_equal.
  induction IH as [|sub rest Hsub _ IHrest]; [done|].
  cbn [List.flat_map]. destruct sub as [f dg|d ch].
  - cbn [app List.flat_map]. exact IHrest.
  - destruct (String.eqb_spec d "rootfs") as [->|Hne].
    + rewrite keep_dir_rootfs by done. exact IHrest.
    + cbn [app List.flat_map]. rewrite IHrest.
      cbn [prune_rootfs]. fold prune_rootfs.
      destruct (keep_dir directory_name current_project_num root d);
        [|done].
      f_equal. apply (Hsub (Py.os_path_join root d)).
      by apply os_path_join_absolute.
Qed.

End PruneFacts.

(** Below an absolute directory, a walk does not enter a directory
    named [rootfs]: the scan of a tree is the scan of the tree without
    its [rootfs] directories. The files [hello*], [os-release] and
    [simple_fs.tar], which [is_ignored] keeps inside [rootfs], are
    therefore never compared with their references. *)
Theorem rootfs_is_never_scanned (w : fs) (directory_name : string)
    (cumulative_whitelist : list string) (current_project_num : Z)
    (root : string) (e : entry) :
  Py.startswith root "/" = true ->
  walk w directory_name cumulative_whitelist current_project_num root e
  = walk w directory_name cumulative_whitelist current_project_num root
      (prune_rootfs e).
Proof.
  intros H. rewrite !walk_result. by rewrite visited_pruned.
Qed.

(** [rootfs/hello] is kept by [is_ignored], and yet the walk of
    [rootfs_tree] is the walk of the tree with [main.rs] alone. *)
Lemma rootfs_is_never_scanned_sample :
  is_ignored "/repo/keos/rootfs/hello" = false
  /\ walk sample_fs "keos" [] 0 "/repo/keos" rootfs_tree
     = walk sample_fs "keos" [] 0 "/repo/keos"
         (Dir "keos" [File "main.rs" (Some "aa")]).
Proof.
  split; [reflexivity|].
  apply (rootfs_is_never_scanned sample_fs "keos" [] 0 "/repo/keos"
           rootfs_tree).
  reflexivity.
Defined.

(** ** Directories other than the stage-organised one *)

Section FrameFacts.
Variable w : fs.
Variable directory_name : string.
Hypothesis Hother : String.eqb directory_name "keos-projects" = false.

Lemma keep_dir_frame (n n' : Z) (root d : string) :
  keep_dir directory_name n root d = keep_dir directory_name n' root d.
Proof. unfold keep_dir. by rewrite Hother. Qed.

Lemma visited_frame (n n' : Z) (e : entry) (root : string) :
  visited directory_name n root e = visited directory_name n' root e.
Proof.
  revert root. induction e as [name digest|name children IH]
    using entry_nested_ind; intros root; [done|].
  cbn [visited]. f_equal.
  induction IH as [|sub rest Hsub _ IHrest]; [done|].
  cbn [List.flat_map]. rewrite IHrest. f_equal.
  destruct sub as [f dg|d ch]; [done|].
  rewrite (keep_dir_frame n n'). by rewrite Hsub.
Qed.

Lemma fault_frame (wl wl' : list string) (n n' : Z) (f : visited_file) :
  fault w directory_name wl n f = fault w directory_name wl' n' f.
Proof. destruct f as [[root file] digest]. unfold fault. by rewrite Hother. Qed.

Lemma drift_frame (wl wl' : list string) (n n' : Z) (f : visited_file) :
  drift w directory_name wl n f = drift w directory_name wl' n' f.
Proof. destruct f as [[root file] digest]. unfold drift. by rewrite Hother. Qed.

Lemma scan_result_frame (wl wl' : list string) (n n' : Z)
    (l : list visited_file) :
  scan_result w directory_name wl n l = scan_result w directory_name wl' n' l.
Proof.
  unfold scan_result.
  assert (first_fault w directory_name wl n l
          = first_fault w directory_name wl' n' l) as ->.
  { induction l as [|f l IH]; [done|]. cbn [first_fault].
    by rewrite (fault_frame wl wl' n n'), IH. }
  destruct (first_fault _ _ _ _ l); [done|].
  assert (omap (drift w directory_name wl n) l
          = omap (drift w directory_name wl' n') l) as ->; [|done].
  induction l as [|f l IH]; [done|]. cbn.
  by rewrite (drift_frame wl wl' n n'), IH.
Qed.

(** The whitelist and the stage number bear on the stage-organised tree
    [keos-projects] only: for any other directory name
    [check_directory_integrity] returns the same list and produces the
    same events whatever whitelist and stage number it is given. *)
Theorem whitelist_applies_to_stage_tree_only (wl wl' : list string)
    (n n' : Z) (mode : string) :
  check_directory_integrity w directory_name wl n mode
  = check_directory_integrity w directory_name wl' n' mode.
Proof.
  unfold check_directory_integrity.
  destruct (fs_lookup w (check_dir w directory_name)); [|done].
  by rewrite !walk_result, (visited_frame n n'),
    (scan_result_frame wl wl' n n').
Qed.

End FrameFacts.

(** The scan of [keos] in [sample_fs] with a whitelist and stage 3 is
    the scan with no whitelist and stage 0. *)
Lemma whitelist_frame_sample :
  check_directory_integrity sample_fs "keos" ["main.rs"] 3 "warn"
  = check_directory_integrity sample_fs "keos" [] 0 "warn".
Proof.
  apply (whitelist_applies_to_stage_tree_only sample_fs "keos").
  reflexivity.
Defined.

(** ** Reporting *)

Section ReportFacts.
Variable w : fs.
Variable directory_name : string.

Lemma handle_violations_warn (vs : list violation) :
  handle_violations w "warn" vs
  = (Returned tt,
     (fun v => Print ("  " +:+ rel_path v +:+ " (MODIFIED)")) <$> vs).
Proof.
  induction vs as [|v vs IH]; [done|]. cbn [handle_violations].
  change (String.eqb "warn" "warn") with true. cbn iota.
  by rewrite !bind_emit, IH.
Qed.

Lemma handle_violations_other (mode : string) (vs : list violation) :
  String.eqb mode "warn" = false -> String.eqb mode "override" = false ->
  handle_violations w mode vs = (Returned tt, []).
Proof.
  intros H1 H2. induction vs as [|v vs IH]; [done|].
  cbn [handle_violations]. by rewrite H1, H2, bind_mret.
Qed.

Lemma handle_violations_override_ok (vs : list violation) :
  (forall v, v ∈ vs ->
     copy2_error w (original_file v) (file_path v) = None) ->
  handle_violations w "override" vs
  = (Returned tt,
     vs ≫= fun v =>
       [Copy2 (original_file v) (file_path v);
        Print ("  RESTORED: " +:+ rel_path v +:+ " (restored)")]).
Proof.
  induction vs as [|v vs IH]; intros Hok; [done|].
  cbn [handle_violations].
  change (String.eqb "override" "warn") with false.
  change (String.eqb "override" "override") with true. cbn iota.
  rewrite Hok by set_solver. rewrite bind_assoc, !bind_emit.
  rewrite IH by set_solver. reflexivity.
Qed.

Lemma handle_violations_override_fails (done_ rest : list violation)
    (v : violation) (msg : string) :
  (forall u, u ∈ done_ ->
     copy2_error w (original_file u) (file_path u) = None) ->
  copy2_error w (original_file v) (file_path v) = Some msg ->
  handle_violations w "override" (done_ ++ v :: rest)
  = (Exited 1,
     (done_ ≫= fun u =>
        [Copy2 (original_file u) (file_path u);
         Print ("  RESTORED: " +:+ rel_path u +:+ " (restored)")])
     ++ [Print ("  ERROR: " +:+ rel_path v +:+ " (restore failed: "
                +:+ msg +:+ ")");
         Print "ERROR: File restoration failed. Aborting."]).
Proof.
  intros Hok Hfail. induction done_ as [|u done_ IH].
  - cbn [app handle_violations].
    change (String.eqb "override" "warn") with false.
    change (String.eqb "override" "override") with true. cbn iota.
    rewrite Hfail. reflexivity.
  - cbn [app handle_violations].
    change (String.eqb "override" "warn") with false.
    change (String.eqb "override" "override") with true. cbn iota.
    rewrite Hok by set_solver. rewrite bind_assoc, !bind_emit.
    rewrite IH by set_solver. reflexivity.
Qed.

Variable cumulative_whitelist : list string.
Variable current_project_num : Z.

Lemma printed_lines_no_copy (f : violation -> string) (vs : list violation) :
  List.filter is_copy ((fun v => Print (f v)) <$> vs) = [].
Proof. induction vs as [|v vs IH]; [done|]. exact IH. Qed.

Lemma check_directory_integrity_of_scan (mode : string)
    (vs : list violation) (l : list event) :
  scan w directory_name cumulative_whitelist current_project_num
  = (Returned vs, l) ->
  check_directory_integrity w directory_name cumulative_whitelist
    current_project_num mode
  = (report_violations w directory_name mode vs;;
     mret (List.map rel_path vs)).
Proof.
  intros Hscan. rewrite check_directory_integrity_eq.
  destruct (scan_recorded w directory_name cumulative_whitelist
              current_project_num) as [Hl _].
  rewrite Hscan in Hl |- *. cbn in Hl. subst l. rewrite bind_returned.
  by destruct (_ ≫= _).
Qed.

(** Only the mode [override] touches the working tree or ends the
    process. In the mode [warn] the scan's violations are listed, one
    line each after the header; in any other mode that is not [override]
    the header alone is printed; in both the list is returned and no
    file is copied. *)
Theorem only_override_restores (mode : string) (vs : list violation)
    (l : list event) :
  String.eqb mode "override" = false ->
  scan w directory_name cumulative_whitelist current_project_num
  = (Returned vs, l) ->
  check_directory_integrity w directory_name cumulative_whitelist
    current_project_num mode
  = (Returned (List.map rel_path vs),
     match vs with
     | [] => []
     | _ =>
       violations_header directory_name vs
       :: (if String.eqb mode "warn"
           then (fun v => Print ("  " +:+ rel_path v +:+ " (MODIFIED)"))
                  <$> vs
           else [])
     end)
  /\ List.filter is_copy
       (check_directory_integrity w directory_name cumulative_whitelist
          current_project_num mode).2 = [].
Proof.
  intros Hmode Hscan.
  rewrite (check_directory_integrity_of_scan mode vs l Hscan).
  unfold report_violations. destruct vs as [|v vs]; [done|].
  fold (violations_header directory_name (v :: vs)). rewrite bind_assoc.
  rewrite bind_emit.
  destruct (String.eqb_spec mode "warn") as [->|Hne].
  - rewrite handle_violations_warn, bind_returned. cbn [fst snd].
    split; [by rewrite List.app_nil_r|]. rewrite List.app_nil_r.
    unfold violations_header. cbn [List.filter is_copy].
    apply printed_lines_no_copy.
  - rewrite handle_violations_other; [done| |done].
    by apply String.eqb_neq.
Qed.

(** In the mode [override] the violations are restored in order, each by
    one copy of its reference file over it, and the list is returned; at
    the first copy that fails the process ends with status 1, after the
    error lines: the violations before it have been restored, those
    after it are left as they are. *)
Theorem restoration_is_fail_fast (vs : list violation) (l : list event) :
  scan w directory_name cumulative_whitelist current_project_num
  = (Returned vs, l) ->
  vs <> [] ->
  ((forall v, v ∈ vs ->
      copy2_error w (original_file v) (file_path v) = None) ->
   check_directory_integrity w directory_name cumulative_whitelist
     current_project_num "override"
   = (Returned (List.map rel_path vs),
      violations_header directory_name vs :: restored vs))
  /\ (forall before v after msg,
        vs = before ++ v :: after ->
        (forall u, u ∈ before ->
           copy2_error w (original_file u) (file_path u) = None) ->
        copy2_error w (original_file v) (file_path v) = Some msg ->
        check_directory_integrity w directory_name cumulative_whitelist
          current_project_num "override"
        = (Exited 1,
           violations_header directory_name vs :: restored before
           ++ [Print ("  ERROR: " +:+ rel_path v +:+ " (restore failed: "
                      +:+ msg +:+ ")");
               Print "ERROR: File restoration failed. Aborting."])).
Proof.
  intros Hscan Hne.
  rewrite (check_directory_integrity_of_scan "override" vs l Hscan).
  unfold report_violations. destruct vs as [|v0 vs0] eqn:Hvs; [done|].
  rewrite <- Hvs in *. fold (violations_header directory_name vs).
  rewrite bind_assoc, bind_emit. split.
  - intros Hok. rewrite handle_violations_override_ok by done.
    rewrite bind_returned. cbn [fst snd]. by rewrite List.app_nil_r.
  - intros before v after msg -> Hok Hfail.
    by rewrite (handle_violations_override_fails before after v msg Hok Hfail).
Qed.

End ReportFacts.

(** The scan of [keos] in [sample_fs], reported in the mode [warn]. *)
Lemma only_override_restores_sample :
  check_directory_integrity sample_fs "keos" [] 0 "warn"
  = (Returned ["main.rs"],
     [Print (NL +:+ "keos/ - 1 violation(s):");
      Print "  main.rs (MODIFIED)"])
  /\ List.filter is_copy
       (check_directory_integrity sample_fs "keos" [] 0 "warn").2 = [].
Proof.
  apply (only_override_restores sample_fs "keos" [] 0 "warn"
           [{| file_path := "/repo/keos/main.rs"; rel_path := "main.rs";
               original_file :=
                 "/repo/keos-projects/.cargo/template/keos/main.rs" |}] []).
  - reflexivity.
  - vm_compute. reflexivity.
Defined.

(** In [read_only_fs] the copy of [main.rs] fails: the process ends with
    status 1. *)
Lemma restoration_fails_sample :
  check_directory_integrity read_only_fs "keos" [] 0 "override"
  = (Exited 1,
     [Print (NL +:+ "keos/ - 1 violation(s):");
      Print "  ERROR: main.rs (restore failed: Permission denied)";
      Print "ERROR: File restoration failed. Aborting."]).
Proof.
  apply (proj2 (restoration_is_fail_fast read_only_fs "keos" [] 0
                  [main_rs_violation] []
                  ltac:(vm_compute; reflexivity) ltac:(done))
           [] main_rs_violation [] "Permission denied").
  - reflexivity.
  - intros u Hu. by apply elem_of_nil in Hu.
  - reflexivity.
Defined.

Example sync_then_scan_sample :
  check_three_directory_integrity synced_fs good_sync "/repo/keos-projects/keos-project1/grader" [] 1 "warn"
  = (Returned [("keos", ["main.rs"])],
     ((fun argv => Launch argv None) <$> GIT_COMMANDS)
     ++ [Print (NL +:+ "keos/ - 1 violation(s):");
         Print "  main.rs (MODIFIED)"]).
Proof. vm_compute. reflexivity. Qed.

(** ** Synchronising the template *)

Section SyncFacts.
Variable w : fs.
Variable s : sync_env.

Lemma run_git_ok (commands : list (list string)) :
  (forall argv, argv ∈ commands -> git s argv = None) ->
  run_git s commands
  = (Returned None, (fun argv => Launch argv None) <$> commands).
Proof.
  induction commands as [|argv rest IH]; intros Hok; [done|].
  cbn [run_git]. rewrite bind_emit, Hok by set_solver.
  by rewrite IH by set_solver.
Qed.

Lemma run_git_fail (before after : list (list string)) (argv : list string)
    (f : sync_failure) :
  (forall a, a ∈ before -> git s a = None) ->
  git s argv = Some f ->
  run_git s (before ++ argv :: after)
  = (Returned (Some f), (fun a => Launch a None) <$> (before ++ [argv])).
Proof.
  intros Hok Hfail. induction before as [|a before IH].
  - cbn [app run_git]. by rewrite bind_emit, Hfail.
  - cbn [app run_git]. rewrite bind_emit, Hok by set_solver.
    by rewrite IH by set_solver.
Qed.

Lemma run_git_cases (commands : list (list string)) :
  ((forall argv, argv ∈ commands -> git s argv = None)
   /\ run_git s commands
      = (Returned None, (fun argv => Launch argv None) <$> commands))
  \/ exists before argv after f,
       commands = before ++ argv :: after
       /\ (forall a, a ∈ before -> git s a = None)
       /\ git s argv = Some f
       /\ run_git s commands
          = (Returned (Some f),
             (fun a => Launch a None) <$> (before ++ [argv])).
Proof.
  induction commands as [|argv rest IH].
  - left. split; [|done]. intros a Ha. by apply elem_of_nil in Ha.
  - destruct (git s argv) as [f|] eqn:Hg.
    + right. exists [], argv, rest, f. split; [done|].
      split; [intros a Ha; by apply elem_of_nil in Ha|]. split; [done|].
      apply (run_git_fail [] rest argv f); [|done].
      intros a Ha. by apply elem_of_nil in Ha.
    + destruct IH as [[Hok Hrun]|(before & a & after & f & -> & Hok & Hf & Hrun)].
      * left. assert (forall a, a ∈ argv :: rest -> git s a = None) as Hall.
        { intros a [->|Ha]%elem_of_cons; auto. }
        split; [exact Hall|]. by apply run_git_ok.
      * right. exists (argv :: before), a, after, f. split; [done|].
        assert (forall a0, a0 ∈ argv :: before -> git s a0 = None) as Hall.
        { intros a0 [->|Ha]%elem_of_cons; auto. }
        split; [exact Hall|]. split; [done|].
        apply (run_git_fail (argv :: before) after a f); [exact Hall | exact Hf].
Qed.

Lemma sync_failed_exits {A} (f : sync_failure) :
  exists msg, (sync_failed f : M A) = (Exited 1, [Print msg]).
Proof. destruct f; eexists; reflexivity. Qed.

(** [ensure_template_freshness] returns or ends the process with status
    1, and never raises. It returns only when the template directory and
    its [.git] exist and each of the four git commands succeeded, after
    having run exactly these, in order, and it hands back the working
    directory it started in. Without the template directory or without
    its [.git] no git command is run; at the first git command that
    fails the later ones are not run. *)
Theorem template_sync_is_all_or_nothing (cwd : string) :
  (path_exists w (original_dir w) = false ->
   ensure_template_freshness w s cwd
   = (Exited 1, [Print "ERROR: Template directory does not exist"]))
  /\ (path_exists w (original_dir w) = true ->
      path_exists w (Py.Path_div (original_dir w) ".git") = false ->
      ensure_template_freshness w s cwd
      = (Exited 1, [Print "ERROR: Template directory is not a git repository"]))
  /\ (forall cwd' log,
        ensure_template_freshness w s cwd = (Returned cwd', log) ->
        cwd' = cwd
        /\ log = (fun argv => Launch argv None) <$> GIT_COMMANDS
        /\ (forall argv, argv ∈ GIT_COMMANDS -> git s argv = None)
        /\ path_exists w (original_dir w) = true
        /\ path_exists w (Py.Path_div (original_dir w) ".git") = true)
  /\ ((exists cwd' log,
         ensure_template_freshness w s cwd = (Returned cwd', log))
      \/ exists log, ensure_template_freshness w s cwd = (Exited 1, log))
  /\ (forall before argv after f,
        GIT_COMMANDS = before ++ argv :: after ->
        path_exists w (original_dir w) = true ->
        path_exists w (Py.Path_div (original_dir w) ".git") = true ->
        chdir_error s (original_dir w) = None ->
        (forall a, a ∈ before -> git s a = None) ->
        git s argv = Some f ->
        exists msg,
          ensure_template_freshness w s cwd
          = (Exited 1,
             ((fun a => Launch a None) <$> (before ++ [argv]))
             ++ [Print msg])).
Proof.
  unfold ensure_template_freshness.
  split; [|split; [|split; [|split]]].
  - by intros ->.
  - by intros -> ->.
  - intros cwd' log.
    destruct (path_exists w (original_dir w)); [|done].
    destruct (path_exists w (Py.Path_div _ _)); [|done]. cbn [negb].
    destruct (chdir_error s (original_dir w)); [done|].
    destruct (run_git_cases GIT_COMMANDS)
      as [[Hok ->]|(before & a & after & f & _ & _ & _ & ->)].
    + rewrite bind_returned.
      destruct (chdir_error s cwd); [done|].
      unfold mret, M_ret. cbn [fst snd].
      rewrite List.app_nil_r. by intros [= <- <-].
    + rewrite bind_returned.
      destruct (sync_failed_exits (A := string) f) as [msg ->]. done.
  - destruct (path_exists w (original_dir w)); [|right; by eexists].
    destruct (path_exists w (Py.Path_div _ _)); [|right; by eexists].
    cbn [negb].
    destruct (chdir_error s (original_dir w)); [right; by eexists|].
    destruct (run_git_cases GIT_COMMANDS)
      as [[Hok ->]|(before & a & after & f & _ & _ & _ & ->)].
    + rewrite bind_returned.
      destruct (chdir_error s cwd); [right; by eexists|].
      left. by eexists _, _.
    + rewrite bind_returned.
      destruct (sync_failed_exits (A := string) f) as [msg ->].
      right. by eexists.
  - intros before argv after f Hcmds -> -> -> Hok Hfail. cbn [negb].
    rewrite Hcmds, (run_git_fail before after argv f Hok Hfail).
    rewrite bind_returned.
    destruct (sync_failed_exits (A := string) f) as [msg ->].
    by exists msg.
Qed.

End SyncFacts.

(** With the remote unreachable, [git fetch] fails: the two commands
    before it and [git fetch] were run, the final reset was not. *)
Lemma template_sync_offline_sample :
  exists msg,
    ensure_template_freshness synced_fs offline_sync "/repo/grader"
    = (Exited 1,
       ((fun a => Launch a None)
          <$> ([["git"; "reset"; "--hard"; "HEAD"]; ["git"; "clean"; "-fd"]]
               ++ [["git"; "fetch"; "origin"]]))
       ++ [Print msg]).
Proof.
  apply (proj2 (proj2 (proj2 (proj2
           (template_sync_is_all_or_nothing synced_fs offline_sync
              "/repo/grader"))))
           [["git"; "reset"; "--hard"; "HEAD"]; ["git"; "clean"; "-fd"]]
           ["git"; "fetch"; "origin"]
           [["git"; "reset"; "--hard"; "origin/main"]]
           (CalledProcessError "fetch failed"));
    try reflexivity.
  intros a Ha. repeat (apply elem_of_cons in Ha as [->|Ha]; [reflexivity|]).
  by apply elem_of_nil in Ha.
Defined.

(** ** The three directories *)

Section ThreeFacts.
Variable w : fs.
Variable s : sync_env.
Variable cwd : string.
Variable cumulative_whitelist : list string.
Variable current_project_num : Z.
Variable mode : string.

(** [check_three_directory_integrity] scans nothing unless the template
    was synchronised: when the synchronisation ends the process, so does
    it, with the same events. When it returns, the three directories
    were scanned in the order [fs], [keos], [keos-projects], the first
    two with an empty whitelist and stage 0, and the result holds, in
    that order, the directories with at least one violation, each with
    the list its scan returned. *)
Theorem three_directories_after_sync :
  (forall c log,
     ensure_template_freshness w s cwd = (Exited c, log) ->
     check_three_directory_integrity w s cwd cumulative_whitelist
       current_project_num mode = (Exited c, log))
  /\ (forall d log,
        check_three_directory_integrity w s cwd cumulative_whitelist
          current_project_num mode = (Returned d, log) ->
        exists cwd' l0 r1 l1 r2 l2 r3 l3,
          ensure_template_freshness w s cwd = (Returned cwd', l0)
          /\ check_directory_integrity w "fs" [] 0 mode = (Returned r1, l1)
          /\ check_directory_integrity w "keos" [] 0 mode = (Returned r2, l2)
          /\ check_directory_integrity w "keos-projects" cumulative_whitelist
               current_project_num mode = (Returned r3, l3)
          /\ log = l0 ++ l1 ++ l2 ++ l3
          /\ d = with_violations
                   [("fs", r1); ("keos", r2); ("keos-projects", r3)]).
Proof.
  unfold check_three_directory_integrity. split.
  - by intros c log ->.
  - intros d log.
    destruct (ensure_template_freshness w s cwd) as [[cwd'|e|c] l0]; [|done..].
    rewrite bind_returned. unfold CHECKED_DIRECTORIES.
    cbn [check_directories].
    change (String.eqb "fs" "keos-projects") with false.
    change (String.eqb "keos" "keos-projects") with false.
    change (String.eqb "keos-projects" "keos-projects") with true.
    cbn iota.
    destruct (check_directory_integrity w "fs" [] 0 mode) as [[r1|e|c] l1];
      [|done..].
    rewrite bind_returned.
    destruct (check_directory_integrity w "keos" [] 0 mode) as [[r2|e|c] l2];
      [|done..].
    rewrite bind_returned.
    destruct (check_directory_integrity w "keos-projects" _ _ mode)
      as [[r3|e|c] l3]; [|done..].
    rewrite bind_returned. cbn [fst snd mret M_ret].
    rewrite List.app_nil_r. intros [= <- <-].
    exists cwd', l0, r1, l1, r2, l2, r3, l3. do 5 (split; [done|]).
    unfold with_violations.
    destruct r1, r2, r3; reflexivity.
Qed.

End ThreeFacts.

(** Without the template directory of [sample_fs], nothing is scanned. *)
Lemma three_directories_sample :
  check_three_directory_integrity sample_fs good_sync "/repo/grader" [] 1 "warn"
  = (Exited 1, [Print "ERROR: Template directory does not exist"]).
Proof.
  apply (proj1 (three_directories_after_sync sample_fs good_sync
                  "/repo/grader" [] 1 "warn")).
  reflexivity.
Defined.

(** ** Live capture: failures *)

(** In live mode too [grade_single] answers a failure with the sentinel:
    once the boot configuration is set up, a launch that raises is
    printed and gives ["timeout"], nothing being read; and captured bytes
    that are not UTF-8 give ["timeout"] after the lines were written to
    the console. *)
Theorem live_failures_yield_sentinel (w : world) (run_command : list string)
    (target : string) (cpu : Z) (mem : string) (timeout : num) :
  let argv := emulator_argv run_command cpu mem in
  let p := w ("--quite " +:+ target) argv in
  (forall e, launch_error p = Some e ->
     grade_single w run_command target cpu mem timeout true
     = (setup_kernel_arguments ("--quite " +:+ target);;
        (Returned "timeout", [Launch argv None; PrintExn e])))
  /\ (launch_error p = None ->
      utf8_valid (live_buffer (live_reads p) "") = false ->
      grade_single w run_command target cpu mem timeout true
      = (setup_kernel_arguments ("--quite " +:+ target);;
         (Returned "timeout",
          [Launch argv None]
          ++ (StdoutWrite
                <$> filter (fun out => has_clear out = false) (live_reads p))
          ++ [Print "---------"; PrintExn UnicodeDecodeError]))).
Proof.
  intros argv p. split.
  - intros e He. unfold grade_single. fold argv. fold p.
    apply bind_ext. intros _. by rewrite bind_emit, He.
  - intros Hl Hu. unfold grade_single. fold argv. fold p.
    apply bind_ext. intros _.
    rewrite bind_emit, Hl, live_loop_eq, bind_returned, bind_emit.
    unfold decode_utf8. rewrite Hu. cbn.
    by rewrite <- !List.app_assoc.
Qed.

(** In [broken_world] the launch raises [OSError]. *)
Lemma live_failure_sample :
  grade_single broken_world ["qemu"] "t" 4 "512M" (PyInt 30) true
  = (Returned "timeout",
     [WriteBootConfig "--quite t";
      Launch ["qemu"; "-smp"; "4"; "-m"; "512M"] None;
      PrintExn (OSError "qemu-system-x86_64: not found")]).
Proof.
  apply (proj1 (live_failures_yield_sentinel broken_world ["qemu"] "t" 4
                  "512M" (PyInt 30))
           (OSError "qemu-system-x86_64: not found")).
  reflexivity.
Defined.

(** ** Which tests a grading run starts *)

Lemma boots_app (l1 l2 : list event) : boots (l1 ++ l2) = boots l1 ++ boots l2.
Proof. apply List.filter_app. Qed.

Lemma calm_mret {A} (a : A) : calm (mret a).
Proof. reflexivity. Qed.

Lemma calm_raise {A} (e : exn) : calm (raise e : M A).
Proof. reflexivity. Qed.

Lemma calm_lift {A} (o : outcome A) : calm (lift o).
Proof. reflexivity. Qed.

Lemma calm_bind {A B} (m : M A) (f : A -> M B) :
  calm m -> (forall a, calm (f a)) -> calm (m ≫= f).
Proof.
  unfold calm. intros Hm Hf. destruct m as [[a|e|c] l]; [|done..].
  rewrite bind_returned. cbn [snd] in *. by rewrite boots_app, Hm, Hf.
Qed.

Lemma calm_try_except {A} (m : M A) (h : exn -> M A) :
  calm m -> (forall e, calm (h e)) -> calm (try_except m h).
Proof.
  unfold calm. intros Hm Hh. destruct m as [[a|e|c] l]; [done| |done].
  unfold try_except. specialize (Hh e). destruct (h e) as [r l2].
  cbn [snd] in *. by rewrite boots_app, Hm, Hh.
Qed.

Lemma calm_emit (e : event) : is_boot e = false -> calm (emit e).
Proof. unfold calm, emit, boots. cbn. by intros ->. Qed.

Lemma calm_decode_utf8 (b : string) : calm (decode_utf8 b).
Proof. unfold decode_utf8. by destruct (utf8_valid b). Qed.

Lemma calm_decode_text (b : string) : calm (decode_text b).
Proof.
  unfold decode_text. apply calm_bind; [apply calm_decode_utf8|].
  intros s. apply calm_mret.
Qed.

Lemma calm_subprocess_run (w : world) (kernel_arg : string)
    (argv : list string) (timeout : float) :
  calm (subprocess_run w kernel_arg argv timeout).
Proof.
  unfold subprocess_run. apply calm_bind; [by apply calm_emit|]. intros _.
  destruct (launch_error _); [apply calm_raise|].
  destruct (PrimFloat.ltb _ _); [apply calm_raise|].
  apply calm_bind; [apply calm_decode_text|]. intros out.
  apply calm_bind; [apply calm_decode_text|]. intros err. apply calm_mret.
Qed.

Lemma calm_live_loop (reads : list string) (output : string) :
  calm (live_loop reads output).
Proof.
  revert output. induction reads as [|out rest IH]; intros output.
  { apply calm_mret. }
  cbn [live_loop]. destruct (Py.contains CLEAR_SCREEN out); [apply IH|].
  apply calm_bind; [by apply calm_emit|]. intros _. apply IH.
Qed.

Lemma boots_grade_single (w : world) (run_command : list string)
    (target : string) (cpu : Z) (mem : string) (timeout : num) (live : bool) :
  boots (grade_single w run_command target cpu mem timeout live).2
  = [WriteBootConfig ("--quite " +:+ target)].
Proof.
  unfold grade_single, setup_kernel_arguments. rewrite bind_emit.
  cbn [snd]. unfold boots. cbn [List.filter is_boot]. f_equal.
  apply calm_try_except.
  - destruct live.
    + apply calm_bind; [by apply calm_emit|]. intros _.
      destruct (launch_error _); [apply calm_raise|].
      apply calm_bind; [apply calm_live_loop|]. intros output.
      apply calm_bind; [by apply calm_emit|]. intros _.
      apply calm_decode_utf8.
    + apply calm_bind; [apply calm_lift|]. intros t.
      apply calm_bind; [apply calm_subprocess_run|]. intros r.
      apply calm_mret.
  - intros e. apply calm_bind; [by apply calm_emit|]. intros _.
    apply calm_mret.
Qed.

Lemma calm_classify (w : world) (name : string) (conf : test_conf)
    (timeout : num) (passed : bool) (output : string) :
  calm (classify w name conf timeout passed output).
Proof.
  unfold classify. destruct passed; [|apply calm_mret].
  destruct (conf_post_hook conf) as [[argv|]|]; try apply calm_mret.
  unfold run_post_hook. apply calm_try_except.
  - apply calm_bind; [apply calm_lift|]. intros t.
    apply calm_bind; [apply calm_subprocess_run|]. intros r.
    destruct (negb _); apply calm_mret.
  - intros e. apply calm_mret.
Qed.

(** One turn of the loop over the tests: the test is started once, and
    the loop is left exactly when [stops] holds. *)
Lemma grade_test_boots (w : world) (run_command : list string)
    (filt : option (list string)) (name : string) (conf : test_conf) :
  exists r log,
    grade_test w run_command filt name conf = (Returned r, log)
    /\ boots log = [boot_of (name, conf)]
    /\ (r = None <-> stops w run_command filt (name, conf) = true).
Proof.
  pose proof (boots_grade_single w run_command name (default 4 (conf_cpu conf))
                (default "512M" (conf_mem conf))
                (default (PyInt 30) (conf_timeout conf)) (is_Some_b filt))
    as Hb.
  unfold stops, single_output. cbn [fst snd].
  destruct (grade_single_returns w run_command name (default 4 (conf_cpu conf))
              (default "512M" (conf_mem conf))
              (default (PyInt 30) (conf_timeout conf)) (is_Some_b filt))
    as (output & l1 & Hsingle).
  rewrite Hsingle in Hb |- *. cbn [fst snd] in Hb |- *.
  destruct (classify_returns w name conf (default (PyInt 30) (conf_timeout conf))
              (Py.contains SUCCESS_MARKER output) output) as (r & l2 & Hc).
  pose proof (calm_classify w name conf (default (PyInt 30) (conf_timeout conf))
                (Py.contains SUCCESS_MARKER output) output) as Hcalm.
  rewrite Hc in Hcalm. unfold calm in Hcalm. cbn [snd] in Hcalm.
  rewrite (grade_test_eq w run_command filt name conf _ _ _ _ Hsingle Hc).
  assert (boots (progress_line filt name) = []) as Hp.
  { unfold progress_line. by destruct (is_Some_b filt). }
  assert (boots (verdict_line filt r.1) = []) as Hv.
  { unfold verdict_line. by destruct (is_Some_b filt). }
  destruct (is_Some_b filt && Py.contains "panic" output) eqn:Hstop.
  - eexists _, _. split; [done|]. rewrite boots_app, Hp, Hb. done.
  - eexists _, _. split; [done|].
    rewrite !boots_app, Hp, Hb, Hcalm, Hv. done.
Qed.

Lemma through_first_app {A} (p : A -> bool) (l1 l2 : list A) :
  through_first p (l1 ++ l2)
  = if existsb p l1 then through_first p l1 else l1 ++ through_first p l2.
Proof.
  induction l1 as [|x l1 IH]; [done|].
  cbn [through_first existsb List.app orb]. destruct (p x); [done|].
  cbn [orb]. rewrite IH. by destruct (existsb p l1).
Qed.

Lemma through_first_none {A} (p : A -> bool) (l : list A) :
  existsb p l = false -> through_first p l = l.
Proof.
  induction l as [|x l IH]; [done|]. cbn [existsb through_first].
  destruct (p x); [done|]. cbn [orb]. intros H. by rewrite IH.
Qed.

Lemma through_first_prefix {A} (p : A -> bool) (l : list A) :
  through_first p l `prefix_of` l.
Proof.
  induction l as [|x l IH]; [done|]. cbn [through_first].
  destruct (p x).
  - by apply (prefix_cons x []), prefix_nil.
  - by apply prefix_cons.
Qed.

Section GradingFacts.
Variables (w : world) (run_command : list string).
Variable filt : option (list string).

Lemma grade_tests_boots (rname : string) (ts : list (string * test_conf))
    (g : grading_result) (tpassed : Z) :
  exists r log,
    grade_tests w run_command filt rname ts g tpassed = (Returned r, log)
    /\ boots log
       = boot_of <$> through_first (stops w run_command filt)
                                   (selected_of filt ts)
    /\ (r = None
        <-> existsb (stops w run_command filt) (selected_of filt ts) = true).
Proof.
  revert g tpassed. induction ts as [|[name conf] ts IH]; intros g tpassed.
  { eexists _, _. split; [done|]. split; [done|]. done. }
  cbn [grade_tests selected_of List.filter fst].
  destruct (filtered_out filt name) eqn:Hf; cbn [negb]; [apply IH|].
  destruct (grade_test_boots w run_command filt name conf)
    as (r & l1 & -> & Hb1 & Hr1).
  rewrite bind_returned. cbn [through_first existsb].
  destruct r as [[passed output]|].
  - destruct (stops w run_command filt (name, conf)) eqn:Hs.
    { discriminate (proj2 Hr1 eq_refl). }
    destruct (IH (result_set g rname name (passed, output))
                 (tpassed + Z.b2z passed)) as (r & l2 & -> & Hb2 & Hr2).
    eexists _, _. split; [done|]. cbn [fst snd orb].
    split; [|done]. by rewrite boots_app, Hb1, Hb2.
  - rewrite (proj1 Hr1 eq_refl). eexists _, _. split; [done|].
    cbn [fst snd orb]. split; [|done].
    unfold mret, M_ret. cbn [snd]. by rewrite List.app_nil_r.
Qed.

Lemma grade_rubrics_boots (rs : list (string * rubric)) (g : grading_result)
    (tpassed : Z) :
  exists r log,
    grade_rubrics w run_command filt rs g tpassed = (Returned r, log)
    /\ boots log
       = boot_of <$> through_first (stops w run_command filt)
                                   (selected filt rs)
    /\ (r = None
        <-> existsb (stops w run_command filt) (selected filt rs) = true).
Proof.
  revert g tpassed. induction rs as [|[rname rb] rs IH]; intros g tpassed.
  { eexists _, _. split; [done|]. split; [done|]. done. }
  cbn [grade_rubrics selected List.flat_map snd].
  fold (selected filt rs).
  destruct (grade_tests_boots rname (tests rb)
              (dict_set String.eqb g rname []) tpassed)
    as (r & l1 & -> & Hb1 & Hr1).
  rewrite bind_returned, through_first_app, List.existsb_app.
  destruct r as [[g1 tp1]|].
  - destruct (existsb _ (selected_of filt (tests rb))) eqn:Hs.
    { discriminate (proj2 Hr1 eq_refl). }
    destruct (IH g1 tp1) as (r & l2 & -> & Hb2 & Hr2).
    eexists _, _. split; [done|]. cbn [fst snd orb].
    split; [|done].
    by rewrite boots_app, Hb1, Hb2, fmap_app, through_first_none.
  - rewrite (proj1 Hr1 eq_refl). eexists _, _. split; [done|].
    cbn [fst snd orb]. split; [|done].
    unfold mret, M_ret. cbn [snd]. by rewrite List.app_nil_r.
Qed.

Lemma grade_boots (pj : Z) (rubrics : list (string * rubric)) :
  exists r log,
    grade w pj run_command rubrics filt = (Returned r, log)
    /\ boots log
       = boot_of <$> through_first (stops w run_command filt)
                                   (selected filt rubrics)
    /\ (r = None
        <-> existsb (stops w run_command filt) (selected filt rubrics) = true).
Proof.
  unfold grade.
  destruct (grade_rubrics_boots rubrics [] 0) as (r & l & Hg & Hb & Hr).
  destruct (is_Some_b filt); cbn [negb].
  - rewrite bind_mret, Hg. by eexists _, _.
  - rewrite bind_emit, Hg. eexists _, _. split; [done|]. by cbn [fst snd].
Qed.

End GradingFacts.

Lemma selected_of_all (filt : option (list string))
    (ts : list (string * test_conf)) :
  filt = None \/ filt = Some [] -> selected_of filt ts = ts.
Proof.
  intros Hf. unfold selected_of. induction ts as [|t ts IH]; [done|].
  cbn [List.filter]. rewrite IH.
  by destruct Hf as [-> | ->].
Qed.

Lemma selected_all (filt : option (list string))
    (rubrics : list (string * rubric)) :
  filt = None \/ filt = Some [] ->
  selected filt rubrics = List.flat_map (fun rb => tests rb.2) rubrics.
Proof.
  intros Hf. unfold selected.
  induction rubrics as [|rb rubrics IH]; [done|].
  cbn [List.flat_map]. f_equal; [by apply selected_of_all|]. apply IH.
Qed.

Lemma selected_of_named (f : list string) (ts : list (string * test_conf))
    (t : string * test_conf) :
  f <> [] -> t ∈ selected_of (Some f) ts -> t.1 ∈ f.
Proof.
  intros Hne Hin. unfold selected_of in Hin.
  apply list_elem_of_In, List.filter_In in Hin as [_ Hk].
  unfold filtered_out in Hk.
  destruct (bool_decide (t.1 ∈ f)) eqn:Hd; [by apply bool_decide_eq_true in Hd|].
  destruct (bool_decide (f = [])) eqn:He; [by apply bool_decide_eq_true in He|].
  done.
Qed.

(** [grade] starts only tests that the filter selects, in the order of
    the rubric file and each one once: whatever the outcome of a run, the
    boot configurations it has written are those of a prefix of the
    selected tests, and of all of them when it returns a result. Without
    a filter, and with the empty filter, every test is selected; a
    filter that names tests selects only tests it names. What a run in
    batch mode returns is a result. *)
Theorem grade_starts_selected_tests (w : world) (pj : Z)
    (run_command : list string) (rubrics : list (string * rubric))
    (filt : option (list string)) (o : outcome (option grading_result))
    (log : list event) :
  grade w pj run_command rubrics filt = (o, log) ->
  exists ran,
    boots log = boot_of <$> ran
    /\ ran `prefix_of` selected filt rubrics
    /\ (forall g, o = Returned (Some g) -> ran = selected filt rubrics)
    /\ (filt = None -> o <> Returned None)
    /\ (filt = None \/ filt = Some [] ->
        selected filt rubrics = List.flat_map (fun rb => tests rb.2) rubrics)
    /\ (forall f t, filt = Some f -> f <> [] -> t ∈ ran -> t.1 ∈ f).
Proof.
  intros Hrun.
  destruct (grade_boots w run_command filt pj rubrics)
    as (r & log' & Hg & Hb & Hr).
  rewrite Hg in Hrun. injection Hrun as <- <-.
  exists (through_first (stops w run_command filt) (selected filt rubrics)).
  split; [done|].
  split; [apply through_first_prefix|].
  split; [|split; [|split]].
  - intros g [= ->]. apply through_first_none.
    destruct (existsb _ _); [|done]. by specialize (proj2 Hr eq_refl).
  - intros -> [= ->]. specialize (proj1 Hr eq_refl) as Hnone.
    apply List.existsb_exists in Hnone as (t & _ & Ht). done.
  - apply selected_all.
  - intros f t -> Hne Hin.
    pose proof (through_first_prefix (stops w run_command (Some f))
                  (selected (Some f) rubrics)) as [k Hk].
    assert (t ∈ selected (Some f) rubrics) as Hsel.
    { rewrite Hk. set_solver. }
    unfold selected in Hsel.
    apply list_elem_of_In, List.in_flat_map in Hsel as (rb & _ & Ht).
    by apply (selected_of_named f (tests rb.2)), list_elem_of_In.
Qed.

(** In [two_tests_world], with the filter [t1, t3]: [t1] and [t3] are
    started, [t2] is not. *)
Lemma grade_starts_selected_sample :
  exists ran,
    boots (grade two_tests_world 1 ["qemu"] two_rubrics
                 (Some ["t1"; "t3"])).2
    = boot_of <$> ran
    /\ ran `prefix_of` selected (Some ["t1"; "t3"]) two_rubrics
    /\ (forall g,
          (grade two_tests_world 1 ["qemu"] two_rubrics
                 (Some ["t1"; "t3"])).1 = Returned (Some g) ->
          ran = selected (Some ["t1"; "t3"]) two_rubrics)
    /\ (Some ["t1"; "t3"] = None ->
        (grade two_tests_world 1 ["qemu"] two_rubrics
               (Some ["t1"; "t3"])).1 <> Returned None)
    /\ (Some ["t1"; "t3"] = None \/ Some ["t1"; "t3"] = Some [] ->
        selected (Some ["t1"; "t3"]) two_rubrics
        = List.flat_map (fun rb => tests rb.2) two_rubrics)
    /\ (forall f t, Some ["t1"; "t3"] = Some f -> f <> [] -> t ∈ ran ->
                    t.1 ∈ f).
Proof.
  apply (grade_starts_selected_tests two_tests_world 1 ["qemu"] two_rubrics
           (Some ["t1"; "t3"])).
  by destruct (grade _ _ _ _ _).
Defined.

(** In interactive mode the first selected test whose output holds
    [panic] ends the run: [grade] returns [None] exactly when some
    selected test has such an output, and the tests after the first such
    test are not started. *)
Theorem panic_ends_interactive_grading (w : world) (pj : Z)
    (run_command : list string) (rubrics : list (string * rubric))
    (f : list string) :
  let panics t := Py.contains "panic" (single_output w run_command (Some f) t) in
  exists r log,
    grade w pj run_command rubrics (Some f) = (Returned r, log)
    /\ (r = None
        <-> exists t, t ∈ selected (Some f) rubrics /\ panics t = true)
    /\ boots log
       = boot_of <$> through_first panics (selected (Some f) rubrics).
Proof.
  intros panics.
  destruct (grade_boots w run_command (Some f) pj rubrics)
    as (r & log & Hg & Hb & Hr).
  exists r, log. split; [done|]. split; [|done].
  rewrite Hr, List.existsb_exists. split.
  - intros (t & Hin & Ht). exists t. by rewrite list_elem_of_In.
  - intros (t & Hin & Ht). exists t. by rewrite <- list_elem_of_In.
Qed.

(** ** The shape of a grading result *)

Section ResultFacts.
Context {V : Type}.

Lemma dict_set_new (d : list (string * V)) (k : string) (v : V) :
  k ∉ d.*1 -> dict_set String.eqb d k v = d ++ [(k, v)].
Proof.
  induction d as [|[k' v'] d IH]; intros Hk; [done|].
  cbn [dict_set]. rewrite fmap_cons, not_elem_of_cons in Hk.
  destruct Hk as [Hne Hk]. cbn [fst] in Hne.
  destruct (String.eqb_spec k' k) as [->|_]; [done|]. by rewrite IH.
Qed.

Lemma dict_get_last (d : list (string * V)) (k : string) (v : V) :
  k ∉ d.*1 -> dict_get String.eqb (d ++ [(k, v)]) k = Some v.
Proof.
  induction d as [|[k' v'] d IH]; intros Hk.
  { cbn. by rewrite String.eqb_refl. }
  cbn [dict_get List.app]. rewrite fmap_cons, not_elem_of_cons in Hk.
  destruct Hk as [Hne Hk]. cbn [fst] in Hne.
  destruct (String.eqb_spec k' k) as [->|_]; [done|]. by apply IH.
Qed.

Lemma dict_set_last (d : list (string * V)) (k : string) (v v' : V) :
  k ∉ d.*1 -> dict_set String.eqb (d ++ [(k, v)]) k v' = d ++ [(k, v')].
Proof.
  induction d as [|[k0 v0] d IH]; intros Hk.
  { cbn. by rewrite String.eqb_refl. }
  cbn [dict_set List.app]. rewrite fmap_cons, not_elem_of_cons in Hk.
  destruct Hk as [Hne Hk]. cbn [fst] in Hne.
  destruct (String.eqb_spec k0 k) as [->|_]; [done|]. by rewrite IH.
Qed.

Lemma dict_get_found (d : list (string * V)) (k : string) :
  k ∈ d.*1 -> is_Some (dict_get String.eqb d k).
Proof.
  induction d as [|[k' v'] d IH]; intros Hk.
  { by apply elem_of_nil in Hk. }
  cbn [dict_get]. destruct (String.eqb_spec k' k) as [->|Hne]; [done|].
  rewrite fmap_cons in Hk. apply elem_of_cons in Hk as [Hk|Hk]; [|by apply IH].
  by destruct Hne.
Qed.

End ResultFacts.

Lemma result_set_last (g0 : grading_result) (rname : string)
    (r : rubric_result) (name : string) (v : test_result) :
  rname ∉ g0.*1 -> name ∉ r.*1 ->
  result_set (g0 ++ [(rname, r)]) rname name v
  = g0 ++ [(rname, r ++ [(name, v)])].
Proof.
  intros Hr Hn. unfold result_set.
  rewrite dict_get_last by done. cbn [default from_option id].
  rewrite (dict_set_new r name v) by done. by apply dict_set_last.
Qed.

Section ShapeFacts.
Variables (w : world) (run_command : list string).
Variable filt : option (list string).

Lemma grade_tests_shape (rname : string) (ts : list (string * test_conf))
    (g0 : grading_result) (r : rubric_result) (tpassed tpassed' : Z)
    (g' : grading_result) (log : list event) :
  rname ∉ g0.*1 -> NoDup (r.*1 ++ ts.*1) ->
  grade_tests w run_command filt rname ts (g0 ++ [(rname, r)]) tpassed
  = (Returned (Some (g', tpassed')), log) ->
  exists es, g' = g0 ++ [(rname, r ++ es)]
             /\ es.*1 = (selected_of filt ts).*1.
Proof.
  intros Hr. revert r tpassed log.
  induction ts as [|[name conf] ts IH]; intros r tpassed log Hnd Hg.
  { injection Hg as <- _ _. exists []. by rewrite List.app_nil_r. }
  cbn [grade_tests selected_of List.filter fst] in Hg |- *.
  rewrite fmap_cons in Hnd. cbn [fst] in Hnd.
  apply NoDup_app in Hnd as (Hnr & Hdisj & Hnt).
  apply NoDup_cons in Hnt as [Hname Hnt].
  assert (NoDup (r.*1 ++ ts.*1)) as Hrest.
  { apply NoDup_app. split; [done|]. split; [|done].
    intros x Hx Hx'. apply (Hdisj x Hx). by right. }
  destruct (filtered_out filt name); cbn [negb]; [by apply (IH r tpassed log)|].
  destruct (grade_test_boots w run_command filt name conf)
    as (t & l1 & Ht & _ & _).
  rewrite Ht, bind_returned in Hg. destruct t as [[passed output]|]; [|done].
  rewrite result_set_last in Hg; [|done|].
  2:{ intros Hin. apply (Hdisj name Hin). by left. }
  destruct (grade_tests _ _ _ _ _ _ _) as [o l2] eqn:Hrec.
  cbn [fst snd] in Hg. injection Hg as -> <-.
  assert (NoDup ((r ++ [(name, (passed, output))]).*1 ++ ts.*1)) as Hnext.
  { rewrite fmap_app, <- List.app_assoc. cbn [fmap list_fmap fst List.app].
    apply NoDup_app. split; [done|]. split; [|by apply NoDup_cons].
    intros x Hx Hx'. by apply (Hdisj x Hx). }
  destruct (IH _ _ _ Hnext Hrec) as (es & -> & Hes).
  exists ((name, (passed, output)) :: es). split.
  - by rewrite <- List.app_assoc.
  - rewrite !fmap_cons. cbn [fst]. by rewrite Hes.
Qed.

Lemma grade_rubrics_shape (rs : list (string * rubric)) (g0 g : grading_result)
    (tpassed : Z) (log : list event) :
  NoDup (g0.*1 ++ rs.*1) ->
  Forall (fun rb : string * rubric => NoDup (tests rb.2).*1) rs ->
  grade_rubrics w run_command filt rs g0 tpassed = (Returned (Some g), log) ->
  exists gs,
    g = g0 ++ gs
    /\ Forall2 (fun (gr : string * rubric_result) (rb : string * rubric) =>
                  gr.1 = rb.1
                  /\ gr.2.*1 = (selected_of filt (tests rb.2)).*1) gs rs.
Proof.
  revert g0 tpassed log.
  induction rs as [|[rname rb] rs IH]; intros g0 tpassed log Hnd Hts Hg.
  { injection Hg as <- _. exists []. by rewrite List.app_nil_r. }
  cbn [grade_rubrics] in Hg. rewrite fmap_cons in Hnd. cbn [fst] in Hnd.
  apply Forall_cons in Hts as [Ht Hts]. cbn [snd] in Ht.
  assert (rname ∉ g0.*1) as Hfresh.
  { apply NoDup_app in Hnd as (_ & Hdisj & _). intros Hin.
    apply (Hdisj rname Hin). by left. }
  rewrite dict_set_new in Hg by done.
  match type of Hg with
  | context [grade_tests _ _ _ _ _ ?g1 _] =>
    destruct (grade_tests_boots w run_command filt rname (tests rb) g1 tpassed)
      as (t & l1 & Ht1 & _ & _)
  end.
  rewrite Ht1, bind_returned in Hg. destruct t as [[g1 tp1]|]; [|done].
  destruct (grade_tests_shape rname (tests rb) g0 [] tpassed tp1 g1 l1)
    as (es & -> & Hes); [done|done|done|].
  destruct (grade_rubrics _ _ _ _ _ _) as [o l2] eqn:Hrec.
  cbn [fst snd] in Hg. injection Hg as -> <-.
  destruct (IH (g0 ++ [(rname, es)]) tp1 l2) as (gs & -> & Hgs);
    [|done|done|].
  { rewrite fmap_app, <- List.app_assoc. by cbn [fmap list_fmap fst List.app]. }
  exists ((rname, es) :: gs). split; [by rewrite <- List.app_assoc|].
  by constructor.
Qed.

Lemma grade_shape (pj : Z) (rubrics : list (string * rubric))
    (g : grading_result) (log : list event) :
  NoDup rubrics.*1 ->
  Forall (fun rb : string * rubric => NoDup (tests rb.2).*1) rubrics ->
  grade w pj run_command rubrics filt = (Returned (Some g), log) ->
  Forall2 (fun (gr : string * rubric_result) (rb : string * rubric) =>
             gr.1 = rb.1 /\ gr.2.*1 = (selected_of filt (tests rb.2)).*1)
          g rubrics.
Proof.
  intros Hnd Hts Hg. unfold grade in Hg.
  destruct (grade_rubrics w run_command filt rubrics [] 0) as [o l] eqn:Hrec.
  assert (o = Returned (Some g)) as ->.
  { destruct (negb (is_Some_b filt)).
    - rewrite bind_emit in Hg. by injection Hg as -> _.
    - rewrite bind_mret in Hg. by injection Hg as -> _. }
  destruct (grade_rubrics_shape rubrics [] g 0 l) as (gs & -> & Hgs); done.
Qed.

End ShapeFacts.

(** What [grade] returns mirrors the rubric file: it has the rubrics of
    the file, in their order, and under each rubric the selected tests of
    that rubric, in their order. The keys of a rubric file, and of the
    tests of a rubric, are distinct. *)
Theorem grading_result_mirrors_rubrics (w : world) (pj : Z)
    (run_command : list string) (rubrics : list (string * rubric))
    (filt : option (list string)) (g : grading_result) (log : list event) :
  NoDup rubrics.*1 ->
  Forall (fun rb : string * rubric => NoDup (tests rb.2).*1) rubrics ->
  grade w pj run_command rubrics filt = (Returned (Some g), log) ->
  g.*1 = rubrics.*1
  /\ Forall2 (fun (gr : string * rubric_result) (rb : string * rubric) =>
                gr.2.*1 = (selected_of filt (tests rb.2)).*1) g rubrics.
Proof.
  intros Hnd Hts Hg.
  pose proof (grade_shape w run_command filt pj rubrics g log Hnd Hts Hg) as H.
  clear Hg Hnd Hts. induction H as [|gr rb g rubrics [H1 H2] _ [IH1 IH2]].
  - by split.
  - split; [by rewrite !fmap_cons, H1, IH1|by constructor].
Qed.

(** In [two_tests_world], with the filter [t1, t3]. *)
Lemma grading_result_mirrors_sample :
  let g := [("core", [("t1", (false, ""))]);
            ("extra", [("t3", (false, ""))])] in
  g.*1 = two_rubrics.*1
  /\ Forall2 (fun (gr : string * rubric_result) (rb : string * rubric) =>
                gr.2.*1 = (selected_of (Some ["t1"; "t3"]) (tests rb.2)).*1)
             g two_rubrics.
Proof.
  apply (grading_result_mirrors_rubrics two_tests_world 1 ["qemu"] two_rubrics
           (Some ["t1"; "t3"]) _
           (grade two_tests_world 1 ["qemu"] two_rubrics
                  (Some ["t1"; "t3"])).2).
  - apply (bool_decide_unpack _). vm_compute. exact I.
  - repeat constructor; apply (bool_decide_unpack _); vm_compute; exact I.
  - vm_compute. reflexivity.
Defined.

(** ** The score report after a grading run *)

Section FaultFacts.
Context {A B : Type}.

Lemma faults_within_mret (a : A) (P : exn -> Prop) :
  faults_within (mret a) P.
Proof. exact I. Qed.

Lemma faults_within_emit (e : event) (P : exn -> Prop) :
  faults_within (emit e) P.
Proof. exact I. Qed.

Lemma faults_within_raise (e : exn) (P : exn -> Prop) :
  P e -> faults_within (raise e : M A) P.
Proof. intros H. exact H. Qed.

Lemma faults_within_bind (m : M A) (f : A -> M B) (P : exn -> Prop) :
  faults_within m P -> (forall a, faults_within (f a) P) ->
  faults_within (m ≫= f) P.
Proof.
  unfold faults_within. intros Hm Hf. destruct m as [[a|e|c] l]; [|done..].
  rewrite bind_returned. apply Hf.
Qed.

End FaultFacts.

Lemma faults_within_float_of_int (z : Z) :
  faults_within (lift (float_of_int z)) arithmetic_fault.
Proof.
  unfold faults_within, lift, float_of_int. cbn [fst].
  destruct (is_infinity _); [by right|done].
Qed.

Lemma faults_within_float_of_num (x : num) :
  faults_within (lift (float_of_num x)) arithmetic_fault.
Proof. destruct x; [apply faults_within_float_of_int|exact I]. Qed.

Lemma faults_within_num_add (a b : num) :
  faults_within (lift (num_add a b)) arithmetic_fault.
Proof.
  destruct a as [x|f], b as [y|g]; unfold num_add; try exact I.
  - pose proof (faults_within_float_of_int x) as H.
    unfold faults_within, lift in *. cbn [fst] in *.
    by destruct (float_of_int x).
  - pose proof (faults_within_float_of_int y) as H.
    unfold faults_within, lift in *. cbn [fst] in *.
    by destruct (float_of_int y).
Qed.

Lemma faults_within_print_failed (fl : list (string * string))
    (P : exn -> Prop) :
  faults_within (print_failed fl) P.
Proof.
  induction fl as [|[test output] fl IH]; [exact I|].
  cbn [print_failed]. apply faults_within_bind; [apply faults_within_emit|].
  intros _. apply IH.
Qed.

Lemma faults_within_summarize_rubrics (rubrics : list (string * rubric))
    (g : grading_result) (t : tally) :
  (forall rname, rname ∈ g.*1 -> rname ∈ rubrics.*1) ->
  faults_within (summarize_rubrics rubrics g t) arithmetic_fault.
Proof.
  revert t. induction g as [|[rname r] g IH]; intros t Hkeys; [exact I|].
  cbn [summarize_rubrics].
  destruct (dict_get_found rubrics rname) as [rb ->].
  { apply Hkeys. rewrite fmap_cons. by left. }
  apply faults_within_bind; [apply faults_within_num_add|]. intros max_score'.
  apply faults_within_bind; [apply faults_within_float_of_int|]. intros len.
  apply faults_within_bind.
  { unfold int_truediv_float.
    apply faults_within_bind; [apply faults_within_float_of_int|]. intros f.
    destruct (PrimFloat.eqb len 0); [by left|exact I]. }
  intros q. apply faults_within_bind.
  { unfold float_mul_num.
    apply faults_within_bind; [apply faults_within_float_of_num|]. intros x.
    exact I. }
  intros this_score.
  apply faults_within_bind; [apply faults_within_emit|]. intros _.
  apply faults_within_bind; [apply faults_within_emit|]. intros _.
  apply IH. intros rn Hin. apply Hkeys. rewrite fmap_cons. by right.
Qed.

Lemma faults_within_summarize (pj : Z) (rubrics : list (string * rubric))
    (g : grading_result) :
  (forall rname, rname ∈ g.*1 -> rname ∈ rubrics.*1) ->
  faults_within (summarize pj rubrics g) arithmetic_fault.
Proof.
  intros Hkeys. unfold summarize.
  apply faults_within_bind; [apply faults_within_emit|]. intros _.
  apply faults_within_bind; [apply faults_within_emit|]. intros _.
  apply faults_within_bind; [by apply faults_within_summarize_rubrics|].
  intros t.
  apply faults_within_bind; [apply faults_within_emit|]. intros _.
  apply faults_within_bind; [apply faults_within_emit|]. intros _.
  apply faults_within_bind.
  { destruct (_ =? _); [apply faults_within_emit|exact I]. }
  intros _. destruct (0 <? _); [|exact I].
  apply faults_within_bind; [apply faults_within_emit|]. intros _.
  apply faults_within_print_failed.
Qed.

(** [summarize] finds every rubric of a result that [grade] has returned
    for the same rubric file: run on such a result it raises no
    [KeyError]; it does not end the process, and the only exceptions it
    can raise are those of its arithmetic, [ZeroDivisionError] and
    [OverflowError]. *)
Theorem summarize_accepts_grading_result (w : world) (pj : Z)
    (run_command : list string) (rubrics : list (string * rubric))
    (filt : option (list string)) (g : grading_result) (log : list event) :
  NoDup rubrics.*1 ->
  Forall (fun rb : string * rubric => NoDup (tests rb.2).*1) rubrics ->
  grade w pj run_command rubrics filt = (Returned (Some g), log) ->
  (forall c l, summarize pj rubrics g <> (Exited c, l))
  /\ (forall k l, summarize pj rubrics g <> (Raised (KeyError k), l))
  /\ (forall e l, summarize pj rubrics g = (Raised e, l) ->
        e = ZeroDivisionError \/ e = OverflowError).
Proof.
  intros Hnd Hts Hg.
  assert (g.*1 = rubrics.*1) as Hkeys.
  { pose proof (grade_shape w run_command filt pj rubrics g log Hnd Hts Hg)
      as H.
    clear Hg Hnd Hts. induction H as [|gr rb g rubrics [H1 _] _ IH]; [done|].
    by rewrite !fmap_cons, H1, IH. }
  pose proof (faults_within_summarize pj rubrics g) as H.
  unfold faults_within in H. rewrite Hkeys in H. specialize (H (fun _ Hin => Hin)).
  split; [|split].
  - intros c l Heq. by rewrite Heq in H.
  - intros k l Heq. rewrite Heq in H. by destruct H.
  - intros e l Heq. by rewrite Heq in H.
Qed.

(** The result of [two_rubrics_result] is what [grade] returns for
    [two_rubrics] in [two_tests_world]; its report completes. *)
Lemma summarize_accepts_sample :
  (forall c l, summarize 1 two_rubrics two_rubrics_result <> (Exited c, l))
  /\ (forall k l,
        summarize 1 two_rubrics two_rubrics_result <> (Raised (KeyError k), l))
  /\ (forall e l, summarize 1 two_rubrics two_rubrics_result = (Raised e, l) ->
        e = ZeroDivisionError \/ e = OverflowError).
Proof.
  apply (summarize_accepts_grading_result two_tests_world 1 ["qemu"]
           two_rubrics None two_rubrics_result
           (grade two_tests_world 1 ["qemu"] two_rubrics None).2).
  - apply (bool_decide_unpack _). vm_compute. exact I.
  - repeat constructor; apply (bool_decide_unpack _); vm_compute; exact I.
  - vm_compute. reflexivity.
Defined.

(** ** Counts and banner of the score report *)

Lemma summarize_tests_counts (r : rubric_result) (a : rubric_tally) :
  rt_tests (summarize_tests r a) = rt_tests a + Z.of_nat (List.length r)
  /\ rt_passed (summarize_tests r a)
     = rt_passed a
       + Z.of_nat (List.length
                     (List.filter (fun t : string * test_result => t.2.1) r)).
Proof.
  revert a. induction r as [|[name [result output]] r IH]; intros a.
  { cbn. lia. }
  cbn [summarize_tests List.filter List.length snd fst].
  destruct (IH {| rt_o := rt_o a ++ ["- " +:+ (if result then "pass" else "fail")
                                     +:+ ": " +:+ name];
                  rt_rscore := rt_rscore a + Z.b2z result;
                  rt_failed := if negb result
                               then dict_set String.eqb (rt_failed a) name output
                               else rt_failed a;
                  rt_tests := rt_tests a + 1;
                  rt_passed := rt_passed a + Z.b2z result |}) as [-> ->].
  cbn [rt_tests rt_passed]. destruct result; cbn [List.length Z.b2z]; lia.
Qed.

Lemma count_tests_cons (rname : string) (r : rubric_result)
    (g : grading_result) :
  count_tests ((rname, r) :: g) = Z.of_nat (List.length r) + count_tests g.
Proof.
  unfold count_tests, entries_of. cbn [List.flat_map snd].
  rewrite List.length_app. lia.
Qed.

Lemma count_passed_cons (rname : string) (r : rubric_result)
    (g : grading_result) :
  count_passed ((rname, r) :: g)
  = Z.of_nat (List.length
                (List.filter (fun t : string * test_result => t.2.1) r))
    + count_passed g.
Proof.
  unfold count_passed, entries_of. cbn [List.flat_map snd].
  rewrite List.filter_app, List.length_app. lia.
Qed.

Lemma all_passed_counts (g : grading_result) :
  count_passed g = count_tests g <-> all_passed g = true.
Proof.
  unfold count_passed, count_tests, all_passed.
  induction (entries_of g) as [|t l IH]; [done|].
  cbn [List.filter forallb List.length].
  pose proof (List.filter_length_le (fun t : string * test_result => t.2.1) l).
  destruct (t.2.1); cbn [List.length andb].
  - rewrite <- IH. lia.
  - split; [lia|done].
Qed.

(** The rubric lines of the report, and what the loop has counted. *)
Lemma summarize_rubrics_counts (rubrics : list (string * rubric))
    (g : grading_result) (t t' : tally) (l : list event) :
  summarize_rubrics rubrics g t = (Returned t', l) ->
  n_tests t' = n_tests t + count_tests g
  /\ n_passed t' = n_passed t + count_passed g
  /\ forall s, Print s ∈ l -> s = "----------------".
Proof.
  revert t l. induction g as [|[rname r] g IH]; intros t l Hs.
  { injection Hs as <- <-. unfold count_tests, count_passed. cbn.
    split; [lia|]. split; [lia|]. intros s Hin. by apply elem_of_nil in Hin. }
  cbn [summarize_rubrics] in Hs.
  destruct (dict_get String.eqb rubrics rname) as [rb|]; [|done].
  unfold lift in Hs.
  destruct (num_add (max_score t) (score rb)) as [ms| |]; [|done..].
  rewrite bind_returned in Hs.
  destruct (float_of_int (Z.of_nat (List.length r))) as [len| |]; [|done..].
  rewrite bind_returned in Hs.
  unfold int_truediv_float, lift in Hs.
  destruct (float_of_int _) as [f| |]; [|done..].
  rewrite bind_returned in Hs.
  destruct (PrimFloat.eqb len 0); [done|].
  unfold mret, M_ret in Hs. cbn [fst snd List.app] in Hs.
  rewrite bind_returned in Hs. unfold float_mul_num, lift in Hs.
  destruct (float_of_num (score rb)) as [x| |]; [|done..].
  rewrite bind_returned in Hs. unfold mret, M_ret in Hs.
  cbn [fst snd List.app] in Hs.
  rewrite bind_returned, !bind_emit in Hs.
  destruct (summarize_rubrics rubrics g _) as [o l2] eqn:Hrec.
  cbn [fst snd List.app] in Hs. injection Hs as -> <-.
  apply IH in Hrec as (Ht & Hp & Hl). cbn [n_tests n_passed] in Ht, Hp.
  pose proof (summarize_tests_counts r
                {| rt_o := []; rt_rscore := 0; rt_failed := failed t;
                   rt_tests := n_tests t; rt_passed := n_passed t |})
    as [Hrt Hrp].
  cbn [rt_tests rt_passed] in Hrt, Hrp.
  rewrite count_tests_cons, count_passed_cons.
  split; [lia|]. split; [lia|].
  intros s Hin. apply elem_of_cons in Hin as [[=]|Hin].
  apply elem_of_cons in Hin as [[= ->]|Hin]; [done|]. by apply Hl.
Qed.

Lemma print_failed_lines (fl : list (string * string)) :
  exists l, print_failed fl = (Returned tt, l)
            /\ forall s, Print s ∈ l -> exists t, s = String "T" t.
Proof.
  induction fl as [|[test output] fl (l & IH & Hl)].
  { exists []. split; [done|]. intros s Hin. by apply elem_of_nil in Hin. }
  cbn [print_failed]. rewrite bind_emit, IH. eexists. split; [done|].
  cbn [snd]. intros s Hin. apply elem_of_cons in Hin as [[= ->]|Hin].
  - rewrite sapp_cons. by eexists.
  - by apply Hl.
Qed.

Lemma not_perfect (a : ascii) (s : string) :
  Print PERFECT = Print (String a s) -> a = "195"%char.
Proof. intros H. unfold PERFECT in H. by injection H. Qed.

Lemma summarize_eq (pj : Z) (rubrics : list (string * rubric))
    (g : grading_result) (t : tally) (lr : list event) :
  summarize_rubrics rubrics g
    {| failed := []; max_score := PyInt 0; total_score := 0%float;
       n_tests := 0; n_passed := 0 |} = (Returned t, lr) ->
  exists tail,
    summarize pj rubrics g
    = (Returned tt,
       [Print "----------------";
        Print ("Test Summary of `keos-project" +:+ Py.str_of_int pj +:+ "`:")]
       ++ lr
       ++ [Print ("TEST SUMMARY: " +:+ Py.str_of_int (n_passed t) +:+ " of "
                  +:+ Py.str_of_int (n_tests t) +:+ " passed");
           PrintTotal (total_score t) (max_score t)]
       ++ (if n_passed t =? n_tests t then [Print PERFECT] else [])
       ++ tail)
    /\ Print PERFECT ∉ tail.
Proof.
  intros Hr. destruct (print_failed_lines (failed t)) as (lf & Hf & Hlf).
  exists (if 0 <? Z.of_nat (List.length (failed t))
          then Print "----------------" :: lf else []).
  split.
  - unfold summarize. do 2 rewrite bind_emit. rewrite Hr, bind_returned, Hf.
    by destruct (n_passed t =? n_tests t), (0 <? _).
  - destruct (0 <? _); [|by intros Hin; apply elem_of_nil in Hin].
    intros Hin.
    apply elem_of_cons in Hin as [Hin|Hin]; [by apply not_perfect in Hin|].
    destruct (Hlf _ Hin) as [x Hx].
    by pose proof (not_perfect "T" x (f_equal Print Hx)).
Qed.

(** When the report completes, its summary line gives the number of
    recorded tests that passed and the number of recorded tests, and the
    banner is printed exactly when every recorded test passed. *)
Theorem summary_counts_and_banner (pj : Z) (rubrics : list (string * rubric))
    (g : grading_result) (log : list event) :
  summarize pj rubrics g = (Returned tt, log) ->
  Print ("TEST SUMMARY: " +:+ Py.str_of_int (count_passed g) +:+ " of "
         +:+ Py.str_of_int (count_tests g) +:+ " passed") ∈ log
  /\ (Print PERFECT ∈ log <-> all_passed g = true).
Proof.
  intros Hs.
  destruct (summarize_rubrics rubrics g
              {| failed := []; max_score := PyInt 0; total_score := 0%float;
                 n_tests := 0; n_passed := 0 |}) as [[t|e|c] lr] eqn:Hr.
  2,3: by unfold summarize in Hs; rewrite !bind_emit, Hr in Hs.
  destruct (summarize_eq pj rubrics g t lr Hr) as (tail & Heq & Hno).
  rewrite Heq in Hs. injection Hs as <-.
  apply summarize_rubrics_counts in Hr as (Ht & Hp & Hl).
  cbn [n_tests n_passed] in Ht, Hp. rewrite Z.add_0_l in Ht, Hp.
  rewrite Ht, Hp.
  assert (Print PERFECT ∉ lr) as Hlr.
  { intros Hin. specialize (Hl _ Hin).
    by pose proof (not_perfect "-" _ (f_equal Print Hl)). }
  rewrite <- all_passed_counts.
  split; [set_solver|].
  destruct (count_passed g =? count_tests g) eqn:Hc.
  - apply Z.eqb_eq in Hc. split; [done|]. intros _. set_solver.
  - apply Z.eqb_neq in Hc. split; [|done]. intros Hin.
    apply elem_of_cons in Hin as [Hin|Hin]; [by apply not_perfect in Hin|].
    apply elem_of_cons in Hin as [Hin|Hin].
    { rewrite sapp_cons in Hin. by apply not_perfect in Hin. }
    apply elem_of_app in Hin as [Hin|Hin]; [done|].
    apply elem_of_cons in Hin as [Hin|Hin].
    { rewrite sapp_cons in Hin. by apply not_perfect in Hin. }
    apply elem_of_cons in Hin as [Hin|Hin]; [done|]. done.
Qed.

(** The report on [two_rubrics_result]: one of three tests passed. *)
Lemma summary_counts_sample :
  let log := (summarize 1 two_rubrics two_rubrics_result).2 in
  Print "TEST SUMMARY: 1 of 3 passed" ∈ log
  /\ (Print PERFECT ∈ log <-> all_passed two_rubrics_result = true).
Proof.
  apply (summary_counts_and_banner 1 two_rubrics two_rubrics_result).
  vm_compute. reflexivity.
Defined.

(** ** Stage directories *)

Lemma digit_value_pretty (d : N) :
  (d < 10)%N -> Py.digit_value (pretty_N_char d) = Some (Z.of_N d).
Proof.
  intros H.
  assert (d = 0 \/ d = 1 \/ d = 2 \/ d = 3 \/ d = 4 \/ d = 5 \/ d = 6
          \/ d = 7 \/ d = 8 \/ d = 9)%N as Hd by lia.
  repeat (destruct Hd as [-> | Hd]; [reflexivity|]). by subst.
Qed.

(** Reading the digits of [x] after [acc] continues [acc] by them. *)
Lemma digits_pretty_N_go (x : N) :
  (0 < x)%N ->
  exists m : Z, forall acc b s,
    Py.digits acc b (pretty_N_go x s) = Py.digits (acc * m + Z.of_N x) true s.
Proof.
  induction (N.lt_wf_0 x) as [x _ IH]. intros Hx.
  assert (x `mod` 10 < 10)%N as Hmod by (apply N.mod_lt; lia).
  assert (Z.of_N x = 10 * Z.of_N (x `div` 10) + Z.of_N (x `mod` 10)) as Hdm.
  { pose proof (N.div_mod x 10). lia. }
  destruct (decide (x `div` 10 = 0)%N) as [Hz|Hnz].
  - exists 10. intros acc b s. rewrite pretty_N_go_step, Hz by done.
    rewrite pretty_N_go_0. cbn [Py.digits].
    rewrite digit_value_pretty by done. f_equal. rewrite Hz in Hdm. lia.
  - destruct (IH (x `div` 10)%N) as [m Hm]; [apply N.div_lt; lia|lia|].
    exists (10 * m). intros acc b s. rewrite pretty_N_go_step, Hm by done.
    cbn [Py.digits]. rewrite digit_value_pretty by done. f_equal. lia.
Qed.

Lemma chars_pretty_N_go (P : ascii -> Prop) (x : N) (s : string) :
  (forall d, (d < 10)%N -> P (pretty_N_char d)) ->
  Forall P (list_ascii_of_string s) ->
  Forall P (list_ascii_of_string (pretty_N_go x s)).
Proof.
  intros HP. revert s. induction (N.lt_wf_0 x) as [x _ IH]. intros s Hs.
  destruct (decide (0 < x)%N) as [Hx|Hx].
  - rewrite pretty_N_go_step by done. apply IH; [by apply N.div_lt|].
    cbn [list_ascii_of_string]. constructor; [|done].
    apply HP, N.mod_lt. lia.
  - assert (x = 0%N) as -> by lia. by rewrite pretty_N_go_0.
Qed.

Lemma rev_app_app (s t u : string) :
  String.rev_app (String.rev_app s t) u = String.rev_app t (s +:+ u).
Proof.
  revert t u. induction s as [|a s IH]; intros t u; [done|].
  cbn [String.rev_app]. by rewrite IH, sapp_cons.
Qed.

Lemma lstrip_rev_app (s t : string) :
  Forall (fun c => Py.is_space c = false) (list_ascii_of_string s) ->
  Py.lstrip t = t -> Py.lstrip (String.rev_app s t) = String.rev_app s t.
Proof.
  revert t. induction s as [|a s IH]; intros t Hs Ht; [done|].
  cbn [list_ascii_of_string] in Hs. apply Forall_cons in Hs as [Ha Hs].
  cbn [String.rev_app]. apply IH; [done|]. cbn [Py.lstrip]. by rewrite Ha.
Qed.

(** [strip] leaves a text without white space as it is. *)
Lemma strip_no_space (s : string) :
  Forall (fun c => Py.is_space c = false) (list_ascii_of_string s) ->
  Py.strip s = s.
Proof.
  intros Hs. unfold Py.strip.
  assert (Py.lstrip s = s) as ->.
  { destruct s as [|a s]; [done|]. cbn [list_ascii_of_string] in Hs.
    apply Forall_cons in Hs as [Ha _]. cbn [Py.lstrip]. by rewrite Ha. }
  unfold String.rev. rewrite lstrip_rev_app by done.
  by rewrite rev_app_app, sapp_nil_r.
Qed.

Lemma int_of_digits (s : string) (v : Z) :
  Py.strip s = s -> Py.digits 0 false s = Some v -> Py.int s = Some v.
Proof.
  intros Hs Hd. unfold Py.int. rewrite Hs.
  destruct s as [|c s']; [done|].
  destruct (ascii_dec c "-") as [->|Hm]; [done|].
  destruct (ascii_dec c "+") as [->|Hp]; [done|].
  destruct c as [[] [] [] [] [] [] [] []]; done.
Qed.

Lemma pretty_char_no_space (d : N) :
  (d < 10)%N -> Py.is_space (pretty_N_char d) = false.
Proof.
  intros H.
  assert (d = 0 \/ d = 1 \/ d = 2 \/ d = 3 \/ d = 4 \/ d = 5 \/ d = 6
          \/ d = 7 \/ d = 8 \/ d = 9)%N as Hd by lia.
  repeat (destruct Hd as [-> | Hd]; [reflexivity|]). by subst.
Qed.

Lemma pretty_char_not_k (d : N) :
  (d < 10)%N -> pretty_N_char d <> "k"%char.
Proof.
  intros H.
  assert (d = 0 \/ d = 1 \/ d = 2 \/ d = 3 \/ d = 4 \/ d = 5 \/ d = 6
          \/ d = 7 \/ d = 8 \/ d = 9)%N as Hd by lia.
  repeat (destruct Hd as [-> | Hd]; [done|]). by subst.
Qed.

Lemma int_pretty_positive (p : positive) :
  Py.strip (pretty p) = pretty p
  /\ Py.digits 0 false (pretty p) = Some (Z.pos p).
Proof.
  unfold pretty, pretty_positive, pretty, pretty_N.
  destruct (decide (N.pos p = 0%N)); [done|]. split.
  - apply strip_no_space, chars_pretty_N_go; [|constructor].
    apply pretty_char_no_space.
  - destruct (digits_pretty_N_go (N.pos p)) as [m Hm]; [lia|].
    by rewrite Hm.
Qed.

(** [int(str(k))] is [k]. *)
Lemma int_str_of_int (k : Z) : Py.int (Py.str_of_int k) = Some k.
Proof.
  unfold Py.str_of_int. destruct k as [|p|p]; [done| |].
  - destruct (int_pretty_positive p) as [Hs Hd].
    change (pretty (Z.pos p)) with (pretty p). by apply int_of_digits.
  - destruct (int_pretty_positive p) as [Hs Hd].
    change (pretty (Z.neg p)) with ("-" +:+ pretty p).
    rewrite sapp_cons, sapp_nil_l.
    unfold Py.int. rewrite strip_no_space.
    + by rewrite Hd.
    + cbn [list_ascii_of_string]. constructor; [done|].
      unfold pretty, pretty_positive, pretty, pretty_N.
      destruct (decide (N.pos p = 0%N)); [done|].
      apply chars_pretty_N_go; [|constructor]. apply pretty_char_no_space.
Qed.

Lemma contains_no_head (a : ascii) (n s : string) :
  Forall (fun c => c <> a) (list_ascii_of_string s) ->
  Py.contains (String a n) s = false.
Proof.
  induction s as [|c s IH]; intros Hs; [done|].
  cbn [list_ascii_of_string] in Hs. apply Forall_cons in Hs as [Hc Hs].
  rewrite contains_eq.
  destruct (String.prefix (String a n) (String c s)) eqn:Hp; [|by apply IH].
  apply prefix_spec in Hp as [t Ht]. rewrite sapp_cons in Ht.
  by injection Ht as -> _.
Qed.

(** The name of a stage directory gives back its stage number. *)
Lemma stage_of_project_dir (k : Z) :
  Py.startswith (project_dir k) "keos-project" = true
  /\ Py.int (Py.replace (project_dir k) "keos-project" "") = Some k.
Proof.
  unfold project_dir. split.
  { apply prefix_spec. by eexists. }
  rewrite replace_leading; [by rewrite sapp_nil_l, int_str_of_int|done|].
  apply contains_no_head. unfold Py.str_of_int.
  assert (forall p : positive,
            Forall (fun c => c <> "k"%char)
                   (list_ascii_of_string (pretty p))) as Hpos.
  { intros p. unfold pretty, pretty_positive, pretty, pretty_N.
    destruct (decide (N.pos p = 0%N)); [done|].
    apply chars_pretty_N_go; [|constructor]. apply pretty_char_not_k. }
  destruct k as [|p|p].
  - by repeat constructor.
  - apply Hpos.
  - change (pretty (Z.neg p)) with ("-" +:+ pretty p).
    rewrite sapp_cons, sapp_nil_l. cbn [list_ascii_of_string].
    constructor; [done|]. apply Hpos.
Qed.



(** ** The stage a compliance check runs for *)

Lemma str_of_int_chars (P : ascii -> Prop) (k : Z) :
  (forall d, (d < 10)%N -> P (pretty_N_char d)) -> P "-"%char ->
  Forall P (list_ascii_of_string (Py.str_of_int k)).
Proof.
  intros Hd Hm. unfold Py.str_of_int.
  assert (forall p : positive, Forall P (list_ascii_of_string (pretty p)))
    as Hpos.
  { intros p. unfold pretty, pretty_positive, pretty, pretty_N.
    destruct (decide (N.pos p = 0%N)); [done|].
    by apply chars_pretty_N_go; [|constructor]. }
  destruct k as [|p|p].
  - constructor; [apply (Hd 0%N); lia|constructor].
  - apply Hpos.
  - change (pretty (Z.neg p)) with ("-" +:+ pretty p).
    rewrite sapp_cons, sapp_nil_l. cbn [list_ascii_of_string].
    constructor; [done|]. apply Hpos.
Qed.

Lemma prefix_head_ne (a c : ascii) (n s : string) :
  c <> a -> String.prefix (String a n) (String c s) = false.
Proof.
  intros Hne. destruct (String.prefix _ _) eqn:Hp; [|done].
  apply prefix_spec in Hp as [t Ht]. rewrite sapp_cons in Ht.
  by injection Ht as -> _.
Qed.

Lemma split_go_cons_ne (a c : ascii) (n s : string) :
  c <> a ->
  split_go (String a n) (String c s) 0
  = match split_go (String a n) s 0 with
    | piece :: rest => String c piece :: rest
    | [] => [String c ""]
    end.
Proof. intros Hne. cbn [split_go]. by rewrite prefix_head_ne. Qed.

Lemma split_go_hit (sep : string) (c : ascii) (s : string) :
  String.prefix sep (String c s) = true ->
  split_go sep (String c s) 0
  = "" :: split_go sep s (Nat.pred (String.length sep)).
Proof. intros H. cbn [split_go]. by rewrite H. Qed.

Lemma split_go_no_head (a : ascii) (n s : string) :
  Forall (fun c => c <> a) (list_ascii_of_string s) ->
  split_go (String a n) s 0 = [s].
Proof.
  induction s as [|c s IH]; intros Hs; [done|].
  cbn [list_ascii_of_string] in Hs. apply Forall_cons in Hs as [Hc Hs].
  by rewrite split_go_cons_ne, IH.
Qed.

Lemma split_go_skip (sep t s : string) :
  split_go sep (t +:+ s) (String.length t) = split_go sep s 0.
Proof. induction t as [|c t IH]; [done|]. rewrite sapp_cons. exact IH. Qed.

Lemma pretty_char_not_p (d : N) :
  (d < 10)%N -> pretty_N_char d <> "p"%char.
Proof.
  intros H.
  assert (d = 0 \/ d = 1 \/ d = 2 \/ d = 3 \/ d = 4 \/ d = 5 \/ d = 6
          \/ d = 7 \/ d = 8 \/ d = 9)%N as Hd by lia.
  repeat (destruct Hd as [-> | Hd]; [done|]). by subst.
Qed.

(** The name of a stage directory gives back its stage number, read as
    [check_whitelist_compliance] reads it. *)
Lemma parse_project_dir (k : Z) : parse_project_num (project_dir k) = Some k.
Proof.
  unfold parse_project_num, str_split, project_dir.
  rewrite !sapp_cons, sapp_nil_l.
  do 5 (rewrite split_go_cons_ne by done).
  change (String "p" (String "r" (String "o" (String "j" (String "e"
            (String "c" (String "t" (Py.str_of_int k))))))))
    with (String "p" ("roject" +:+ Py.str_of_int k)).
  rewrite split_go_hit.
  2:{ apply prefix_spec. by exists (Py.str_of_int k). }
  change (Nat.pred (String.length "project")) with (String.length "roject").
  rewrite split_go_skip, split_go_no_head.
  - apply int_str_of_int.
  - apply str_of_int_chars; [apply pretty_char_not_p|done].
Qed.


(** ** What a compliance check reports *)

Section CopyFacts.
Context {A B : Type}.

Lemma copies_nothing_mret (a : A) : copies_nothing (mret a).
Proof. reflexivity. Qed.

Lemma copies_nothing_exit (c : Z) : copies_nothing (sys_exit c : M A).
Proof. reflexivity. Qed.

Lemma copies_nothing_bind (m : M A) (f : A -> M B) :
  copies_nothing m -> (forall a, copies_nothing (f a)) ->
  copies_nothing (m ≫= f).
Proof.
  unfold copies_nothing. intros Hm Hf.
  destruct m as [[a|e|c] l]; [|done..].
  rewrite bind_returned. cbn [snd] in *.
  by rewrite List.filter_app, Hm, Hf.
Qed.

End CopyFacts.

Lemma copies_nothing_emit (e : event) :
  is_copy e = false -> copies_nothing (emit e).
Proof. unfold copies_nothing, emit. cbn. by intros ->. Qed.

Lemma copies_nothing_sync (w : fs) (s : sync_env) (cwd : string) :
  copies_nothing (ensure_template_freshness w s cwd).
Proof.
  assert (forall A f, copies_nothing (sync_failed f : M A)) as Hfail.
  { intros A [msg|msg]; unfold sync_failed;
      (apply copies_nothing_bind; [by apply copies_nothing_emit|]);
      intros _; apply copies_nothing_exit. }
  unfold ensure_template_freshness.
  destruct (negb (path_exists w (original_dir w))).
  { apply copies_nothing_bind; [by apply copies_nothing_emit|].
    intros _. apply copies_nothing_exit. }
  destruct (negb (path_exists w _)).
  { apply copies_nothing_bind; [by apply copies_nothing_emit|].
    intros _. apply copies_nothing_exit. }
  destruct (chdir_error s (original_dir w)); [apply Hfail|].
  apply copies_nothing_bind.
  - induction GIT_COMMANDS as [|argv rest IH]; [apply copies_nothing_mret|].
    cbn [run_git]. apply copies_nothing_bind; [by apply copies_nothing_emit|].
    intros _. destruct (git s argv); [apply copies_nothing_mret|apply IH].
  - intros [f|]; [apply Hfail|].
    destruct (chdir_error s cwd); [apply Hfail|apply copies_nothing_mret].
Qed.

Lemma copies_nothing_check (w : fs) (directory_name : string)
    (wl : list string) (n : Z) (mode : string) :
  String.eqb mode "override" = false ->
  copies_nothing (check_directory_integrity w directory_name wl n mode).
Proof.
  intros Hmode. rewrite check_directory_integrity_eq.
  apply copies_nothing_bind.
  { destruct (scan_recorded w directory_name wl n) as [Hl _].
    unfold copies_nothing. by rewrite Hl. }
  intros vs. apply copies_nothing_bind; [|intros _; apply copies_nothing_mret].
  unfold report_violations. destruct vs as [|v vs]; [apply copies_nothing_mret|].
  apply copies_nothing_bind; [by apply copies_nothing_emit|]. intros _.
  destruct (String.eqb mode "warn") eqn:Hw.
  - apply String.eqb_eq in Hw as ->. rewrite handle_violations_warn.
    apply printed_lines_no_copy.
  - by rewrite handle_violations_other.
Qed.

Lemma copies_nothing_three (w : fs) (s : sync_env) (cwd : string)
    (wl : list string) (n : Z) (mode : string) :
  String.eqb mode "override" = false ->
  copies_nothing (check_three_directory_integrity w s cwd wl n mode).
Proof.
  intros Hmode. unfold check_three_directory_integrity.
  apply copies_nothing_bind; [apply copies_nothing_sync|]. intros _.
  generalize (@nil (string * list string)).
  induction CHECKED_DIRECTORIES as [|d rest IH]; intros acc.
  { apply copies_nothing_mret. }
  cbn [check_directories]. apply copies_nothing_bind.
  - destruct (String.eqb d "keos-projects"); by apply copies_nothing_check.
  - intros vs. apply IH.
Qed.

Lemma copies_nothing_print_files (files : list string) :
  copies_nothing (print_files files).
Proof.
  induction files as [|f files IH]; [apply copies_nothing_mret|].
  cbn [print_files]. apply copies_nothing_bind; [by apply copies_nothing_emit|].
  intros _. apply IH.
Qed.

Lemma print_files_returns (files : list string) :
  exists l, print_files files = (Returned tt, l).
Proof.
  induction files as [|f files [l IH]]; [by eexists|].
  cbn [print_files]. rewrite bind_emit, IH. by eexists.
Qed.

Lemma print_details_returns (details : list (Z * list string))
    (keys : list Z) :
  exists l, print_details details keys = (Returned tt, l)
            /\ List.filter is_copy l = [].
Proof.
  induction keys as [|k keys (l & IH & Hl)]; [by exists []|].
  cbn [print_details]. rewrite bind_emit.
  pose proof (copies_nothing_print_files
                (sorted String.leb
                   (default [] (dict_get Z.eqb details k)))) as Hc.
  destruct (print_files_returns
              (sorted String.leb (default [] (dict_get Z.eqb details k))))
    as [l1 Hf].
  rewrite Hf in Hc |- *. unfold copies_nothing in Hc. cbn [snd] in Hc.
  rewrite bind_returned, IH. eexists. split; [done|].
  cbn [fst snd List.filter is_copy]. by rewrite List.filter_app, Hc, Hl.
Qed.

(** In a mode that is neither [warn] nor [override], a compliance check
    that finds violations copies no file, and yet its last line reports
    the number of violations as files restored to their original
    versions. *)
Theorem other_modes_report_restoration (w : fs) (s : sync_env)
    (targets : Z -> grade_target) (mode : string) (cwd : string) (k : Z)
    (whitelist : list string) (all_violations : list (string * list string))
    (l : list event) :
  String.eqb mode "warn" = false ->
  String.eqb mode "override" = false ->
  check_three_directory_integrity w s cwd
    (build_cumulative_whitelist targets k).1 k mode
  = (Returned all_violations, l) ->
  count_violations all_violations <> 0 ->
  exists log,
    check_whitelist_compliance w s targets (Some mode) cwd (project_dir k)
      whitelist
    = (Returned tt,
       log ++ [Print (NL +:+ Py.str_of_int (count_violations all_violations)
                      +:+ " file(s) restored to original versions")])
    /\ List.filter is_copy log = [].
Proof.
  intros Hw Ho Hthree Hcount.
  unfold check_whitelist_compliance.
  rewrite (proj1 (stage_of_project_dir k)), parse_project_dir.
  cbn [negb default from_option id]. unfold compliance_at_stage.
  pose proof (copies_nothing_three w s cwd
                (build_cumulative_whitelist targets k).1 k mode Ho) as Hc.
  rewrite Hthree in Hc |- *. unfold copies_nothing in Hc. cbn [snd] in Hc.
  assert ((count_violations all_violations =? 0) = false) as Hz by lia.
  destruct (print_details_returns (build_cumulative_whitelist targets k).2
              (sorted Z.leb (build_cumulative_whitelist targets k).2.*1))
    as (ld & Hd & Hld).
  destruct ((build_cumulative_whitelist targets k).2) as [|d ds] eqn:Hdet.
  - rewrite bind_returned, Hz, Hw. cbn [negb].
    rewrite bind_mret, !bind_emit. cbn [fst snd].
    exists (l ++ [Print "----------------"]). split.
    + by rewrite <- List.app_assoc.
    + by rewrite List.filter_app, Hc.
  - rewrite bind_returned, Hz, Hw. cbn [negb].
    rewrite Hd, !bind_emit. cbn [fst snd]. rewrite bind_returned.
    cbn [fst snd].
    exists (Print "Whitelisted Files:" :: ld ++ l ++ [Print "----------------"]).
    split.
    + cbn [List.app]. by rewrite <- !List.app_assoc.
    + cbn [List.filter is_copy]. by rewrite !List.filter_app, Hld, Hc.
Qed.

(** With [KEOS_FILE_CHECK=strict], stage 2 of [checked_fs]: [main.rs] of
    [keos] differs, nothing is copied, one file is reported restored. *)
Lemma other_modes_sample :
  exists log,
    check_whitelist_compliance checked_fs good_sync two_stage_targets
      (Some "strict") "/repo/keos-projects/keos-project2/grader"
      (project_dir 2) []
    = (Returned tt,
       log ++ [Print (NL +:+ Py.str_of_int
                               (count_violations [("keos", ["main.rs"])])
                      +:+ " file(s) restored to original versions")])
    /\ List.filter is_copy log = [].
Proof.
  apply (other_modes_report_restoration checked_fs good_sync two_stage_targets
           "strict" "/repo/keos-projects/keos-project2/grader" 2 []
           [("keos", ["main.rs"])]
           (check_three_directory_integrity checked_fs good_sync
              "/repo/keos-projects/keos-project2/grader"
              (build_cumulative_whitelist two_stage_targets 2).1 2
              "strict").2).
  - reflexivity.
  - reflexivity.
  - vm_compute. reflexivity.
  - vm_compute. discriminate.
Defined.
